(** * QuickBooksClient: a shallow embedding of the OAuth client and of its
      query, invoice and report operations (src/auth/oauth.ts, src/types.ts).

    The client is asynchronous TypeScript over axios.  Every public
    operation awaits exactly one request of the axios instance, whose
    request interceptor awaits [getAccessToken] first.  The embedding
    threads the client object and the list of network exchanges through a
    small state-and-exception monad; the remote parties (clock, token
    endpoint, accounting API) are the fields of an environment record. *)

From Stdlib Require Import ZArith List String Ascii Bool Lia DecimalString.
From Stdlib Require Import Floats.SpecFloat.
Import ListNotations.

Set Warnings "-register-all".

Local Open Scope string_scope.
Local Open Scope Z_scope.

(** ** ECMAScript numbers

    A JavaScript [number] is an IEEE 754 binary64 value.  [spec_float] is
    the Standard Library's specification of such values (no NaN payload,
    as in ECMAScript, where all NaNs are indistinguishable). *)
Module JS.

Definition number : Type := spec_float.

Definition prec : Z := 53.
Definition emax : Z := 1024.

Definition NaN : number := S754_nan.
Definition Infinity : number := S754_infinity false.
Definition pos_zero : number := S754_zero false.

(** The double nearest to an integer (exact below 2^53). *)
Definition num_of_Z (z : Z) : number := binary_normalize prec emax z 0 false.

Definition num_add (x y : number) : number := SFadd prec emax x y.
Definition num_sub (x y : number) : number := SFsub prec emax x y.
Definition num_mul (x y : number) : number := SFmul prec emax x y.
Definition num_lt (x y : number) : bool := SFltb x y.
Definition num_eqb (x y : number) : bool := SFeqb x y.

(** [q] followed by [n] zero bits. *)
Definition shift_pos (q : positive) (n : Z) : positive :=
  match n with
  | Zpos p => Pos.iter xO q p
  | _ => q
  end.

(** The double of a positive integer of at most 53 bits: the integer
    shifted to 53 bits, with the exponent that undoes the shift. *)
Definition canonical (s : bool) (P : positive) : number :=
  S754_finite s (shift_pos P (53 - Zpos (digits2_pos P)))
    (Zpos (digits2_pos P) - 53).

(** [ToBoolean] on numbers: +0, -0 and NaN are falsy. *)
Definition num_truthy (x : number) : bool :=
  match x with
  | S754_zero _ | S754_nan => false
  | _ => true
  end.

(** [ToBoolean] on strings: only the empty string is falsy. *)
Definition str_truthy (s : string) : bool :=
  match s with
  | EmptyString => false
  | String _ _ => true
  end.

(** [x || d] on numbers. *)
Definition num_or (x d : number) : number := if num_truthy x then x else d.

(** [x || d] where [x] is an optional property ([undefined] when absent). *)
Definition opt_num_or (x : option number) (d : number) : number :=
  match x with
  | Some v => num_or v d
  | None => d
  end.

(** ToBoolean of an optional string property. *)
Definition opt_str_truthy (x : option string) : bool :=
  match x with
  | Some s => str_truthy s
  | None => false
  end.

(** *** Decimal to binary64

    The double nearest (ties to even) to [(-1)^s * m * 10^e], for [m >= 0].
    A negative [e] goes through the exact integer division that [SFdiv]
    uses, which records whether the remainder is below, at or above the
    half-way point. *)
Definition num_of_decimal (s : bool) (m e : Z) : number :=
  match m with
  | Z0 => S754_zero s
  | Zpos p =>
      if 0 <=? e
      then binary_round prec emax s (Z.to_pos (m * 10 ^ e)) 0
      else
        let '(q, e', l) := SFdiv_core_binary prec emax m 0 (10 ^ (- e)) 0 in
        binary_round_aux prec emax s q e' l
  | Zneg _ => NaN
  end.

(** *** Number::toString (radix 10) *)

Definition digits_of_Z (z : Z) : string :=
  NilZero.string_of_uint (N.to_uint (Z.to_N z)).

Fixpoint zeros (n : nat) : string :=
  match n with
  | O => ""
  | S n' => String "0" (zeros n')
  end.

Fixpoint rev_string_acc (s acc : string) : string :=
  match s with
  | EmptyString => acc
  | String c s' => rev_string_acc s' (String c acc)
  end.

Fixpoint drop_leading_zeros (s : string) : string :=
  match s with
  | String "0" s' => drop_leading_zeros s'
  | _ => s
  end.

Definition strip_trailing_zeros (s : string) : string :=
  rev_string_acc (drop_leading_zeros (rev_string_acc s "")) "".

(** A positive finite double as an exact fraction [num / den]. *)
Definition fraction_of (m : positive) (e : Z) : Z * Z :=
  if 0 <=? e then (Zpos m * 2 ^ e, 1) else (Zpos m, 2 ^ (- e)).

(** The least [j] with [num * 10^j >= den], i.e. the number of places the
    decimal point moves right before the value reaches 1. *)
Fixpoint places_below_one (fuel : nat) (num den j : Z) : Z :=
  match fuel with
  | O => j
  | S fuel' =>
      if den <=? num * 10 ^ j then j
      else places_below_one fuel' num den (j + 1)
  end.

(** [n] of the specification: [10^(n-1) <= x < 10^n]. *)
Definition decimal_exponent (num den : Z) : Z :=
  if den <=? num
  then Z.of_nat (String.length (digits_of_Z (num / den)))
  else 1 - places_below_one 400 num den 0.

(** The shortest digit string [s] (as an integer, with its decimal
    exponent) that reads back as [x]; among the candidates of that length,
    the one nearest to [x]. *)
Fixpoint shortest_digits (fuel : nat) (k : Z) (num den n : Z) (x : number)
  : Z * Z :=
  let sc := k - n in
  let '(a, b) :=
    if 0 <=? sc then (num * 10 ^ sc, den) else (num, den * 10 ^ (- sc)) in
  let lo := a / b in
  let hi := lo + 1 in
  match fuel with
  | O => (lo, n - k)
  | S fuel' =>
      let ok_lo := (0 <? lo) && num_eqb (num_of_decimal false lo (n - k)) x in
      let ok_hi := num_eqb (num_of_decimal false hi (n - k)) x in
      match ok_lo, ok_hi with
      | true, true =>
          if (2 * a <? (2 * lo + 1) * b)
             || ((2 * a =? (2 * lo + 1) * b) && Z.even lo)
          then (lo, n - k) else (hi, n - k)
      | true, false => (lo, n - k)
      | false, true => (hi, n - k)
      | false, false => shortest_digits fuel' (k + 1) num den n x
      end
  end.

Definition string_take (n : nat) (s : string) : string := substring 0 n s.
Definition string_drop (n : nat) (s : string) : string :=
  substring n (String.length s - n) s.

(** Steps 7 to 10 of Number::toString: [ds] are the [k] digits of [s] and
    [n] places the decimal point. *)
Definition format_digits (ds : string) (n : Z) : string :=
  let k := Z.of_nat (String.length ds) in
  if (k <=? n) && (n <=? 21) then
    ds ++ zeros (Z.to_nat (n - k))
  else if (0 <? n) && (n <=? 21) then
    string_take (Z.to_nat n) ds ++ "." ++ string_drop (Z.to_nat n) ds
  else if (-6 <? n) && (n <=? 0) then
    "0." ++ zeros (Z.to_nat (- n)) ++ ds
  else
    let e := n - 1 in
    let es := (if e <? 0 then "-" else "+") ++ digits_of_Z (Z.abs e) in
    if k =? 1 then ds ++ "e" ++ es
    else string_take 1 ds ++ "." ++ string_drop 1 ds ++ "e" ++ es.

Definition Number_toString (x : number) : string :=
  match x with
  | S754_nan => "NaN"
  | S754_zero _ => "0"
  | S754_infinity s => if s then "-Infinity" else "Infinity"
  | S754_finite s m e =>
      let '(num, den) := fraction_of m e in
      let n := decimal_exponent num den in
      let '(d, e10) := shortest_digits 17 1 num den n (S754_finite false m e) in
      let all := digits_of_Z d in
      let ds := strip_trailing_zeros all in
      let n' := Z.of_nat (String.length all) + e10 in
      (if s then "-" else "") ++ format_digits ds n'
  end.

(** *** parseFloat on strings *)

Definition is_digit (c : ascii) : bool :=
  let n := nat_of_ascii c in (48 <=? n)%nat && (n <=? 57)%nat.

Definition digit_val (c : ascii) : Z := Z.of_nat (nat_of_ascii c) - 48.

(** StrWhiteSpaceChar.  A string is held as its UTF-8 bytes.  The white
    space and line terminator code points are TAB, LF, VT, FF, CR and SP
    (one byte each); NBSP U+00A0 (C2 A0); U+1680 (E1 9A 80), U+2000 to
    U+200A (E2 80 80 to E2 80 8A), U+2028, U+2029 and U+202F (E2 80 A8,
    A9 and AF), U+205F (E2 81 9F), U+3000 (E3 80 80) and U+FEFF
    (EF BB BF). *)
Definition is_white_space (c : ascii) : bool :=
  let n := nat_of_ascii c in
  ((9 <=? n)%nat && (n <=? 13)%nat) || (n =? 32)%nat.

Definition is_white_space_2 (c1 c2 : ascii) : bool :=
  (nat_of_ascii c1 =? 194)%nat && (nat_of_ascii c2 =? 160)%nat.

Definition is_white_space_3 (c1 c2 c3 : ascii) : bool :=
  let n1 := nat_of_ascii c1 in
  let n2 := nat_of_ascii c2 in
  let n3 := nat_of_ascii c3 in
  ((n1 =? 225)%nat && (n2 =? 154)%nat && (n3 =? 128)%nat)
  || ((n1 =? 226)%nat && (n2 =? 128)%nat
      && (((128 <=? n3)%nat && (n3 <=? 138)%nat)
          || (n3 =? 168)%nat || (n3 =? 169)%nat || (n3 =? 175)%nat))
  || ((n1 =? 226)%nat && (n2 =? 129)%nat && (n3 =? 159)%nat)
  || ((n1 =? 227)%nat && (n2 =? 128)%nat && (n3 =? 128)%nat)
  || ((n1 =? 239)%nat && (n2 =? 187)%nat && (n3 =? 191)%nat).

Fixpoint trim_start (s : string) : string :=
  match s with
  | String c1 s1 =>
      if is_white_space c1 then trim_start s1
      else if (nat_of_ascii c1 <? 128)%nat then s
      else
        match s1 with
        | String c2 s2 =>
            if is_white_space_2 c1 c2 then trim_start s2
            else
              match s2 with
              | String c3 s3 =>
                  if is_white_space_3 c1 c2 c3 then trim_start s3 else s
              | EmptyString => s
              end
        | EmptyString => s
        end
  | EmptyString => s
  end.

(** Reads the longest run of decimal digits: the value accumulated onto
    [acc], how many digits were read, and what follows them. *)
Fixpoint take_digits (s : string) (acc cnt : Z) : Z * Z * string :=
  match s with
  | String c s' =>
      if is_digit c then take_digits s' (10 * acc + digit_val c) (cnt + 1)
      else (acc, cnt, s)
  | EmptyString => (acc, cnt, s)
  end.

(** ExponentPart, when one is there: [e] or [E], an optional sign and at
    least one digit.  Anything else is not part of the literal. *)
Definition exponent_part (s : string) : Z :=
  match s with
  | String c r =>
      if (Ascii.eqb c "e" || Ascii.eqb c "E")%bool then
        let '(neg, r') :=
          match r with
          | String "-" r1 => (true, r1)
          | String "+" r1 => (false, r1)
          | _ => (false, r)
          end in
        let '(v, cnt, _) := take_digits r' 0 0 in
        if cnt =? 0 then 0 else if neg then - v else v
      else 0
  | EmptyString => 0
  end.

(** The longest prefix of the trimmed string that is a StrDecimalLiteral,
    read as a double; NaN when there is none. *)
Definition parseFloat (input : string) : number :=
  let s1 := trim_start input in
  let '(neg, s2) :=
    match s1 with
    | String "-" r => (true, r)
    | String "+" r => (false, r)
    | _ => (false, s1)
    end in
  if prefix "Infinity" s2 then S754_infinity neg
  else
    let '(ip, ic, r1) := take_digits s2 0 0 in
    let '(m, fc, r2) :=
      match r1 with
      | String "." r => take_digits r ip 0
      | _ => (ip, 0, r1)
      end in
    if (ic =? 0) && (fc =? 0) then NaN
    else num_of_decimal neg m (exponent_part r2 - fc).

End JS.

(** ** Values of type [any], exceptions and the Date time value *)
Module Value.
Import JS.

(** A value read from a JSON response body; [JUndefined] is what reading
    a missing property gives.  An object lists its own properties, a
    string is held as its UTF-8 bytes. *)
Inductive any : Type :=
  | JUndefined
  | JNull
  | JBool (b : bool)
  | JNum (x : number)
  | JStr (s : string)
  | JArr (elems : list any)
  | JObj (members : list (string * any)).

(** What a failing step throws: a TypeError of the language itself, or the
    error with which an axios request rejects (HTTP status, network
    failure, ...), identified by its message. *)
Inductive Error : Type :=
  | TypeError
  | AxiosError (message : string).

Inductive result (A : Type) : Type :=
  | Ok (a : A)
  | Throw (e : Error).
Arguments Ok {A} a.
Arguments Throw {A} e.

Definition bindR {A B} (r : result A) (k : A -> result B) : result B :=
  match r with
  | Ok a => k a
  | Throw e => Throw e
  end.

Notation "x <-? r ;; k" := (bindR r (fun x => k))
  (at level 61, r at next level, right associativity).

(** [ToBoolean]. *)
Definition truthy (v : any) : bool :=
  match v with
  | JUndefined | JNull => false
  | JBool b => b
  | JNum x => num_truthy x
  | JStr s => str_truthy s
  | JArr _ | JObj _ => true
  end.

Definition nullish (v : any) : bool :=
  match v with
  | JUndefined | JNull => true
  | _ => false
  end.

(** [v || d]. *)
Definition any_or (v d : any) : any := if truthy v then v else d.

(** [v === s] for a string [s]. *)
Definition strict_eq_str (v : any) (s : string) : bool :=
  match v with
  | JStr t => String.eqb t s
  | _ => false
  end.

Fixpoint lookup (k : string) (ms : list (string * any)) : any :=
  match ms with
  | [] => JUndefined
  | (k', v) :: ms' => if String.eqb k' k then v else lookup k ms'
  end.

(** [v.k] for the property names this client reads (Customer, Invoice,
    QueryResponse, the entity names, Rows, Row, type, group, Summary,
    ColData, value), none of which a built-in prototype defines: reading
    one from [undefined] or [null] throws, a primitive or an array has
    none of them. *)
Definition member (v : any) (k : string) : result any :=
  match v with
  | JUndefined | JNull => Throw TypeError
  | JObj ms => Ok (lookup k ms)
  | _ => Ok JUndefined
  end.

(** [v?.k]. *)
Definition opt_member (v : any) (k : string) : any :=
  match v with
  | JObj ms => lookup k ms
  | _ => JUndefined
  end.

(** Strings are held as UTF-8 bytes, JavaScript indexes them by UTF-16
    code unit.  A sequence of one, two or three bytes is one code unit, a
    sequence of four bytes is a surrogate pair. *)
Definition utf8_width (c : ascii) : nat :=
  let n := nat_of_ascii c in
  if (n <? 128)%nat then 1%nat
  else if (n <? 224)%nat then 2%nat
  else if (n <? 240)%nat then 3%nat
  else 4%nat.

Definition byte_at (i : nat) (s : string) : N :=
  match String.get i s with
  | Some c => N_of_ascii c
  | None => 0%N
  end.

(** The code point of the four-byte sequence at the head of [s], less
    0x10000. *)
Definition supplementary_offset (s : string) : N :=
  ((byte_at 0 s mod 8) * 262144 + (byte_at 1 s mod 64) * 4096
   + (byte_at 2 s mod 64) * 64 + byte_at 3 s mod 64 - 65536)%N.

(** A lone surrogate, held as the three bytes of its generalized UTF-8
    form. *)
Definition surrogate_bytes (u : N) : string :=
  String (ascii_of_N (224 + u / 4096)%N)
    (String (ascii_of_N (128 + (u / 64) mod 64)%N)
       (String (ascii_of_N (128 + u mod 64)%N) "")).

Definition high_surrogate (s : string) : string :=
  surrogate_bytes (55296 + supplementary_offset s / 1024)%N.

Definition low_surrogate (s : string) : string :=
  surrogate_bytes (56320 + supplementary_offset s mod 1024)%N.

(** [s[1]]: the second code unit of a string, if it has one. *)
Definition code_unit_1 (s : string) : option string :=
  match s with
  | EmptyString => None
  | String c _ =>
      if (utf8_width c =? 4)%nat then Some (low_surrogate s)
      else
        let rest := substring (utf8_width c) (String.length s - utf8_width c) s in
        match rest with
        | EmptyString => None
        | String d _ =>
            if (utf8_width d =? 4)%nat then Some (high_surrogate rest)
            else Some (substring 0 (utf8_width d) rest)
        end
  end.

(** [v?.[1]]: the second element of an array, the second code unit of a
    string, the property named 1 of an object. *)
Definition opt_index1 (v : any) : any :=
  match v with
  | JArr l => nth 1 l JUndefined
  | JStr s => match code_unit_1 s with
              | Some t => JStr t
              | None => JUndefined
              end
  | JObj ms => lookup "1" ms
  | _ => JUndefined
  end.

Fixpoint has_key (k : string) (ms : list (string * any)) : bool :=
  match ms with
  | [] => false
  | (k', _) :: ms' => String.eqb k' k || has_key k ms'
  end.

(** [ToString].  An array joins its elements with commas, [undefined] and
    [null] elements giving the empty string.  A plain object gives
    [[object Object]] through Object.prototype.toString, unless it has an
    own property named toString: that one is not callable, valueOf does
    not return a primitive either, and the conversion throws. *)
Fixpoint ToString (v : any) : result string :=
  match v with
  | JUndefined => Ok "undefined"
  | JNull => Ok "null"
  | JBool b => Ok (if b then "true" else "false")
  | JNum x => Ok (Number_toString x)
  | JStr s => Ok s
  | JArr l =>
      (fix join (l : list any) : result string :=
         match l with
         | [] => Ok ""
         | x :: l' =>
             sx <-? (if nullish x then Ok "" else ToString x) ;;
             match l' with
             | [] => Ok sx
             | _ :: _ => r <-? join l' ;; Ok (sx ++ "," ++ r)
             end
         end) l
  | JObj ms => if has_key "toString" ms then Throw TypeError
               else Ok "[object Object]"
  end.

(** [ToIntegerOrInfinity] on a finite number, back as a number. *)
Definition num_trunc (x : number) : number :=
  match x with
  | S754_finite s m e =>
      if 0 <=? e then x
      else
        let q := Z.shiftr (Zpos m) (- e) in
        if q =? 0 then pos_zero
        else binary_normalize prec emax (if s then - q else q) 0 false
  | S754_zero _ => pos_zero
  | _ => x
  end.

(** [TimeClip]: the time value of [new Date(t)]; NaN is the Invalid Date. *)
Definition TimeClip (t : number) : number :=
  match t with
  | S754_nan | S754_infinity _ => NaN
  | _ =>
      if num_lt (num_of_Z 8640000000000000) (SFabs t) then NaN
      else num_trunc t
  end.

End Value.

(** ** The client object, the remote parties and the monad of operations *)
Module QB.
Import JS Value.

(** *** src/types.ts *)

Inductive Environment : Type := sandbox | production.

Record QBConfig : Type := {
  clientId : string;
  clientSecret : string;
  refreshToken : string;
  companyId : string;
  environment : Environment
}.

(** The body of the token endpoint's answer.  The client tests
    [refresh_token] before using it, so the property may be missing. *)
Record TokenResponse : Type := {
  access_token : string;
  refresh_token : option string;
  expires_in : number
}.

Record ProfitLossReport : Type := {
  totalIncome : number;
  totalCOGS : number;
  grossProfit : number;
  totalExpenses : number;
  netIncome : number
}.

(** *** The class QuickBooksClient

    [api_baseURL] is the base URL given to [axios.create] by the
    constructor; [tokenExpiry] is the time value of the Date. *)
Record QuickBooksClient : Type := {
  config : QBConfig;
  accessToken : string;
  tokenExpiry : number;
  api_baseURL : string
}.

Definition new_QuickBooksClient (cfg : QBConfig) : QuickBooksClient :=
  let baseURL :=
    match environment cfg with
    | production => "https://quickbooks.api.intuit.com"
    | sandbox => "https://sandbox-quickbooks.api.intuit.com"
    end in
  {| config := cfg;
     accessToken := "";
     tokenExpiry := TimeClip (num_of_Z 0);
     api_baseURL := baseURL ++ "/v3/company/" ++ companyId cfg |}.

(** *** What goes over the network *)

(** The refresh-token grant: the URL, the two halves of the Basic
    credentials and the two form fields.  (The base64 and form encodings
    of these strings are left to axios and the platform.) *)
Record TokenRequest : Type := {
  token_url : string;
  basic_user : string;
  basic_password : string;
  grant_type : string;
  grant_refresh_token : string
}.

Record SalesItemLineDetail : Type := {
  Qty : number;
  UnitPrice : number
}.

Record InvoiceLine : Type := {
  Line_Id : string;
  Amount : number;
  DetailType : string;
  Description : string;
  Line_SalesItemLineDetail : SalesItemLineDetail
}.

(** The object posted by [createInvoice]; the two spread properties are
    there only when the spread object is. *)
Record InvoiceData : Type := {
  CustomerRef : string;
  Line : list InvoiceLine;
  DueDate : option string;
  CustomerMemo : option string
}.

Inductive Method : Type := GET | POST.

(** A request of the axios instance after the interceptor has run. *)
Record ApiRequest : Type := {
  req_method : Method;
  req_url : string;
  req_params : list (string * string);
  req_body : option InvoiceData;
  req_authorization : string
}.

Inductive Event : Type :=
  | TokenExchange (req : TokenRequest)
  | ApiCall (req : ApiRequest).

(** The world one operation runs in.  An operation reads the clock at
    most twice: [new Date()] when it checks the cached token and
    [Date.now()] when the token endpoint has answered.  An endpoint
    answers with the response body or makes the request reject. *)
Record Env : Type := {
  clock_check : Z;
  token_endpoint : TokenRequest -> result TokenResponse;
  clock_issue : Z;
  api_endpoint : ApiRequest -> result any
}.

(** *** State, exceptions and the log of exchanges *)

Definition M (A : Type) : Type :=
  QuickBooksClient -> result A * QuickBooksClient * list Event.

Definition ret {A} (a : A) : M A := fun c => (Ok a, c, []).

Definition bind {A B} (m : M A) (k : A -> M B) : M B :=
  fun c =>
    match m c with
    | (Ok a, c1, t1) =>
        let '(r, c2, t2) := k a c1 in (r, c2, (t1 ++ t2)%list)
    | (Throw e, c1, t1) => (Throw e, c1, t1)
    end.

Notation "x <- m ;; k" := (bind m (fun x => k))
  (at level 61, m at next level, right associativity).

Definition lift {A} (r : result A) : M A := fun c => (r, c, []).

Definition this : M QuickBooksClient := fun c => (Ok c, c, []).

Definition assign (f : QuickBooksClient -> QuickBooksClient) : M unit :=
  fun c => (Ok tt, f c, []).

Definition emit (ev : Event) : M unit := fun c => (Ok tt, c, [ev]).

(** [try { m } catch { return v }]. *)
Definition try_catch {A} (m : M A) (v : A) : M A :=
  fun c =>
    match m c with
    | (Ok a, c1, t1) => (Ok a, c1, t1)
    | (Throw _, c1, t1) => (Ok v, c1, t1)
    end.

Definition set_accessToken (s : string) (c : QuickBooksClient) :=
  {| config := config c; accessToken := s;
     tokenExpiry := tokenExpiry c; api_baseURL := api_baseURL c |}.

Definition set_tokenExpiry (t : number) (c : QuickBooksClient) :=
  {| config := config c; accessToken := accessToken c;
     tokenExpiry := t; api_baseURL := api_baseURL c |}.

Definition set_refreshToken (s : string) (c : QuickBooksClient) :=
  {| config :=
       {| clientId := clientId (config c);
          clientSecret := clientSecret (config c);
          refreshToken := s;
          companyId := companyId (config c);
          environment := environment (config c) |};
     accessToken := accessToken c;
     tokenExpiry := tokenExpiry c; api_baseURL := api_baseURL c |}.

Section Operations.

Variable env : Env.

(** *** getAccessToken (lines 52 to 83) *)

Definition tokenURL : string :=
  "https://oauth.platform.intuit.com/oauth2/v1/tokens/bearer".

Definition token_request (c : QuickBooksClient) : TokenRequest :=
  {| token_url := tokenURL;
     basic_user := clientId (config c);
     basic_password := clientSecret (config c);
     grant_type := "refresh_token";
     grant_refresh_token := refreshToken (config c) |}.

(** [this.accessToken && this.tokenExpiry > new Date()]. *)
Definition token_is_fresh (c : QuickBooksClient) (now : Z) : bool :=
  str_truthy (accessToken c) && num_lt (num_of_Z now) (tokenExpiry c).

Definition getAccessToken : M string :=
  c <- this ;;
  if token_is_fresh c (clock_check env) then ret (accessToken c)
  else
    let req := token_request c in
    _ <- emit (TokenExchange req) ;;
    response <- lift (token_endpoint env req) ;;
    _ <- assign (set_accessToken (access_token response)) ;;
    _ <- assign (set_tokenExpiry
           (TimeClip (num_add (num_of_Z (clock_issue env))
                        (num_mul (num_sub (expires_in response) (num_of_Z 60))
                                 (num_of_Z 1000))))) ;;
    _ <- (if opt_str_truthy (refresh_token response)
          then match refresh_token response with
               | Some r => assign (set_refreshToken r)
               | None => ret tt
               end
          else ret tt) ;;
    c' <- this ;;
    ret (accessToken c').

(** *** How axios joins the base URL and the path

    [isAbsoluteURL]: the URL starts with two slashes, or with a scheme (a
    letter, then letters, digits, plus, minus and dot), a colon and two
    slashes. *)
Definition is_letter (c : ascii) : bool :=
  let n := nat_of_ascii c in
  ((65 <=? n)%nat && (n <=? 90)%nat) || ((97 <=? n)%nat && (n <=? 122)%nat).

Definition is_scheme_char (c : ascii) : bool :=
  is_letter c || is_digit c
  || Ascii.eqb c "+" || Ascii.eqb c "-" || Ascii.eqb c ".".

Fixpoint after_scheme (s : string) : string :=
  match s with
  | String c s' => if is_scheme_char c then after_scheme s' else s
  | EmptyString => s
  end.

Definition isAbsoluteURL (url : string) : bool :=
  prefix "//" url
  || match url with
     | String c s' => is_letter c && prefix "://" (after_scheme s')
     | EmptyString => false
     end.

Fixpoint drop_leading_slashes (s : string) : string :=
  match s with
  | String c s' => if Ascii.eqb c "/" then drop_leading_slashes s' else s
  | EmptyString => s
  end.

(** The base without the one or two slashes it ends in. *)
Definition drop_trailing_slashes (s : string) : string :=
  match rev_string_acc s "" with
  | String c1 r1 =>
      if Ascii.eqb c1 "/" then
        match r1 with
        | String c2 r2 =>
            if Ascii.eqb c2 "/" then rev_string_acc r2 ""
            else rev_string_acc r1 ""
        | EmptyString => ""
        end
      else s
  | EmptyString => s
  end.

(** [combineURLs] of axios 1: when the relative URL is not empty, the base
    without its last one or two slashes, one slash, and the relative URL
    without its leading slashes.  (The releases before 1.0 remove every
    slash the base ends in, which differs for a base ending in three
    slashes or more.) *)
Definition combineURLs (baseURL relativeURL : string) : string :=
  if str_truthy relativeURL
  then drop_trailing_slashes baseURL ++ "/" ++ drop_leading_slashes relativeURL
  else baseURL.

(** [buildFullPath], with allowAbsoluteUrls left unset as this client
    leaves it. *)
Definition buildFullPath (baseURL requestedURL : string) : string :=
  if str_truthy baseURL && negb (isAbsoluteURL requestedURL)
  then combineURLs baseURL requestedURL
  else requestedURL.

(** *** The axios instance with its request interceptor
        (lines 33 to 46)

    The interceptor obtains the token and sets the Authorization header;
    only then is the request sent.  The result is [response.data].
    [req_url] is the URL that axios builds from the instance's base URL
    and the path of the call ([buildFullPath]), before the parameters
    are appended and the adapter parses it. *)
Definition api_request (m : Method) (path : string)
    (params : list (string * string)) (body : option InvoiceData) : M any :=
  token <- getAccessToken ;;
  c <- this ;;
  let req := {| req_method := m;
                req_url := buildFullPath (api_baseURL c) path;
                req_params := params;
                req_body := body;
                req_authorization := "Bearer " ++ token |} in
  _ <- emit (ApiCall req) ;;
  lift (api_endpoint env req).

Definition api_get (path : string) (params : list (string * string)) : M any :=
  api_request GET path params None.

Definition api_post (path : string) (body : InvoiceData) : M any :=
  api_request POST path [] (Some body).

(** *** query (lines 88 to 101)

    The two last parameters have defaults, which apply when the argument
    is [undefined]. *)
Definition query_sql (entityType : string) (whereClause : option string)
    (limit offset : number) : string :=
  let sql := "SELECT * FROM " ++ entityType in
  let sql :=
    match whereClause with
    | Some w => if str_truthy w then sql ++ " WHERE " ++ w else sql
    | None => sql
    end in
  sql ++ " STARTPOSITION " ++ Number_toString (num_add offset (num_of_Z 1))
      ++ " MAXRESULTS " ++ Number_toString limit.

Definition query (entityType : string) (whereClause : option string)
    (limit offset : option number) : M any :=
  let limit := match limit with Some l => l | None => num_of_Z 100 end in
  let offset := match offset with Some o => o | None => num_of_Z 0 end in
  let sql := query_sql entityType whereClause limit offset in
  response_data <- api_get "/query" [("query", sql)] ;;
  data <- lift (member response_data "QueryResponse") ;;
  found <- lift (member data entityType) ;;
  ret (any_or found (JArr [])).

(** [conditions.length ? conditions.join(" AND ") : undefined]. *)
Definition where_of (conditions : list string) : option string :=
  match conditions with
  | [] => None
  | _ :: _ => Some (String.concat " AND " conditions)
  end.

(** [if (cond) conditions.push(s)] on the list built so far. *)
Definition push_if (cond : bool) (s : string) (conditions : list string)
  : list string :=
  if cond then (conditions ++ [s])%list else conditions.

(** *** Customers (lines 105 to 136) *)

Record CustomerOptions : Type := {
  cust_limit : option number;
  cust_offset : option number;
  cust_activeOnly : option bool;
  cust_search : option string
}.

(** [x !== false] for an optional boolean. *)
Definition not_false (x : option bool) : bool :=
  match x with
  | Some false => false
  | _ => true
  end.

Definition opt_str (x : option string) : string :=
  match x with
  | Some s => s
  | None => "undefined"
  end.

Definition customer_conditions (options : CustomerOptions) : list string :=
  let conditions := [] in
  let conditions :=
    push_if (not_false (cust_activeOnly options)) "Active = true" conditions in
  let conditions :=
    push_if (opt_str_truthy (cust_search options))
      ("DisplayName LIKE '%" ++ opt_str (cust_search options) ++ "%'")
      conditions in
  conditions.

Definition queryCustomers (options : CustomerOptions) : M any :=
  query "Customer" (where_of (customer_conditions options))
    (Some (opt_num_or (cust_limit options) (num_of_Z 100)))
    (Some (opt_num_or (cust_offset options) (num_of_Z 0))).

Definition getCustomer (id : string) : M any :=
  try_catch
    (response_data <- api_get ("/customer/" ++ id) [] ;;
     lift (member response_data "Customer"))
    JNull.

(** *** Invoices (lines 140 to 200) *)

Inductive InvoiceStatus : Type :=
  | inv_all | inv_open | inv_paid | inv_overdue.

Record InvoiceOptions : Type := {
  inv_limit : option number;
  inv_offset : option number;
  inv_customerId : option string;
  inv_status : option InvoiceStatus;
  inv_startDate : option string;
  inv_endDate : option string
}.

Definition invoice_conditions (options : InvoiceOptions) : list string :=
  let conditions := [] in
  let conditions :=
    push_if (opt_str_truthy (inv_customerId options))
      ("CustomerRef = '" ++ opt_str (inv_customerId options) ++ "'")
      conditions in
  let conditions :=
    match inv_status options with
    | Some inv_open => (conditions ++ ["Balance > '0'"])%list
    | Some inv_paid => (conditions ++ ["Balance = '0'"])%list
    | _ => conditions
    end in
  let conditions :=
    push_if (opt_str_truthy (inv_startDate options))
      ("TxnDate >= '" ++ opt_str (inv_startDate options) ++ "'")
      conditions in
  let conditions :=
    push_if (opt_str_truthy (inv_endDate options))
      ("TxnDate <= '" ++ opt_str (inv_endDate options) ++ "'")
      conditions in
  conditions.

Definition queryInvoices (options : InvoiceOptions) : M any :=
  query "Invoice" (where_of (invoice_conditions options))
    (Some (opt_num_or (inv_limit options) (num_of_Z 100)))
    (Some (opt_num_or (inv_offset options) (num_of_Z 0))).

Record LineItem : Type := {
  description : string;
  amount : number;
  quantity : option number
}.

Record InvoiceInput : Type := {
  in_customerId : string;
  lineItems : list LineItem;
  dueDate : option string;
  memo : option string
}.

(** The callback of [data.lineItems.map], at index [idx]. *)
Definition invoice_line (item : LineItem) (idx : nat) : InvoiceLine :=
  {| Line_Id :=
       Number_toString (num_add (num_of_Z (Z.of_nat idx)) (num_of_Z 1));
     Amount := num_mul (amount item) (opt_num_or (quantity item) (num_of_Z 1));
     DetailType := "SalesItemLineDetail";
     Description := description item;
     Line_SalesItemLineDetail :=
       {| Qty := opt_num_or (quantity item) (num_of_Z 1);
          UnitPrice := amount item |} |}.

Fixpoint map_indexed {A B} (f : A -> nat -> B) (l : list A) (idx : nat)
  : list B :=
  match l with
  | [] => []
  | x :: l' => f x idx :: map_indexed f l' (S idx)
  end.

(** [...(x && { K: x })]: the property is there when [x] is truthy. *)
Definition spread_if_truthy (x : option string) : option string :=
  if opt_str_truthy x then x else None.

Definition invoice_data (data : InvoiceInput) : InvoiceData :=
  {| CustomerRef := in_customerId data;
     Line := map_indexed invoice_line (lineItems data) 0;
     DueDate := spread_if_truthy (dueDate data);
     CustomerMemo := spread_if_truthy (memo data) |}.

Definition createInvoice (data : InvoiceInput) : M any :=
  let invoiceData := invoice_data data in
  response_data <- api_post "/invoice" invoiceData ;;
  lift (member response_data "Invoice").

(** *** Accounts, vendors and bills (lines 204 to 270) *)

Record AccountOptions : Type := {
  acc_accountType : option string;
  acc_limit : option number;
  acc_offset : option number
}.

Definition account_conditions (options : AccountOptions) : list string :=
  let conditions := ["Active = true"] in
  let conditions :=
    push_if (opt_str_truthy (acc_accountType options))
      ("AccountType = '" ++ opt_str (acc_accountType options) ++ "'")
      conditions in
  conditions.

Definition queryAccounts (options : AccountOptions) : M any :=
  query "Account"
    (Some (String.concat " AND " (account_conditions options)))
    (Some (opt_num_or (acc_limit options) (num_of_Z 1000)))
    (Some (opt_num_or (acc_offset options) (num_of_Z 0))).

Record VendorOptions : Type := {
  ven_limit : option number;
  ven_offset : option number;
  ven_activeOnly : option bool
}.

Definition vendor_conditions (options : VendorOptions) : list string :=
  let conditions := [] in
  let conditions :=
    push_if (not_false (ven_activeOnly options)) "Active = true" conditions in
  conditions.

Definition queryVendors (options : VendorOptions) : M any :=
  query "Vendor" (where_of (vendor_conditions options))
    (Some (opt_num_or (ven_limit options) (num_of_Z 100)))
    (Some (opt_num_or (ven_offset options) (num_of_Z 0))).

Inductive BillStatus : Type := bill_all | bill_unpaid | bill_paid.

Record BillOptions : Type := {
  bill_limit : option number;
  bill_offset : option number;
  bill_vendorId : option string;
  bill_status : option BillStatus
}.

Definition bill_conditions (options : BillOptions) : list string :=
  let conditions := [] in
  let conditions :=
    push_if (opt_str_truthy (bill_vendorId options))
      ("VendorRef = '" ++ opt_str (bill_vendorId options) ++ "'")
      conditions in
  let conditions :=
    match bill_status options with
    | Some bill_unpaid => (conditions ++ ["Balance > '0'"])%list
    | Some bill_paid => (conditions ++ ["Balance = '0'"])%list
    | _ => conditions
    end in
  conditions.

Definition queryBills (options : BillOptions) : M any :=
  query "Bill" (where_of (bill_conditions options))
    (Some (opt_num_or (bill_limit options) (num_of_Z 100)))
    (Some (opt_num_or (bill_offset options) (num_of_Z 0))).

(** *** getProfitAndLossReport (lines 274 to 304) *)

(** The callback of [rows.find]: [r.type === type || r.group === type]. *)
Definition row_matches (r : any) (type : string) : result bool :=
  t <-? member r "type" ;;
  if strict_eq_str t type then Ok true
  else g <-? member r "group" ;; Ok (strict_eq_str g type).

(** [Array.prototype.find] with that callback: the first element it
    accepts, [undefined] when it accepts none. *)
Fixpoint find_row (rows : list any) (type : string) : result any :=
  match rows with
  | [] => Ok JUndefined
  | r :: rows' =>
      b <-? row_matches r type ;;
      if b then Ok r else find_row rows' type
  end.

(** [row?.Summary?.ColData?.[1]?.value]. *)
Definition summary_value (row : any) : any :=
  opt_member (opt_index1 (opt_member (opt_member row "Summary") "ColData"))
    "value".

(** [zero] stands for the literal 0. *)
Definition zero : number := num_of_Z 0.

Definition parseAmount (rows : any) (type : string) : result number :=
  if negb (truthy rows) then Ok zero
  else
    match rows with
    | JArr elems =>
        row <-? find_row elems type ;;
        if truthy (summary_value row) then
          s <-? ToString (summary_value row) ;;
          Ok (num_or (parseFloat s) zero)
        else Ok zero
    | _ => Throw TypeError
    end.

(** The part of [getProfitAndLossReport] that follows the request:
    from [report = response.data] to the returned record. *)
Definition parseProfitAndLoss (report : any) : result ProfitLossReport :=
  Rows <-? member report "Rows" ;;
  let rows := any_or (opt_member Rows "Row") (JArr []) in
  income <-? parseAmount rows "Income" ;;
  cogs <-? parseAmount rows "COGS" ;;
  gross <-? parseAmount rows "GrossProfit" ;;
  expenses <-? parseAmount rows "Expenses" ;;
  net <-? parseAmount rows "NetIncome" ;;
  Ok {| totalIncome := income;
        totalCOGS := cogs;
        grossProfit := gross;
        totalExpenses := expenses;
        netIncome := net |}.

Definition getProfitAndLossReport (startDate endDate : string)
  : M ProfitLossReport :=
  report <- api_get "/reports/ProfitAndLoss"
              [("start_date", startDate); ("end_date", endDate)] ;;
  lift (parseProfitAndLoss report).

(** *** Every operation of the class, as one type *)

Inductive Operation : Type :=
  | OpGetAccessToken
  | OpQueryCustomers (options : CustomerOptions)
  | OpGetCustomer (id : string)
  | OpQueryInvoices (options : InvoiceOptions)
  | OpCreateInvoice (data : InvoiceInput)
  | OpQueryAccounts (options : AccountOptions)
  | OpQueryVendors (options : VendorOptions)
  | OpQueryBills (options : BillOptions)
  | OpGetProfitAndLossReport (startDate endDate : string).

Inductive Returned : Type :=
  | RToken (token : string)
  | RValue (v : any)
  | RReport (r : ProfitLossReport).

Definition fmap {A B} (f : A -> B) (m : M A) : M B :=
  a <- m ;; ret (f a).

Definition perform (op : Operation) : M Returned :=
  match op with
  | OpGetAccessToken => fmap RToken getAccessToken
  | OpQueryCustomers o => fmap RValue (queryCustomers o)
  | OpGetCustomer id => fmap RValue (getCustomer id)
  | OpQueryInvoices o => fmap RValue (queryInvoices o)
  | OpCreateInvoice d => fmap RValue (createInvoice d)
  | OpQueryAccounts o => fmap RValue (queryAccounts o)
  | OpQueryVendors o => fmap RValue (queryVendors o)
  | OpQueryBills o => fmap RValue (queryBills o)
  | OpGetProfitAndLossReport s e => fmap RReport (getProfitAndLossReport s e)
  end.

End Operations.

End QB.

(** ** Observations on a run, and the statements in the specification's
       own words *)
Module Spec.
Import JS Value QB.

Definition Run (A : Type) : Type := (result A * QuickBooksClient * list Event)%type.

Definition outcome {A} (r : Run A) : result A := fst (fst r).
Definition final {A} (r : Run A) : QuickBooksClient := snd (fst r).
Definition trace {A} (r : Run A) : list Event := snd r.

(** The requests that reached the accounting API. *)
Fixpoint api_calls (tr : list Event) : list ApiRequest :=
  match tr with
  | [] => []
  | ApiCall r :: tr' => r :: api_calls tr'
  | TokenExchange _ :: tr' => api_calls tr'
  end.

(** The query strings that went out: the [query] parameter of every
    request to the API. *)
Definition query_params (r : ApiRequest) : list string :=
  map snd (filter (fun p => String.eqb (fst p) "query") (req_params r)).

Definition issued_sql (tr : list Event) : list string :=
  flat_map query_params (api_calls tr).

(** The invoice objects that were posted. *)
Fixpoint posted_bodies (rs : list ApiRequest) : list InvoiceData :=
  match rs with
  | [] => []
  | r :: rs' =>
      match req_method r, req_body r with
      | POST, Some b => b :: posted_bodies rs'
      | _, _ => posted_bodies rs'
      end
  end.

(** Whether the interceptor obtains a token, from the cache or from the
    token endpoint. *)
Definition authenticates (env : Env) (c : QuickBooksClient) : bool :=
  match outcome (getAccessToken env c) with
  | Ok _ => true
  | Throw _ => false
  end.

(** "issue time + server-declared lifetime minus a fixed safety margin
    (60 seconds)", as a Date: times are in milliseconds. *)
Definition expiry_instant (issue_time : Z) (lifetime : number) : number :=
  TimeClip
    (num_add (num_of_Z issue_time)
       (num_mul (num_sub lifetime (num_of_Z 60)) (num_of_Z 1000))).

(** The client after a successful exchange that answered [resp]. *)
Definition after_refresh (env : Env) (c : QuickBooksClient)
    (resp : TokenResponse) : QuickBooksClient :=
  let c2 :=
    set_tokenExpiry (expiry_instant (clock_issue env) (expires_in resp))
      (set_accessToken (access_token resp) c) in
  match refresh_token resp with
  | Some r => if str_truthy r then set_refreshToken r c2 else c2
  | None => c2
  end.

(** "current time is strictly before the stored expiry". *)
Definition strictly_before (now : Z) (expiry : number) : bool :=
  num_lt (num_of_Z now) expiry.

(** The one request that each public operation awaits: method, path,
    parameters and body.  [getAccessToken] talks to the token endpoint
    instead. *)
Definition RequestSpec : Type :=
  (Method * string * list (string * string) * option InvoiceData)%type.

Definition query_request (entityType : string) (conditions : option string)
    (limit offset : number) : RequestSpec :=
  (GET, "/query",
   [("query", query_sql entityType conditions limit offset)], None).

Definition api_request_of (op : Operation) : option RequestSpec :=
  match op with
  | OpGetAccessToken => None
  | OpQueryCustomers o =>
      Some (query_request "Customer" (where_of (customer_conditions o))
              (opt_num_or (cust_limit o) (num_of_Z 100))
              (opt_num_or (cust_offset o) (num_of_Z 0)))
  | OpGetCustomer id => Some (GET, "/customer/" ++ id, [], None)
  | OpQueryInvoices o =>
      Some (query_request "Invoice" (where_of (invoice_conditions o))
              (opt_num_or (inv_limit o) (num_of_Z 100))
              (opt_num_or (inv_offset o) (num_of_Z 0)))
  | OpCreateInvoice d => Some (POST, "/invoice", [], Some (invoice_data d))
  | OpQueryAccounts o =>
      Some (query_request "Account"
              (Some (String.concat " AND " (account_conditions o)))
              (opt_num_or (acc_limit o) (num_of_Z 1000))
              (opt_num_or (acc_offset o) (num_of_Z 0)))
  | OpQueryVendors o =>
      Some (query_request "Vendor" (where_of (vendor_conditions o))
              (opt_num_or (ven_limit o) (num_of_Z 100))
              (opt_num_or (ven_offset o) (num_of_Z 0)))
  | OpQueryBills o =>
      Some (query_request "Bill" (where_of (bill_conditions o))
              (opt_num_or (bill_limit o) (num_of_Z 100))
              (opt_num_or (bill_offset o) (num_of_Z 0)))
  | OpGetProfitAndLossReport s e =>
      Some (GET, "/reports/ProfitAndLoss",
            [("start_date", s); ("end_date", e)], None)
  end.

(** What an operation makes of the response body. *)
Definition extract_entities (entityType : string) (body : any)
  : result Returned :=
  data <-? member body "QueryResponse" ;;
  found <-? member data entityType ;;
  Ok (RValue (any_or found (JArr []))).

Definition on_response (op : Operation) (body : any) : result Returned :=
  match op with
  | OpGetAccessToken => Throw TypeError
  | OpQueryCustomers _ => extract_entities "Customer" body
  | OpGetCustomer _ =>
      match member body "Customer" with
      | Ok v => Ok (RValue v)
      | Throw _ => Ok (RValue JNull)
      end
  | OpQueryInvoices _ => extract_entities "Invoice" body
  | OpCreateInvoice _ => v <-? member body "Invoice" ;; Ok (RValue v)
  | OpQueryAccounts _ => extract_entities "Account" body
  | OpQueryVendors _ => extract_entities "Vendor" body
  | OpQueryBills _ => extract_entities "Bill" body
  | OpGetProfitAndLossReport _ _ =>
      r <-? parseProfitAndLoss body ;; Ok (RReport r)
  end.

Definition is_getCustomer (op : Operation) : bool :=
  match op with
  | OpGetCustomer _ => true
  | _ => false
  end.

(** "The remote request fails": the request that the operation awaits
    rejects with [e], be it because no token could be obtained or because
    the API refused; for [getAccessToken], the exchange it has to make
    rejects with [e]. *)
Definition request_fails (env : Env) (op : Operation) (c : QuickBooksClient)
    (e : Error) : Prop :=
  match api_request_of op with
  | Some (m, path, params, body) =>
      outcome (api_request env m path params body c) = Throw e
  | None =>
      token_is_fresh c (clock_check env) = false /\
      token_endpoint env (token_request c) = Throw e
  end.

(** The five entity list operations, with what they have in common. *)
Inductive ListOperation : Type :=
  | ListCustomers (o : CustomerOptions)
  | ListInvoices (o : InvoiceOptions)
  | ListAccounts (o : AccountOptions)
  | ListVendors (o : VendorOptions)
  | ListBills (o : BillOptions).

Definition list_operation (op : ListOperation) : Operation :=
  match op with
  | ListCustomers o => OpQueryCustomers o
  | ListInvoices o => OpQueryInvoices o
  | ListAccounts o => OpQueryAccounts o
  | ListVendors o => OpQueryVendors o
  | ListBills o => OpQueryBills o
  end.

Definition entity_of (op : ListOperation) : string :=
  match op with
  | ListCustomers _ => "Customer"
  | ListInvoices _ => "Invoice"
  | ListAccounts _ => "Account"
  | ListVendors _ => "Vendor"
  | ListBills _ => "Bill"
  end.

Definition conditions_of (op : ListOperation) : list string :=
  match op with
  | ListCustomers o => customer_conditions o
  | ListInvoices o => invoice_conditions o
  | ListAccounts o => account_conditions o
  | ListVendors o => vendor_conditions o
  | ListBills o => bill_conditions o
  end.

Definition limit_of (op : ListOperation) : option number :=
  match op with
  | ListCustomers o => cust_limit o
  | ListInvoices o => inv_limit o
  | ListAccounts o => acc_limit o
  | ListVendors o => ven_limit o
  | ListBills o => bill_limit o
  end.

Definition offset_of (op : ListOperation) : option number :=
  match op with
  | ListCustomers o => cust_offset o
  | ListInvoices o => inv_offset o
  | ListAccounts o => acc_offset o
  | ListVendors o => ven_offset o
  | ListBills o => bill_offset o
  end.

(** The limit that applies when the caller gives none. *)
Definition default_limit (op : ListOperation) : number :=
  match op with
  | ListAccounts _ => num_of_Z 1000
  | _ => num_of_Z 100
  end.

(** A condition list whose first element is not the empty string. *)
Definition head_truthy (conditions : list string) : Prop :=
  match conditions with
  | [] => True
  | x :: _ => str_truthy x = true
  end.

(** The limit and the offset that reach [query]. *)
Definition effective_limit (op : ListOperation) : number :=
  opt_num_or (limit_of op) (default_limit op).

Definition effective_offset (op : ListOperation) : number :=
  opt_num_or (offset_of op) (num_of_Z 0).

(** "WHERE and the conditions joined with AND when at least one condition
    exists (and no WHERE clause when none do)". *)
Definition where_clause (conditions : list string) : string :=
  match conditions with
  | [] => ""
  | _ :: _ => " WHERE " ++ String.concat " AND " conditions
  end.

(** "SELECT * FROM <Entity> ... STARTPOSITION <O+1> MAXRESULTS <L>". *)
Definition expected_sql (entityType : string) (conditions : list string)
    (L O : number) : string :=
  "SELECT * FROM " ++ entityType ++ where_clause conditions
    ++ " STARTPOSITION " ++ Number_toString (num_add O (num_of_Z 1))
    ++ " MAXRESULTS " ++ Number_toString L.

(** [s] ends with [suffix]. *)
Definition ends_with (suffix s : string) : bool :=
  (String.length suffix <=? String.length s)%nat
  && String.eqb
       (substring (String.length s - String.length suffix)
          (String.length suffix) s)
       suffix.

(** Invoice predicates, one group per option. *)
Definition customer_ref_predicate (id : option string) : list string :=
  match id with
  | Some i => if String.eqb i "" then [] else ["CustomerRef = '" ++ i ++ "'"]
  | None => []
  end.

Definition status_predicate (status : option InvoiceStatus) : list string :=
  match status with
  | Some inv_open => ["Balance > '0'"]
  | Some inv_paid => ["Balance = '0'"]
  | Some inv_overdue => []
  | Some inv_all => []
  | None => []
  end.

Definition start_date_predicate (startDate : option string) : list string :=
  match startDate with
  | Some d => if String.eqb d "" then [] else ["TxnDate >= '" ++ d ++ "'"]
  | None => []
  end.

Definition end_date_predicate (endDate : option string) : list string :=
  match endDate with
  | Some d => if String.eqb d "" then [] else ["TxnDate <= '" ++ d ++ "'"]
  | None => []
  end.

(** Customer and vendor predicates. *)
Definition active_predicate (activeOnly : option bool) : list string :=
  match activeOnly with
  | Some false => []
  | _ => ["Active = true"]
  end.

Definition search_predicate (search : option string) : list string :=
  match search with
  | Some T => if String.eqb T "" then [] else ["DisplayName LIKE '%" ++ T ++ "%'"]
  | None => []
  end.

(** Examples used below. *)
Definition example_config : QBConfig :=
  {| clientId := "client"; clientSecret := "secret"; refreshToken := "old";
     companyId := "9341"; environment := sandbox |}.

Definition example_client : QuickBooksClient :=
  new_QuickBooksClient example_config.

Definition example_response (a : string) : TokenResponse :=
  {| access_token := a; refresh_token := Some "xyz";
     expires_in := num_of_Z 3600 |}.

(** A world whose token endpoint answers with the token [a] and whose
    API answers [body]. *)
Definition example_env (now : Z) (a : string) (body : result any) : Env :=
  {| clock_check := now;
     token_endpoint := fun _ => Ok (example_response a);
     clock_issue := now;
     api_endpoint := fun _ => body |}.

(** A world in which every request is refused. *)
Definition failing_env (now : Z) : Env :=
  {| clock_check := now;
     token_endpoint := fun _ => Throw (AxiosError "invalid_grant");
     clock_issue := now;
     api_endpoint := fun _ => Throw (AxiosError "Request failed") |}.

(** listInvoices({customerId: "123", status: "open", limit: 10, offset: 0}). *)
Definition example_invoice_options : InvoiceOptions :=
  {| inv_limit := Some (num_of_Z 10); inv_offset := Some (num_of_Z 0);
     inv_customerId := Some "123"; inv_status := Some inv_open;
     inv_startDate := None; inv_endDate := None |}.

Definition no_account_options : AccountOptions :=
  {| acc_accountType := None; acc_limit := None; acc_offset := None |}.

(** A customer query with limit 0 and offset 0. *)
Definition zero_limit_options : CustomerOptions :=
  {| cust_limit := Some (num_of_Z 0); cust_offset := Some (num_of_Z 0);
     cust_activeOnly := None; cust_search := None |}.

Definition quoted_search_options : CustomerOptions :=
  {| cust_limit := None; cust_offset := None;
     cust_activeOnly := None; cust_search := Some "O'Brien" |}.

(** {description: "Cleaning", amount: 150, quantity: q}. *)
Definition example_item (q : option number) : LineItem :=
  {| description := "Cleaning"; amount := num_of_Z 150; quantity := q |}.

Definition example_invoice (q : option number) : InvoiceInput :=
  {| in_customerId := "123"; lineItems := [example_item q];
     dueDate := None; memo := None |}.

(** The same line item without its quantity. *)
Definition without_quantity (item : LineItem) : LineItem :=
  {| description := description item; amount := amount item;
     quantity := None |}.

(** *** The Profit and Loss report, in the specification's words *)

(** "the first row matching by type OR group". *)
Definition row_has (type : string) (r : any) : bool :=
  strict_eq_str (opt_member r "type") type
  || strict_eq_str (opt_member r "group") type.

Definition first_row (type : string) (rows : list any) : option any :=
  find (row_has type) rows.

Definition is_primitive (v : any) : bool :=
  match v with
  | JArr _ | JObj _ => false
  | _ => true
  end.

(** The text of a primitive value. *)
Definition text_of (v : any) : string :=
  match v with
  | JUndefined => "undefined"
  | JNull => "null"
  | JBool b => if b then "true" else "false"
  | JNum x => Number_toString x
  | JStr s => s
  | _ => ""
  end.

(** The total that the client computes from rows of the report's shape:
    the number read in the summary value of the first row with the
    discriminator, 0 when nothing is read. *)
Definition expected_total (rows : list any) (type : string) : number :=
  match first_row type rows with
  | None => zero
  | Some row =>
      let v := summary_value row in
      if truthy v
      then match parseFloat (text_of v) with
           | S754_nan => zero
           | S754_zero _ => zero
           | x => x
           end
      else zero
  end.

(** A row of the report's shape: not [null] or [undefined], its summary
    column value neither an array nor an object. *)
Definition row_shape (r : any) : bool :=
  negb (nullish r) && is_primitive (summary_value r).

Definition summary_row (discriminator : string) (key value : string) : any :=
  JObj [(key, JStr discriminator);
        ("Summary",
         JObj [("ColData",
                JArr [JObj [("value", JStr ("Total " ++ discriminator))];
                      JObj [("value", JStr value)]])])].


(** *** The totals in the words of the report's description

    What follows is written from the description of the totals, not from
    the client's expressions: where a row is looked for, which column is
    read, and how its value becomes a number. *)

(** The discriminators of the report, in the order of the totals. *)
Definition report_sections : list string :=
  ["Income"; "COGS"; "GrossProfit"; "Expenses"; "NetIncome"].






(** A row that is [null] or [undefined] comes before any row carrying the
    discriminator. *)
Fixpoint null_row_first (rows : list any) (type : string) : bool :=
  match rows with
  | [] => false
  | r :: rows' =>
      if nullish r then true
      else if row_has type r then false
      else null_row_first rows' type
  end.



(** A report whose first row is [null]. *)
Definition null_row_report : any :=
  JObj [("Rows",
         JObj [("Row", JArr [JNull; summary_row "Income" "group" "1.00"])])].


(** Worlds for the examples: a first call at [t0], a second one a second
    later, long before a one-hour token expires. *)
Definition t0 : Z := 1700000000000.

Definition world (a : string) : Env := example_env t0 a (Ok JNull).

Definition later_world (a : string) : Env :=
  example_env (t0 + 1000) a (Ok JNull).

End Spec.

From Stdlib Require DecimalFacts DecimalPos DecimalN.

(** ** Sessions: what a client leaves on the wire over several operations *)
Module Session.
Import JS Value QB Spec.

(** The refresh-token grants that were sent. *)
Fixpoint token_requests (tr : list Event) : list TokenRequest :=
  match tr with
  | [] => []
  | TokenExchange r :: tr' => r :: token_requests tr'
  | ApiCall _ :: tr' => token_requests tr'
  end.

(** The host that the constructor picks (lines 29 to 31). *)
Definition host_of (e : Environment) : string :=
  match e with
  | production => "https://quickbooks.api.intuit.com"
  | sandbox => "https://sandbox-quickbooks.api.intuit.com"
  end.

Definition path_of (op : Operation) : string :=
  match api_request_of op with
  | Some (_, path, _, _) => path
  | None => ""
  end.

Definition method_of (op : Operation) : Method :=
  match api_request_of op with
  | Some (m, _, _, _) => m
  | None => GET
  end.

(** Whether a string ends in a slash. *)
Definition ends_in_slash (s : string) : bool :=
  match rev_string_acc s "" with
  | String c _ => Ascii.eqb c "/"
  | EmptyString => false
  end.

(** The client after a series of operations, each run in its own world. *)
Fixpoint after_all (steps : list (Env * Operation)) (c : QuickBooksClient)
  : QuickBooksClient :=
  match steps with
  | [] => c
  | (env, op) :: rest => after_all rest (final (perform env op c))
  end.

(** The request of the operation is answered with [body]. *)
Definition request_answers (env : Env) (op : Operation) (c : QuickBooksClient)
    (body : any) : Prop :=
  match api_request_of op with
  | Some (m, path, params, b) =>
      outcome (api_request env m path params b c) = Ok body
  | None => False
  end.

(** Bill and account predicates, one group per option. *)
Definition vendor_ref_predicate (id : option string) : list string :=
  match id with
  | Some i => if String.eqb i "" then [] else ["VendorRef = '" ++ i ++ "'"]
  | None => []
  end.

Definition bill_status_predicate (status : option BillStatus) : list string :=
  match status with
  | Some bill_unpaid => ["Balance > '0'"]
  | Some bill_paid => ["Balance = '0'"]
  | Some bill_all => []
  | None => []
  end.

Definition account_type_clause (accountType : option string) : string :=
  match accountType with
  | Some T => if String.eqb T "" then "" else " AND AccountType = '" ++ T ++ "'"
  | None => ""
  end.

(** The grant that follows a successful exchange answered with [resp]. *)
Definition next_grant (c : QuickBooksClient) (resp : TokenResponse)
  : TokenRequest :=
  {| token_url := tokenURL;
     basic_user := clientId (config c);
     basic_password := clientSecret (config c);
     grant_type := "refresh_token";
     grant_refresh_token :=
       match refresh_token resp with
       | Some r => if String.eqb r "" then refreshToken (config c) else r
       | None => refreshToken (config c)
       end |}.

(** The decimal digit [r], as a digit of the Standard Library's numerals
    and as a character. *)
Definition digit_of (r : Z) : DecimalFacts.digits :=
  match r with
  | 0 => DecimalFacts.d0
  | 1 => DecimalFacts.d1
  | 2 => DecimalFacts.d2
  | 3 => DecimalFacts.d3
  | 4 => DecimalFacts.d4
  | 5 => DecimalFacts.d5
  | 6 => DecimalFacts.d6
  | 7 => DecimalFacts.d7
  | 8 => DecimalFacts.d8
  | _ => DecimalFacts.d9
  end.

Definition digit_char (r : Z) : ascii := ascii_of_nat (48 + Z.to_nat r).

(** What [parseFloat] does once white space and sign are read. *)
Definition parse_unsigned (neg : bool) (s2 : string) : number :=
  if prefix "Infinity" s2 then S754_infinity neg
  else
    let '(ip, ic, r1) := take_digits s2 0 0 in
    let '(m, fc, r2) :=
      match r1 with
      | String "." r => take_digits r ip 0
      | _ => (ip, 0, r1)
      end in
    if (ic =? 0) && (fc =? 0) then NaN
    else num_of_decimal neg m (exponent_part r2 - fc).

(** The decimal numeral of a whole number. *)
Definition numeral_of (n : Z) : string :=
  if n <? 0 then "-" ++ digits_of_Z (- n) else digits_of_Z n.

(** Two doubles are the same datum. *)
Definition same_number (x y : number) : bool :=
  match x, y with
  | S754_zero a, S754_zero b => Bool.eqb a b
  | S754_infinity a, S754_infinity b => Bool.eqb a b
  | S754_nan, S754_nan => true
  | S754_finite s m e, S754_finite s' m' e' =>
      Bool.eqb s s' && Pos.eqb m m' && Z.eqb e e'
  | _, _ => false
  end.

(** The whole numbers from 0 up to, not including, [n]. *)
Definition whole_numbers_below (n : nat) : list Z := map Z.of_nat (seq 0 n).

(** What a list operation finds in a response body: nothing when the
    body or its QueryResponse is missing, the entities otherwise, the
    empty array when there are none. *)
Definition entities_in (entityType : string) (body : any) : option any :=
  if nullish body || nullish (opt_member body "QueryResponse") then None
  else
    let found := opt_member (opt_member body "QueryResponse") entityType in
    Some (if truthy found then found else JArr []).

(** A value that no string conversion accepts. *)
Definition unprintable (v : any) : bool :=
  match ToString v with
  | Ok _ => false
  | Throw _ => true
  end.

(** The total of [type] cannot be computed from [rows]: they are
    something other than an array, a missing row is met before a row
    with the discriminator, or the value to read has no string form. *)
Definition total_fails (rows : any) (type : string) : bool :=
  match rows with
  | JArr elems =>
      null_row_first elems type
      || match first_row type elems with
         | Some row =>
             truthy (summary_value row) && unprintable (summary_value row)
         | None => false
         end
  | _ => truthy rows
  end.

Definition rows_of (report : any) : any :=
  any_or (opt_member (opt_member report "Rows") "Row") (JArr []).

Definition report_fails (report : any) : bool :=
  nullish report || existsb (total_fails (rows_of report)) report_sections.

(** Examples. *)
Definition example_bill_options : BillOptions :=
  {| bill_limit := None; bill_offset := None;
     bill_vendorId := Some "56"; bill_status := Some bill_unpaid |}.

Definition third_page_of_vendors : VendorOptions :=
  {| ven_limit := Some (num_of_Z 2000); ven_offset := Some (num_of_Z 4000);
     ven_activeOnly := Some false |}.

Definition customer_body : any :=
  JObj [("Customer", JObj [("Id", JStr "42"); ("DisplayName", JStr "Ann")])].

Definition empty_body : any := JObj [("QueryResponse", JObj [])].

Definition answering (now : Z) (body : any) : Env :=
  example_env now "abc" (Ok body).

(** A world whose token endpoint answers without a lifetime. *)
Definition no_lifetime_world (now : Z) : Env :=
  {| clock_check := now;
     token_endpoint := fun _ =>
       Ok {| access_token := "abc"; refresh_token := None;
             expires_in := NaN |};
     clock_issue := now;
     api_endpoint := fun _ => Ok JNull |}.

(** A world whose token endpoint grants tokens of 30 seconds. *)
Definition short_lived_world (now : Z) : Env :=
  {| clock_check := now;
     token_endpoint := fun _ =>
       Ok {| access_token := "abc"; refresh_token := None;
             expires_in := num_of_Z 30 |};
     clock_issue := now;
     api_endpoint := fun _ => Ok JNull |}.

Definition dated_invoice : InvoiceInput :=
  {| in_customerId := "123";
     lineItems := [example_item None; example_item (Some (num_of_Z 2))];
     dueDate := Some "2026-01-31"; memo := Some "" |}.


(** A report whose Income total is the number -2500 and whose Expenses
    total is the string 1200.00. *)
Definition whole_number_report : list any :=
  [JObj [("group", JStr "Income");
         ("Summary",
          JObj [("ColData",
                 JArr [JObj [("value", JStr "Total Income")];
                       JObj [("value", JNum (num_of_Z (-2500)))]])])];
   summary_row "Expenses" "group" "1200.00"].

End Session.

(** ** The tools: input schemas and what the handlers ask of the client

    A schema takes the input as the caller wrote it, every defaulted or
    optional property possibly missing, to the parameters the handler
    receives; [None] stands for a ZodError. *)
Module Tools.
Import JS Value QB Spec.

Inductive ResponseFormat : Type := json | markdown.

(** [Number.isInteger]. *)
Definition Number_isInteger (x : number) : bool :=
  match x with
  | S754_zero _ => true
  | S754_finite _ _ _ => num_eqb (num_trunc x) x
  | _ => false
  end.

(** [z.number()] refuses NaN. *)
Definition z_number (x : number) : bool :=
  match x with
  | S754_nan => false
  | _ => true
  end.

(** [.int()], [.min(lo)] and [.max(hi)]. *)
Definition z_int (x : number) : bool := Number_isInteger x.
Definition z_min (lo : Z) (x : number) : bool := negb (num_lt x (num_of_Z lo)).
Definition z_max (hi : Z) (x : number) : bool := negb (num_lt (num_of_Z hi) x).

(** [.default(d)]: [d] stands in for [undefined] and is checked like an
    input. *)
Definition z_default {A} (d : A) (v : option A) : A :=
  match v with
  | Some a => a
  | None => d
  end.

Definition checked {A} (ok : A -> bool) (a : A) : option A :=
  if ok a then Some a else None.

(** PaginationSchema. *)
Definition limit_schema (v : option number) : option number :=
  checked (fun x => z_number x && z_int x && z_min 1 x && z_max 1000 x)
    (z_default (num_of_Z 100) v).

Definition offset_schema (v : option number) : option number :=
  checked (fun x => z_number x && z_int x && z_min 0 x)
    (z_default (num_of_Z 0) v).

Definition ResponseFormatSchema (v : option ResponseFormat) : ResponseFormat :=
  z_default markdown v.

(** *** qbo_list_customers (tools/customers.ts) *)

Record ListCustomersInput : Type := {
  lci_limit : option number;
  lci_offset : option number;
  lci_response_format : option ResponseFormat;
  lci_active_only : option bool;
  lci_search : option string
}.

Record ListCustomersParams : Type := {
  lc_limit : number;
  lc_offset : number;
  lc_response_format : ResponseFormat;
  lc_active_only : bool;
  lc_search : option string
}.

Definition ListCustomersInputSchema (i : ListCustomersInput)
  : option ListCustomersParams :=
  match limit_schema (lci_limit i), offset_schema (lci_offset i) with
  | Some l, Some o =>
      Some {| lc_limit := l; lc_offset := o;
              lc_response_format :=
                ResponseFormatSchema (lci_response_format i);
              lc_active_only := z_default true (lci_active_only i);
              lc_search := lci_search i |}
  | _, _ => None
  end.

(** The options that the handler passes to [queryCustomers]. *)
Definition listCustomers_options (params : ListCustomersParams)
  : CustomerOptions :=
  {| cust_limit := Some (lc_limit params);
     cust_offset := Some (lc_offset params);
     cust_activeOnly := Some (lc_active_only params);
     cust_search := lc_search params |}.

(** *** qbo_list_invoices and qbo_create_invoice (tools/invoices.ts) *)

Record ListInvoicesInput : Type := {
  lii_limit : option number;
  lii_offset : option number;
  lii_response_format : option ResponseFormat;
  lii_customer_id : option string;
  lii_status : option InvoiceStatus;
  lii_start_date : option string;
  lii_end_date : option string
}.

Record ListInvoicesParams : Type := {
  li_limit : number;
  li_offset : number;
  li_response_format : ResponseFormat;
  li_customer_id : option string;
  li_status : InvoiceStatus;
  li_start_date : option string;
  li_end_date : option string
}.

Definition ListInvoicesInputSchema (i : ListInvoicesInput)
  : option ListInvoicesParams :=
  match limit_schema (lii_limit i), offset_schema (lii_offset i) with
  | Some l, Some o =>
      Some {| li_limit := l; li_offset := o;
              li_response_format :=
                ResponseFormatSchema (lii_response_format i);
              li_customer_id := lii_customer_id i;
              li_status := z_default inv_all (lii_status i);
              li_start_date := lii_start_date i;
              li_end_date := lii_end_date i |}
  | _, _ => None
  end.

Definition listInvoices_options (params : ListInvoicesParams)
  : InvoiceOptions :=
  {| inv_limit := Some (li_limit params);
     inv_offset := Some (li_offset params);
     inv_customerId := li_customer_id params;
     inv_status := Some (li_status params);
     inv_startDate := li_start_date params;
     inv_endDate := li_end_date params |}.

Record LineItemInput : Type := {
  item_description : string;
  item_amount : number;
  item_quantity : option number
}.

Record CreateInvoiceInput : Type := {
  cii_customer_id : string;
  cii_line_items : list LineItemInput;
  cii_due_date : option string;
  cii_memo : option string
}.

Record LineItemParams : Type := {
  lip_description : string;
  lip_amount : number;
  lip_quantity : number
}.

Record CreateInvoiceParams : Type := {
  ci_customer_id : string;
  ci_line_items : list LineItemParams;
  ci_due_date : option string;
  ci_memo : option string
}.

Definition line_item_schema (i : LineItemInput) : option LineItemParams :=
  let q := z_default (num_of_Z 1) (item_quantity i) in
  if z_number (item_amount i) && z_number q
  then Some {| lip_description := item_description i;
               lip_amount := item_amount i;
               lip_quantity := q |}
  else None.

(** [z.array(item)]: every element has to pass. *)
Fixpoint z_array {A B} (item : A -> option B) (l : list A) : option (list B) :=
  match l with
  | [] => Some []
  | x :: l' =>
      match item x, z_array item l' with
      | Some y, Some ys => Some (y :: ys)
      | _, _ => None
      end
  end.

Definition CreateInvoiceInputSchema (i : CreateInvoiceInput)
  : option CreateInvoiceParams :=
  match z_array line_item_schema (cii_line_items i) with
  | Some items =>
      if (1 <=? List.length items)%nat
      then Some {| ci_customer_id := cii_customer_id i;
                   ci_line_items := items;
                   ci_due_date := cii_due_date i;
                   ci_memo := cii_memo i |}
      else None
  | None => None
  end.

(** The object that the handler passes to [createInvoice]; the line
    items go through as the parameters have them. *)
Definition createInvoice_data (params : CreateInvoiceParams) : InvoiceInput :=
  {| in_customerId := ci_customer_id params;
     lineItems :=
       map (fun l => {| description := lip_description l;
                        amount := lip_amount l;
                        quantity := Some (lip_quantity l) |})
         (ci_line_items params);
     dueDate := ci_due_date params;
     memo := ci_memo params |}.

(** *** qbo_list_vendors (tools/vendors.ts) *)

Record ListVendorsInput : Type := {
  lvi_limit : option number;
  lvi_offset : option number;
  lvi_response_format : option ResponseFormat;
  lvi_active_only : option bool
}.

Record ListVendorsParams : Type := {
  lv_limit : number;
  lv_offset : number;
  lv_response_format : ResponseFormat;
  lv_active_only : bool
}.

Definition ListVendorsInputSchema (i : ListVendorsInput)
  : option ListVendorsParams :=
  match limit_schema (lvi_limit i), offset_schema (lvi_offset i) with
  | Some l, Some o =>
      Some {| lv_limit := l; lv_offset := o;
              lv_response_format :=
                ResponseFormatSchema (lvi_response_format i);
              lv_active_only := z_default true (lvi_active_only i) |}
  | _, _ => None
  end.

Definition listVendors_options (params : ListVendorsParams) : VendorOptions :=
  {| ven_limit := Some (lv_limit params);
     ven_offset := Some (lv_offset params);
     ven_activeOnly := Some (lv_active_only params) |}.

(** *** qbo_list_bills (tools/bills.ts) *)

Record ListBillsInput : Type := {
  lbi_limit : option number;
  lbi_offset : option number;
  lbi_response_format : option ResponseFormat;
  lbi_vendor_id : option string;
  lbi_status : option BillStatus
}.

Record ListBillsParams : Type := {
  lb_limit : number;
  lb_offset : number;
  lb_response_format : ResponseFormat;
  lb_vendor_id : option string;
  lb_status : BillStatus
}.

Definition ListBillsInputSchema (i : ListBillsInput)
  : option ListBillsParams :=
  match limit_schema (lbi_limit i), offset_schema (lbi_offset i) with
  | Some l, Some o =>
      Some {| lb_limit := l; lb_offset := o;
              lb_response_format :=
                ResponseFormatSchema (lbi_response_format i);
              lb_vendor_id := lbi_vendor_id i;
              lb_status := z_default bill_all (lbi_status i) |}
  | _, _ => None
  end.

Definition listBills_options (params : ListBillsParams) : BillOptions :=
  {| bill_limit := Some (lb_limit params);
     bill_offset := Some (lb_offset params);
     bill_vendorId := lb_vendor_id params;
     bill_status := Some (lb_status params) |}.

(** *** qbo_list_accounts (tools/accounts.ts) *)

Definition account_types : list string :=
  ["all"; "Bank"; "Accounts Receivable"; "Accounts Payable"; "Income";
   "Expense"].

Record GetAccountsInput : Type := {
  gai_account_type : option string;
  gai_response_format : option ResponseFormat
}.

Record GetAccountsParams : Type := {
  ga_account_type : string;
  ga_response_format : ResponseFormat
}.

(** [z.enum(account_types).default("all")]. *)
Definition GetAccountsInputSchema (i : GetAccountsInput)
  : option GetAccountsParams :=
  let t := z_default "all" (gai_account_type i) in
  if existsb (String.eqb t) account_types
  then Some {| ga_account_type := t;
               ga_response_format :=
                 ResponseFormatSchema (gai_response_format i) |}
  else None.

(** The handler gives no limit and no offset. *)
Definition listAccounts_options (params : GetAccountsParams)
  : AccountOptions :=
  {| acc_accountType :=
       if String.eqb (ga_account_type params) "all" then None
       else Some (ga_account_type params);
     acc_limit := None;
     acc_offset := None |}.

(** The quantity that is billed for a line item of the input. *)
Definition billed_quantity (q : option number) : number :=
  match q with
  | None => num_of_Z 1
  | Some (S754_zero _) => num_of_Z 1
  | Some x => x
  end.

(** *** The paginated tools together *)

Inductive PagedInput : Type :=
  | CustomersInput (i : ListCustomersInput)
  | InvoicesInput (i : ListInvoicesInput)
  | VendorsInput (i : ListVendorsInput)
  | BillsInput (i : ListBillsInput).

Definition input_limit (i : PagedInput) : option number :=
  match i with
  | CustomersInput i => lci_limit i
  | InvoicesInput i => lii_limit i
  | VendorsInput i => lvi_limit i
  | BillsInput i => lbi_limit i
  end.

Definition input_offset (i : PagedInput) : option number :=
  match i with
  | CustomersInput i => lci_offset i
  | InvoicesInput i => lii_offset i
  | VendorsInput i => lvi_offset i
  | BillsInput i => lbi_offset i
  end.

(** The operation that the tool asks of the client, when the schema
    accepts the input. *)
Definition tool_operation (i : PagedInput) : option ListOperation :=
  match i with
  | CustomersInput i =>
      option_map (fun p => ListCustomers (listCustomers_options p))
        (ListCustomersInputSchema i)
  | InvoicesInput i =>
      option_map (fun p => ListInvoices (listInvoices_options p))
        (ListInvoicesInputSchema i)
  | VendorsInput i =>
      option_map (fun p => ListVendors (listVendors_options p))
        (ListVendorsInputSchema i)
  | BillsInput i =>
      option_map (fun p => ListBills (listBills_options p))
        (ListBillsInputSchema i)
  end.

(** The conditions that the input asks for. *)
Definition tool_conditions (i : PagedInput) : list string :=
  match i with
  | CustomersInput i =>
      (active_predicate (lci_active_only i)
       ++ search_predicate (lci_search i))%list
  | InvoicesInput i =>
      (customer_ref_predicate (lii_customer_id i)
       ++ status_predicate (lii_status i)
       ++ start_date_predicate (lii_start_date i)
       ++ end_date_predicate (lii_end_date i))%list
  | VendorsInput i => active_predicate (lvi_active_only i)
  | BillsInput i =>
      (Session.vendor_ref_predicate (lbi_vendor_id i)
       ++ Session.bill_status_predicate (lbi_status i))%list
  end.

Definition tool_entity (i : PagedInput) : string :=
  match i with
  | CustomersInput _ => "Customer"
  | InvoicesInput _ => "Invoice"
  | VendorsInput _ => "Vendor"
  | BillsInput _ => "Bill"
  end.

(** Examples. *)
Definition open_invoices_page_3 : PagedInput :=
  InvoicesInput
    {| lii_limit := Some (num_of_Z 25); lii_offset := Some (num_of_Z 50);
       lii_response_format := None; lii_customer_id := Some "123";
       lii_status := Some inv_open; lii_start_date := None;
       lii_end_date := None |}.

Definition customers_with_limit (l : number) : PagedInput :=
  CustomersInput
    {| lci_limit := Some l; lci_offset := None; lci_response_format := None;
       lci_active_only := None; lci_search := None |}.

Definition two_items : CreateInvoiceInput :=
  {| cii_customer_id := "123";
     cii_line_items :=
       [{| item_description := "Cleaning"; item_amount := num_of_Z 150;
           item_quantity := None |};
        {| item_description := "Windows"; item_amount := num_of_Z 40;
           item_quantity := Some (num_of_Z 0) |}];
     cii_due_date := None; cii_memo := None |}.

End Tools.

Import JS Value QB Spec.

(** ** Integer-valued doubles *)

Lemma iter_pos_iter {A} (f : A -> A) (n : positive) :
  forall x, iter_pos f n x = Pos.iter f x n.
Proof.
  induction n as [n IH|n IH|]; intro x; simpl.
  - rewrite !IH. rewrite <- !Pos.iter_swap. reflexivity.
  - rewrite !IH. reflexivity.
  - reflexivity.
Qed.

Lemma shr_trailing_zeros (n q : positive) :
  iter_pos shr_1 n
    {| shr_m := Zpos (Pos.iter xO q n); shr_r := false; shr_s := false |}
  = {| shr_m := Zpos q; shr_r := false; shr_s := false |}.
Proof.
  rewrite iter_pos_iter. revert q.
  induction n as [|n IH] using Pos.peano_ind; intro q.
  - reflexivity.
  - rewrite Pos.iter_succ_r. rewrite Pos.iter_succ. simpl. apply IH.
Qed.

Lemma digits2_pos_size (p : positive) : digits2_pos p = Pos.size p.
Proof. induction p as [p IH|p IH|]; simpl; rewrite ?IH; reflexivity. Qed.

Lemma digits2_pos_shift (q n : positive) :
  digits2_pos (Pos.iter xO q n) = (digits2_pos q + n)%positive.
Proof.
  induction n as [|n IH] using Pos.peano_ind.
  - simpl. lia.
  - rewrite Pos.iter_succ. simpl. rewrite IH. lia.
Qed.

Lemma Zpos_shift (q n : positive) :
  Zpos (Pos.iter xO q n) = Zpos q * 2 ^ Zpos n.
Proof.
  induction n as [|n IH] using Pos.peano_ind.
  - simpl. lia.
  - rewrite Pos.iter_succ, Pos2Z.inj_succ, Z.pow_succ_r by lia.
    rewrite Pos2Z.inj_xO, IH. lia.
Qed.

Lemma Zpos_shift_pos (q : positive) (n : Z) :
  0 <= n -> Zpos (shift_pos q n) = Zpos q * 2 ^ n.
Proof.
  intro Hn. destruct n as [|p|p]; simpl shift_pos.
  - simpl. lia.
  - apply Zpos_shift.
  - lia.
Qed.

Lemma digits_shift_pos (q : positive) (n : Z) :
  0 <= n -> Zpos (digits2_pos (shift_pos q n)) = Zpos (digits2_pos q) + n.
Proof.
  intro Hn. destruct n as [|p|p]; simpl shift_pos.
  - lia.
  - rewrite digits2_pos_shift. lia.
  - lia.
Qed.

(** A 53-bit mantissa followed by [n] zero bits rounds to itself. *)
Lemma round_scaled (s : bool) (M : positive) (E n : Z) :
  Zpos (digits2_pos M) = 53 ->
  -1074 <= E <= 971 ->
  0 <= n ->
  binary_round_aux prec emax s (Zpos (shift_pos M n)) (E - n) loc_Exact
  = S754_finite s M E.
Proof.
  intros HM HE Hn.
  unfold binary_round_aux, shr_fexp.
  cbn [Zdigits2].
  rewrite (digits_shift_pos M n Hn), HM.
  replace (53 + n + (E - n)) with (53 + E) by lia.
  assert (Hfexp : fexp prec emax (53 + E) = E).
  { unfold fexp, emin, prec, emax. lia. }
  rewrite Hfexp.
  replace (E - (E - n)) with n by lia.
  assert (Hshr : shr (shr_record_of_loc (Zpos (shift_pos M n)) loc_Exact)
                   (E - n) n
                 = ({| shr_m := Zpos M; shr_r := false; shr_s := false |}, E)).
  { destruct n as [|p|p]; simpl.
    - f_equal. lia.
    - rewrite shr_trailing_zeros. f_equal. lia.
    - lia. }
  rewrite Hshr.
  cbn [shr_m loc_of_shr_record round_nearest_even Zdigits2].
  rewrite HM, Hfexp, Z.sub_diag.
  cbn [shr shr_record_of_loc shr_m].
  replace (E <=? emax - prec) with true
    by (symmetry; apply Z.leb_le; unfold emax, prec; lia).
  reflexivity.
Qed.

Lemma shift_pos_inj (q1 q2 : positive) :
  Zpos q1 = Zpos q2 -> q1 = q2.
Proof. intro H. injection H. auto. Qed.

(** An integer followed by [j] zero bits, read at exponent [-j], rounds to
    the double of the integer. *)
Lemma round_integer (s : bool) (P : positive) (j : Z) :
  Zpos (digits2_pos P) <= 53 ->
  0 <= j ->
  binary_round prec emax s (shift_pos P j) (- j) = canonical s P.
Proof.
  intros Hd Hj. unfold binary_round, canonical.
  rewrite (digits_shift_pos P j Hj).
  replace (Zpos (digits2_pos P) + j + - j) with (Zpos (digits2_pos P)) by lia.
  set (d := Zpos (digits2_pos P)) in *.
  assert (Hd1 : 1 <= d) by (unfold d; lia).
  assert (Hfexp : fexp prec emax d = d - 53).
  { unfold fexp, emin, prec, emax. lia. }
  rewrite Hfexp. unfold shl_align.
  assert (HM : Zpos (digits2_pos (shift_pos P (53 - d))) = 53).
  { rewrite digits_shift_pos by lia. fold d. lia. }
  set (M := shift_pos P (53 - d)) in *.
  destruct (d - 53 - - j) as [|p|p] eqn:Hdiff.
  - pose proof (round_scaled s M (d - 53) 0 HM) as H.
    replace (d - 53 - 0) with (- j) in H by lia.
    replace (shift_pos M 0) with (shift_pos P j) in H.
    + apply H; lia.
    + apply shift_pos_inj. unfold M. rewrite !Zpos_shift_pos by lia.
      replace j with (53 - d) by lia. simpl. lia.
  - pose proof (round_scaled s M (d - 53) (Zpos p) HM) as H.
    replace (d - 53 - Zpos p) with (- j) in H by lia.
    replace (shift_pos M (Zpos p)) with (shift_pos P j) in H.
    + apply H; lia.
    + apply shift_pos_inj. unfold M. rewrite !Zpos_shift_pos by lia.
      rewrite <- Z.mul_assoc, <- Z.pow_add_r by lia.
      f_equal. f_equal. lia.
  - pose proof (round_scaled s M (d - 53) 0 HM) as H.
    rewrite Z.sub_0_r in H.
    replace (shift_pos M 0) with (Pos.iter xO (shift_pos P j) p) in H.
    + apply H; lia.
    + apply shift_pos_inj. unfold M.
      rewrite Zpos_shift, !Zpos_shift_pos by lia.
      rewrite <- Z.mul_assoc, <- Z.pow_add_r by lia.
      simpl (2 ^ 0). rewrite Z.mul_1_r.
      f_equal. f_equal. lia.
Qed.

Lemma digits_bounds (P : positive) :
  2 ^ (Zpos (digits2_pos P) - 1) <= Zpos P < 2 ^ Zpos (digits2_pos P).
Proof.
  rewrite digits2_pos_size.
  pose proof (Pos.size_le P) as Hle. pose proof (Pos.size_gt P) as Hgt.
  apply Pos2Z.pos_le_pos in Hle. apply Pos2Z.pos_lt_pos in Hgt.
  rewrite Pos2Z.inj_pow in Hle, Hgt.
  split; [|exact Hgt].
  remember (Zpos (Pos.size P) - 1) as k eqn:Hk.
  assert (Hsucc : Zpos (Pos.size P) = Z.succ k) by lia.
  rewrite Hsucc, Z.pow_succ_r in Hle by lia. lia.
Qed.

Lemma digits_le (P : positive) (n : Z) :
  Zpos P < 2 ^ n -> Zpos (digits2_pos P) <= n.
Proof.
  intro H. pose proof (digits_bounds P) as [Hlo _].
  destruct (Z.le_gt_cases (Zpos (digits2_pos P)) n) as [|Hgt]; [assumption|].
  assert (Hn : 0 <= n).
  { destruct (Z.le_gt_cases 0 n); [assumption|].
    rewrite Z.pow_neg_r in H by lia. lia. }
  assert (2 ^ n <= 2 ^ (Zpos (digits2_pos P) - 1))
    by (apply Z.pow_le_mono_r; lia).
  lia.
Qed.

Lemma digits_mono (P Q : positive) :
  Zpos P <= Zpos Q -> Zpos (digits2_pos P) <= Zpos (digits2_pos Q).
Proof.
  intro H. apply digits_le.
  pose proof (digits_bounds Q) as [_ Hhi]. lia.
Qed.

Lemma num_of_Z_pos (P : positive) :
  Zpos P < 2 ^ 53 -> num_of_Z (Zpos P) = canonical false P.
Proof.
  intro H. unfold num_of_Z, binary_normalize.
  apply (round_integer false P 0); [apply digits_le, H|lia].
Qed.

Lemma shl_align_value (P : positive) (ez : Z) :
  Zpos (digits2_pos P) <= 53 ->
  ez <= Zpos (digits2_pos P) - 53 ->
  Zpos (fst (shl_align (shift_pos P (53 - Zpos (digits2_pos P)))
               (Zpos (digits2_pos P) - 53) ez))
  = Zpos P * 2 ^ (- ez).
Proof.
  intros Hd Hez. unfold shl_align.
  set (d := Zpos (digits2_pos P)) in *.
  destruct (ez - (d - 53)) as [|p|p] eqn:Hdiff; cbn [fst].
  - rewrite Zpos_shift_pos by lia. f_equal. f_equal. lia.
  - lia.
  - rewrite Zpos_shift, Zpos_shift_pos by lia.
    rewrite <- Z.mul_assoc, <- Z.pow_add_r by lia. f_equal. f_equal. lia.
Qed.

Lemma binary_normalize_integer (R : positive) (ez : Z) :
  Zpos R < 2 ^ 53 -> ez <= 0 ->
  binary_normalize prec emax (Zpos R * 2 ^ (- ez)) ez false
  = num_of_Z (Zpos R).
Proof.
  intros HR Hez. rewrite (num_of_Z_pos R HR).
  rewrite <- (Zpos_shift_pos R (- ez)) by lia.
  unfold binary_normalize.
  replace ez with (- - ez) at 2 by lia.
  apply round_integer; [apply digits_le, HR|lia].
Qed.

(** Sums, differences and products of non-negative integers are exact as
    long as they stay below 2^53. *)
Lemma num_add_int (a b : Z) :
  0 <= a -> 0 <= b -> a + b < 2 ^ 53 ->
  num_add (num_of_Z a) (num_of_Z b) = num_of_Z (a + b).
Proof.
  intros Ha Hb Hab.
  destruct a as [|P|P]; [|destruct b as [|Q|Q]|lia]; [| | |lia].
  { destruct b as [|Q|Q]; [reflexivity| |lia].
    rewrite Z.add_0_l, (num_of_Z_pos Q) by lia. reflexivity. }
  { rewrite Z.add_0_r, (num_of_Z_pos P) by lia. reflexivity. }
  rewrite (num_of_Z_pos P), (num_of_Z_pos Q) by lia.
  unfold canonical, num_add, SFadd.
  set (ez := Z.min (Zpos (digits2_pos P) - 53) (Zpos (digits2_pos Q) - 53)).
  assert (HdP : Zpos (digits2_pos P) <= 53) by (apply digits_le; lia).
  assert (HdQ : Zpos (digits2_pos Q) <= 53) by (apply digits_le; lia).
  rewrite !shl_align_value by (unfold ez; lia).
  unfold cond_Zopp.
  replace (Zpos P * 2 ^ (- ez) + Zpos Q * 2 ^ (- ez))
    with (Zpos (P + Q) * 2 ^ (- ez)) by (rewrite Pos2Z.inj_add; ring).
  apply binary_normalize_integer; [exact Hab|unfold ez; lia].
Qed.

Lemma num_sub_int (a b : Z) :
  0 <= b -> b <= a -> a < 2 ^ 53 ->
  num_sub (num_of_Z a) (num_of_Z b) = num_of_Z (a - b).
Proof.
  intros Hb Hba Ha.
  destruct a as [|P|P]; [|destruct b as [|Q|Q]|lia]; [| | |lia].
  { destruct b as [|Q|Q]; [reflexivity|lia|lia]. }
  { rewrite Z.sub_0_r, (num_of_Z_pos P) by lia. reflexivity. }
  rewrite (num_of_Z_pos P), (num_of_Z_pos Q) by lia.
  unfold canonical, num_sub, SFsub.
  set (ez := Z.min (Zpos (digits2_pos P) - 53) (Zpos (digits2_pos Q) - 53)).
  assert (HdP : Zpos (digits2_pos P) <= 53) by (apply digits_le; lia).
  assert (HdQ : Zpos (digits2_pos Q) <= 53) by (apply digits_le; lia).
  rewrite !shl_align_value by (unfold ez; lia).
  unfold cond_Zopp.
  replace (Zpos P * 2 ^ (- ez) - Zpos Q * 2 ^ (- ez))
    with ((Zpos P - Zpos Q) * 2 ^ (- ez)) by ring.
  destruct (Zpos P - Zpos Q) as [|R|R] eqn:HR.
  - reflexivity.
  - apply binary_normalize_integer; [lia|unfold ez; lia].
  - lia.
Qed.

Lemma num_mul_int (a b : Z) :
  0 <= a < 2 ^ 53 -> 0 <= b < 2 ^ 53 -> a * b < 2 ^ 53 ->
  num_mul (num_of_Z a) (num_of_Z b) = num_of_Z (a * b).
Proof.
  intros Ha Hb Hab.
  destruct a as [|P|P]; [|destruct b as [|Q|Q]|lia]; [| | |lia].
  { destruct b as [|Q|Q]; [reflexivity| |lia].
    rewrite Z.mul_0_l, (num_of_Z_pos Q) by lia. reflexivity. }
  { rewrite Z.mul_0_r, (num_of_Z_pos P) by lia. reflexivity. }
  assert (HP : Zpos P < 2 ^ 53) by lia.
  assert (HQ : Zpos Q < 2 ^ 53) by lia.
  rewrite (num_of_Z_pos P HP), (num_of_Z_pos Q HQ).
  change (Zpos P * Zpos Q) with (Zpos (P * Q)) in *.
  rewrite (num_of_Z_pos (P * Q) Hab).
  unfold canonical, num_mul, SFmul. cbn [xorb].
  set (dP := Zpos (digits2_pos P)). set (dQ := Zpos (digits2_pos Q)).
  set (dR := Zpos (digits2_pos (P * Q))).
  assert (HdP : dP <= 53) by (apply digits_le, HP).
  assert (HdQ : dQ <= 53) by (apply digits_le, HQ).
  assert (HdR : dR <= 53) by (apply digits_le, Hab).
  assert (HdPR : dP <= dR) by (apply digits_mono; nia).
  assert (HdP1 : 1 <= dP) by (unfold dP; lia).
  assert (HdQ1 : 1 <= dQ) by (unfold dQ; lia).
  pose proof (round_scaled false (shift_pos (P * Q) (53 - dR)) (dR - 53)
                (53 - dP + (53 - dQ) - (53 - dR))) as H.
  replace (dR - 53 - (53 - dP + (53 - dQ) - (53 - dR)))
    with (dP - 53 + (dQ - 53)) in H by lia.
  replace (shift_pos (shift_pos (P * Q) (53 - dR))
             (53 - dP + (53 - dQ) - (53 - dR)))
    with (shift_pos P (53 - dP) * shift_pos Q (53 - dQ))%positive in H.
  - apply H; [|lia|lia].
    rewrite digits_shift_pos by lia. fold dR. lia.
  - apply shift_pos_inj.
    rewrite Pos2Z.inj_mul, !Zpos_shift_pos, Pos2Z.inj_mul by lia.
    replace (53 - dP + (53 - dQ) - (53 - dR))
      with ((53 - dP) + (53 - dQ) - (53 - dR)) by lia.
    rewrite <- (Z.mul_assoc _ (2 ^ (53 - dR))), <- Z.pow_add_r by lia.
    replace (53 - dR + (53 - dP + (53 - dQ) - (53 - dR)))
      with ((53 - dP) + (53 - dQ)) by lia.
    rewrite Z.pow_add_r by lia. ring.
Qed.

(** Non-negative integers below 2^53 compare as their doubles do. *)
Lemma num_lt_int (a b : Z) :
  0 <= a < 2 ^ 53 -> 0 <= b < 2 ^ 53 ->
  num_lt (num_of_Z a) (num_of_Z b) = (a <? b).
Proof.
  intros Ha Hb.
  destruct a as [|P|P]; [|destruct b as [|Q|Q]|lia]; [| | |lia].
  { destruct b as [|Q|Q]; [reflexivity| |lia].
    rewrite (num_of_Z_pos Q) by lia. reflexivity. }
  { rewrite (num_of_Z_pos P) by lia. reflexivity. }
  rewrite (num_of_Z_pos P), (num_of_Z_pos Q) by lia.
  unfold canonical, num_lt, SFltb, SFcompare.
  pose proof (digits_bounds P) as [HPlo HPhi].
  pose proof (digits_bounds Q) as [HQlo HQhi].
  set (dP := Zpos (digits2_pos P)) in *.
  set (dQ := Zpos (digits2_pos Q)) in *.
  assert (HdP : dP <= 53) by (apply digits_le; lia).
  assert (HdQ : dQ <= 53) by (apply digits_le; lia).
  destruct (Z.compare_spec (dP - 53) (dQ - 53)) as [Heq|Hlt|Hgt].
  - assert (HdPQ : dP = dQ) by lia. rewrite HdPQ.
    change (Pos.compare_cont Eq (shift_pos P (53 - dQ))
              (shift_pos Q (53 - dQ)))
      with (Z.compare (Zpos (shift_pos P (53 - dQ)))
              (Zpos (shift_pos Q (53 - dQ)))).
    rewrite !Zpos_shift_pos by lia.
    assert (Hpow : 0 < 2 ^ (53 - dQ)) by (apply Z.pow_pos_nonneg; lia).
    destruct (Z.ltb_spec (Zpos P) (Zpos Q)) as [Hl|Hl].
    + assert (Hc : Zpos P * 2 ^ (53 - dQ) < Zpos Q * 2 ^ (53 - dQ))
        by (apply Z.mul_lt_mono_pos_r; assumption).
      apply Z.compare_lt_iff in Hc. rewrite Hc. reflexivity.
    + assert (Hc : Zpos Q * 2 ^ (53 - dQ) <= Zpos P * 2 ^ (53 - dQ))
        by (apply Z.mul_le_mono_nonneg_r; lia).
      destruct (Z.compare_spec (Zpos P * 2 ^ (53 - dQ))
                  (Zpos Q * 2 ^ (53 - dQ))); [reflexivity|lia|reflexivity].
  - assert (Hpow : 2 ^ dP <= 2 ^ (dQ - 1))
      by (apply Z.pow_le_mono_r; lia).
    symmetry. apply Z.ltb_lt. lia.
  - assert (Hpow : 2 ^ dQ <= 2 ^ (dP - 1))
      by (apply Z.pow_le_mono_r; lia).
    symmetry. apply Z.ltb_ge. lia.
Qed.

(** A time value in the range of Date is a Date's time value. *)
Lemma TimeClip_int (v : Z) :
  0 <= v <= 8640000000000000 -> TimeClip (num_of_Z v) = num_of_Z v.
Proof.
  intro Hv.
  assert (H53 : 2 ^ 53 = 9007199254740992) by reflexivity.
  destruct v as [|P|P]; [reflexivity| |lia].
  pose proof (num_lt_int 8640000000000000 (Zpos P)) as Hlt.
  rewrite (num_of_Z_pos P) in * by lia.
  unfold TimeClip, canonical in *. cbn [SFabs].
  rewrite Hlt by lia.
  replace (8640000000000000 <? Zpos P) with false
    by (symmetry; apply Z.ltb_ge; lia).
  unfold num_trunc.
  set (d := Zpos (digits2_pos P)) in *.
  assert (Hd : d <= 53) by (apply digits_le; lia).
  destruct (Z.leb_spec 0 (d - 53)) as [H0|H0]; [reflexivity|].
  rewrite Z.shiftr_div_pow2, Zpos_shift_pos by lia.
  replace (- (d - 53)) with (53 - d) by lia.
  rewrite Z.div_mul by (apply Z.pow_nonzero; lia).
  cbn [Z.eqb]. fold (num_of_Z (Zpos P)).
  rewrite (num_of_Z_pos P) by lia. reflexivity.
Qed.

(** Multiplying a double by 1 gives it back. *)
Lemma num_mul_one (x : number) :
  valid_binary prec emax x = true -> num_mul x (num_of_Z 1) = x.
Proof.
  intro Hv.
  change (num_of_Z 1) with (S754_finite false 4503599627370496 (-52)).
  destruct x as [s|s| |s m e].
  - destruct s; reflexivity.
  - destruct s; reflexivity.
  - reflexivity.
  - unfold valid_binary, bounded, canonical_mantissa in Hv.
    apply andb_true_iff in Hv. destruct Hv as [Hcan Hmax].
    apply Z.eqb_eq in Hcan. 
    unfold num_mul, SFmul.
    rewrite (Pos.mul_comm m).
    unfold binary_round_aux, shr_fexp.
    cbn [Pos.mul Zdigits2 digits2_pos].
    match goal with
    | |- context [fexp prec emax ?a - (e + -52)] =>
        replace a with (Z.pos (digits2_pos m) + e) by lia
    end.
    rewrite Hcan.
    replace (e - (e + -52)) with 52 by lia.
    cbn [shr shr_record_of_loc iter_pos shr_1 shr_m shr_r shr_s orb
         loc_of_shr_record round_nearest_even Zdigits2].
    replace (e + -52 + 52) with e by lia.
    rewrite Hcan, Z.sub_diag.
    cbn [shr shr_m]. rewrite Hmax, xorb_false_r. reflexivity.
Qed.

Lemma expiry_instant_int (issue seconds : Z) :
  0 <= issue -> 60 <= seconds ->
  issue + (seconds - 60) * 1000 <= 8640000000000000 ->
  expiry_instant issue (num_of_Z seconds)
  = num_of_Z (issue + (seconds - 60) * 1000).
Proof.
  intros Hissue Hsec Hrange.
  assert (H53 : 2 ^ 53 = 9007199254740992) by reflexivity.
  unfold expiry_instant.
  rewrite num_sub_int by lia.
  rewrite num_mul_int by lia.
  rewrite num_add_int by lia.
  apply TimeClip_int. lia.
Qed.

Lemma strictly_before_int (now expiry : Z) :
  0 <= now < 2 ^ 53 -> 0 <= expiry < 2 ^ 53 ->
  strictly_before now (num_of_Z expiry) = (now <? expiry).
Proof. intros Hn He. apply num_lt_int; assumption. Qed.

(** ** getAccessToken *)

(** The three ways [getAccessToken] can go. *)
Lemma getAccessToken_cases (env : Env) (c : QuickBooksClient) :
  getAccessToken env c =
  if token_is_fresh c (clock_check env) then (Ok (accessToken c), c, [])
  else
    match token_endpoint env (token_request c) with
    | Throw e => (Throw e, c, [TokenExchange (token_request c)])
    | Ok resp =>
        (Ok (access_token resp), after_refresh env c resp,
         [TokenExchange (token_request c)])
    end.
Proof.
  unfold getAccessToken, after_refresh, bind, this, ret, emit, lift, assign.
  destruct (token_is_fresh c (clock_check env)); [reflexivity|].
  destruct (token_endpoint env (token_request c)) as [resp|e]; [|reflexivity].
  destruct (refresh_token resp) as [r|]; simpl; [|reflexivity].
  destruct (str_truthy r); reflexivity.
Qed.

Lemma str_truthy_iff (s : string) : str_truthy s = true <-> s <> "".
Proof.
  destruct s; simpl; split; intro H; congruence.
Qed.

Lemma after_refresh_accessToken env c resp :
  accessToken (after_refresh env c resp) = access_token resp.
Proof.
  unfold after_refresh.
  destruct (refresh_token resp) as [r|]; [destruct (str_truthy r)|];
    reflexivity.
Qed.

Lemma after_refresh_tokenExpiry env c resp :
  tokenExpiry (after_refresh env c resp)
  = expiry_instant (clock_issue env) (expires_in resp).
Proof.
  unfold after_refresh.
  destruct (refresh_token resp) as [r|]; [destruct (str_truthy r)|];
    reflexivity.
Qed.

(** The configuration after a refresh: only [refreshToken] may differ, and
    only by a non-empty token of the response. *)
Lemma after_refresh_config env c resp :
  clientId (config (after_refresh env c resp)) = clientId (config c) /\
  clientSecret (config (after_refresh env c resp)) = clientSecret (config c) /\
  companyId (config (after_refresh env c resp)) = companyId (config c) /\
  environment (config (after_refresh env c resp)) = environment (config c) /\
  refreshToken (config (after_refresh env c resp))
  = match refresh_token resp with
    | Some r => if str_truthy r then r else refreshToken (config c)
    | None => refreshToken (config c)
    end.
Proof.
  unfold after_refresh.
  destruct (refresh_token resp) as [r|]; [destruct (str_truthy r)|];
    simpl; repeat split.
Qed.

(** C1, as amended.  When the cached token is not fresh and the exchange
    answers with access token [a], refresh token [r] and lifetime [e],
    [getAccessToken] performs exactly that one exchange, stores and returns
    [a], stores the expiry [issue time + (e - 60) s], and stores [r] when
    it is present and non-empty.  The expiry is the Date of
    [Date.now() + (e - 60) * 1000]; for a whole number of seconds
    [e >= 60] and an instant within the range of Date it is exactly
    [issue time + (e - 60) * 1000] milliseconds.  When [a] is non-empty,
    every later call made strictly before the stored expiry returns [a]
    from the cache, leaves the client as it is and performs no
    exchange. *)
Theorem getAccessToken_refresh_then_cached :
  forall (env : Env) (c : QuickBooksClient) (resp : TokenResponse),
    token_is_fresh c (clock_check env) = false ->
    token_endpoint env (token_request c) = Ok resp ->
    outcome (getAccessToken env c) = Ok (access_token resp) /\
    trace (getAccessToken env c) = [TokenExchange (token_request c)] /\
    accessToken (final (getAccessToken env c)) = access_token resp /\
    tokenExpiry (final (getAccessToken env c))
      = expiry_instant (clock_issue env) (expires_in resp) /\
    (forall seconds : Z,
       expires_in resp = num_of_Z seconds ->
       60 <= seconds ->
       0 <= clock_issue env ->
       clock_issue env + (seconds - 60) * 1000 <= 8640000000000000 ->
       tokenExpiry (final (getAccessToken env c))
       = num_of_Z (clock_issue env + (seconds - 60) * 1000)) /\
    (forall r, refresh_token resp = Some r -> r <> "" ->
       refreshToken (config (final (getAccessToken env c))) = r) /\
    (access_token resp <> "" ->
     forall env2 : Env,
       strictly_before (clock_check env2)
         (tokenExpiry (final (getAccessToken env c))) = true ->
       getAccessToken env2 (final (getAccessToken env c))
       = (Ok (access_token resp), final (getAccessToken env c), [])).
Proof.
  intros env c resp Hstale Hresp.
  rewrite (getAccessToken_cases env c), Hstale, Hresp.
  unfold outcome, final, trace; simpl.
  split; [reflexivity|]. split; [reflexivity|].
  split; [apply after_refresh_accessToken|].
  split; [apply after_refresh_tokenExpiry|].
  split.
  { intros seconds He Hsec Hissue Hrange.
    rewrite after_refresh_tokenExpiry, He.
    apply expiry_instant_int; assumption. }
  split.
  - intros r Hr Hne.
    destruct (after_refresh_config env c resp) as (_ & _ & _ & _ & ->).
    rewrite Hr. apply str_truthy_iff in Hne. rewrite Hne. reflexivity.
  - intros Hne env2 Hbefore.
    rewrite getAccessToken_cases.
    unfold token_is_fresh, strictly_before in *.
    rewrite after_refresh_accessToken, Hbefore.
    apply str_truthy_iff in Hne. rewrite Hne. reflexivity.
Qed.

(** ** The request behind every operation *)

(** Closes a goal about a run once every step has been decided. *)
Ltac run_done := simpl; rewrite ?app_nil_r; reflexivity.

Lemma getAccessToken_api_baseURL env c :
  api_baseURL (final (getAccessToken env c)) = api_baseURL c.
Proof.
  rewrite getAccessToken_cases.
  destruct (token_is_fresh c (clock_check env)); [reflexivity|].
  destruct (token_endpoint env (token_request c)) as [resp|e]; [|reflexivity].
  unfold final, after_refresh; simpl.
  destruct (refresh_token resp) as [r|]; [destruct (str_truthy r)|];
    reflexivity.
Qed.

Lemma getAccessToken_api_calls env c :
  api_calls (trace (getAccessToken env c)) = [].
Proof.
  rewrite getAccessToken_cases.
  destruct (token_is_fresh c (clock_check env)); [reflexivity|].
  destruct (token_endpoint env (token_request c)); reflexivity.
Qed.

(** The interceptor first, the request after it. *)
Lemma api_request_cases env m path params body c :
  api_request env m path params body c =
  match getAccessToken env c with
  | (Ok token, c1, t1) =>
      (api_endpoint env
         (Build_ApiRequest m (buildFullPath (api_baseURL c1) path) params
            body ("Bearer " ++ token)),
       c1,
       (t1 ++ [ApiCall (Build_ApiRequest m
                          (buildFullPath (api_baseURL c1) path) params
                          body ("Bearer " ++ token))])%list)
  | (Throw e, c1, t1) => (Throw e, c1, t1)
  end.
Proof.
  unfold api_request, bind, this, emit, lift.
  destruct (getAccessToken env c) as [[[token|e] c1] t1]; reflexivity.
Qed.

(** Every operation but [getAccessToken] is its one request followed by a
    computation on the response body that touches neither the client nor
    the network; only [getCustomer] turns a rejection into a value. *)
Lemma perform_cases env op c :
  perform env op c =
  match api_request_of op with
  | Some (m, path, params, body) =>
      match api_request env m path params body c with
      | (Ok d, c1, t1) => (on_response op d, c1, t1)
      | (Throw e, c1, t1) =>
          (if is_getCustomer op then Ok (RValue JNull) else Throw e, c1, t1)
      end
  | None =>
      match getAccessToken env c with
      | (Ok token, c1, t1) => (Ok (RToken token), c1, t1)
      | (Throw e, c1, t1) => (Throw e, c1, t1)
      end
  end.
Proof.
  destruct op; simpl;
    unfold fmap, queryCustomers, getCustomer, queryInvoices, createInvoice,
      queryAccounts, queryVendors, queryBills, getProfitAndLossReport,
      query, query_request, api_get, api_post, extract_entities,
      try_catch, bind, lift, ret.
  - destruct (getAccessToken env c) as [[[token|e] c1] t1]; run_done.
  - destruct (api_request env GET "/query" _ None c) as [[[d|e] c1] t1];
      [|run_done].
    destruct (member d "QueryResponse") as [data|e]; simpl; [|run_done].
    destruct (member data "Customer"); run_done.
  - destruct (api_request env GET _ [] None c) as [[[d|e] c1] t1];
      [|run_done].
    destruct (member d "Customer"); run_done.
  - destruct (api_request env GET "/query" _ None c) as [[[d|e] c1] t1];
      [|run_done].
    destruct (member d "QueryResponse") as [data|e]; simpl; [|run_done].
    destruct (member data "Invoice"); run_done.
  - destruct (api_request env POST "/invoice" [] _ c) as [[[d|e] c1] t1];
      [|run_done].
    destruct (member d "Invoice"); run_done.
  - destruct (api_request env GET "/query" _ None c) as [[[d|e] c1] t1];
      [|run_done].
    destruct (member d "QueryResponse") as [data|e]; simpl; [|run_done].
    destruct (member data "Account"); run_done.
  - destruct (api_request env GET "/query" _ None c) as [[[d|e] c1] t1];
      [|run_done].
    destruct (member d "QueryResponse") as [data|e]; simpl; [|run_done].
    destruct (member data "Vendor"); run_done.
  - destruct (api_request env GET "/query" _ None c) as [[[d|e] c1] t1];
      [|run_done].
    destruct (member d "QueryResponse") as [data|e]; simpl; [|run_done].
    destruct (member data "Bill"); run_done.
  - destruct (api_request env GET "/reports/ProfitAndLoss" _ None c)
      as [[[d|e] c1] t1]; [|run_done].
    destruct (parseProfitAndLoss d); run_done.
Qed.

(** An operation leaves the client as its token acquisition left it. *)
Lemma perform_final env op c :
  final (perform env op c) = final (getAccessToken env c).
Proof.
  rewrite perform_cases.
  destruct (api_request_of op) as [[[[m path] params] body]|].
  - rewrite api_request_cases.
    destruct (getAccessToken env c) as [[[token|e] c1] t1]; [|reflexivity].
    destruct (api_endpoint env _); reflexivity.
  - destruct (getAccessToken env c) as [[[token|e] c1] t1]; reflexivity.
Qed.

(** No operation sends more than its one request, and it sends it exactly
    when a token could be obtained. *)
Lemma perform_api_calls env op c :
  api_calls (trace (perform env op c)) =
  match api_request_of op with
  | Some (m, path, params, body) =>
      match outcome (getAccessToken env c) with
      | Ok token =>
          [Build_ApiRequest m (buildFullPath (api_baseURL c) path) params body
             ("Bearer " ++ token)]
      | Throw _ => []
      end
  | None => []
  end.
Proof.
  rewrite perform_cases.
  destruct (api_request_of op) as [[[[m path] params] body]|].
  - rewrite api_request_cases.
    pose proof (getAccessToken_api_calls env c) as Hcalls.
    pose proof (getAccessToken_api_baseURL env c) as Hurl.
    destruct (getAccessToken env c) as [[[token|e] c1] t1];
      unfold trace, final, outcome in *; simpl in *.
    + assert (Hsplit : forall r,
                api_calls (t1 ++ [ApiCall r]) = (api_calls t1 ++ [r])%list).
      { intro r. clear. induction t1 as [|[q|q] t IH]; simpl;
          rewrite ?IH; reflexivity. }
      destruct (api_endpoint env _); simpl;
        rewrite Hsplit, Hcalls, Hurl; reflexivity.
    + exact Hcalls.
  - pose proof (getAccessToken_api_calls env c) as Hcalls.
    destruct (getAccessToken env c) as [[[token|e] c1] t1]; exact Hcalls.
Qed.

(** ** Error handling *)

(** C8.  [getCustomer] never throws, and returns [null] whenever its
    request fails, whatever the cause (no token, refusal by the API);
    every other operation of the client throws the very error with which
    its request failed. *)
Theorem getCustomer_swallows_others_propagate :
  (forall env id c, exists v, outcome (getCustomer env id c) = Ok v) /\
  (forall env id c e,
     request_fails env (OpGetCustomer id) c e ->
     outcome (getCustomer env id c) = Ok JNull) /\
  (forall env op c e,
     is_getCustomer op = false ->
     request_fails env op c e ->
     outcome (perform env op c) = Throw e).
Proof.
  split; [|split].
  - intros env id c. unfold getCustomer, try_catch, outcome.
    destruct (bind _ _ c) as [[[v|e] c1] t1]; simpl; eauto.
  - intros env id c e Hfail.
    unfold request_fails in Hfail; simpl in Hfail.
    unfold getCustomer, try_catch, api_get, bind, outcome in *.
    destruct (api_request env GET _ [] None c) as [[[d|e'] c1] t1];
      simpl in *; [discriminate|reflexivity].
  - intros env op c e Hop Hfail.
    rewrite perform_cases. unfold request_fails in Hfail.
    destruct (api_request_of op) as [[[[m path] params] body]|].
    + unfold outcome in *.
      destruct (api_request env m path params body c) as [[[d|e'] c1] t1];
        simpl in *; [discriminate|].
      rewrite Hop. congruence.
    + destruct Hfail as [Hstale He].
      rewrite getAccessToken_cases, Hstale, He. reflexivity.
Qed.

(** ** The stored configuration *)

(** C9.  The constructor stores the configuration as given, and whatever
    operation runs in whatever world, [clientId], [clientSecret],
    [companyId] and [environment] keep their values; [refreshToken] either
    keeps its value too, or the cached token was not fresh, the exchange
    succeeded, its response carried a non-empty refresh token, and that
    token is the new value. *)
Theorem configuration_frame :
  (forall cfg, config (new_QuickBooksClient cfg) = cfg) /\
  (forall env op c,
     clientId (config (final (perform env op c))) = clientId (config c) /\
     clientSecret (config (final (perform env op c)))
       = clientSecret (config c) /\
     companyId (config (final (perform env op c))) = companyId (config c) /\
     environment (config (final (perform env op c)))
       = environment (config c) /\
     (refreshToken (config (final (perform env op c)))
        = refreshToken (config c) \/
      exists resp r,
        token_is_fresh c (clock_check env) = false /\
        token_endpoint env (token_request c) = Ok resp /\
        refresh_token resp = Some r /\ r <> "" /\
        refreshToken (config (final (perform env op c))) = r)).
Proof.
  split; [reflexivity|].
  intros env op c. rewrite perform_final, getAccessToken_cases.
  destruct (token_is_fresh c (clock_check env)) eqn:Hfresh;
    [unfold final; simpl; auto 6|].
  destruct (token_endpoint env (token_request c)) as [resp|e] eqn:Hresp;
    [|unfold final; simpl; auto 6].
  unfold final; simpl.
  destruct (after_refresh_config env c resp) as (H1 & H2 & H3 & H4 & H5).
  repeat (split; [assumption|]).
  rewrite H5.
  destruct (refresh_token resp) as [r|] eqn:Hr; [|left; reflexivity].
  destruct (str_truthy r) eqn:Ht; [|left; reflexivity].
  right. exists resp, r.
  repeat split; try assumption. apply str_truthy_iff, Ht.
Qed.

(** ** Query construction *)

Lemma string_app_assoc (a b c : string) : (a ++ b) ++ c = a ++ (b ++ c).
Proof.
  induction a as [|ch a IH]; simpl; [reflexivity|]. rewrite IH. reflexivity.
Qed.

Lemma str_truthy_app (a b : string) :
  str_truthy a = true -> str_truthy (a ++ b) = true.
Proof. destruct a; simpl; congruence. Qed.

Lemma eqb_empty_truthy (s : string) : String.eqb s "" = negb (str_truthy s).
Proof. destruct s; reflexivity. Qed.

Lemma concat_truthy (conditions : list string) :
  conditions <> [] -> head_truthy conditions ->
  str_truthy (String.concat " AND " conditions) = true.
Proof.
  destruct conditions as [|x [|y l]]; simpl; intros Hne Hx.
  - congruence.
  - exact Hx.
  - apply str_truthy_app, Hx.
Qed.

Lemma conditions_head_truthy (op : ListOperation) :
  head_truthy (conditions_of op).
Proof.
  destruct op as [o|o|o|o|o]; destruct o; simpl.
  - destruct cust_activeOnly0 as [[|]|], cust_search0 as [[|a s]|];
      simpl; exact I || reflexivity.
  - destruct inv_customerId0 as [[|a s]|], inv_status0 as [[| | |]|],
      inv_startDate0 as [[|a1 s1]|], inv_endDate0 as [[|a2 s2]|];
      simpl; exact I || reflexivity.
  - destruct acc_accountType0 as [[|a s]|]; reflexivity.
  - destruct ven_activeOnly0 as [[|]|]; simpl; exact I || reflexivity.
  - destruct bill_vendorId0 as [[|a s]|], bill_status0 as [[| |]|];
      simpl; exact I || reflexivity.
Qed.

(** What [query] writes is what the specification describes, as soon as
    the joined conditions are not the empty string. *)
Lemma query_sql_expected entityType conditions L O :
  head_truthy conditions ->
  query_sql entityType (where_of conditions) L O
  = expected_sql entityType conditions L O.
Proof.
  intro Hhead. unfold query_sql, expected_sql, where_of, where_clause.
  destruct conditions as [|x l]; [reflexivity|].
  rewrite (concat_truthy (x :: l)); [|discriminate|exact Hhead].
  rewrite !string_app_assoc. reflexivity.
Qed.

Lemma list_operation_request (op : ListOperation) :
  api_request_of (list_operation op)
  = Some (query_request (entity_of op) (where_of (conditions_of op))
            (effective_limit op) (effective_offset op)).
Proof.
  destruct op as [o|o|o|o|o]; try reflexivity.
  simpl. unfold account_conditions, push_if.
  destruct (opt_str_truthy (acc_accountType o)); reflexivity.
Qed.

(** The query string that a list operation sends, if it sends one. *)
Lemma list_operation_issued_sql env op c :
  issued_sql (trace (perform env (list_operation op) c))
  = if authenticates env c
    then [expected_sql (entity_of op) (conditions_of op)
            (effective_limit op) (effective_offset op)]
    else [].
Proof.
  unfold issued_sql, authenticates.
  rewrite perform_api_calls, list_operation_request. unfold query_request.
  rewrite query_sql_expected by apply conditions_head_truthy.
  destruct (outcome (getAccessToken env c)); reflexivity.
Qed.

Lemma trace_fmap {A B} (f : A -> B) (m : M A) c :
  trace (fmap f m c) = trace (m c).
Proof.
  unfold fmap, bind, ret, trace.
  destruct (m c) as [[[a|e] c1] t1]; run_done.
Qed.

Lemma queryCustomers_issued_sql env o c :
  issued_sql (trace (queryCustomers env o c))
  = if authenticates env c
    then [expected_sql "Customer" (customer_conditions o)
            (opt_num_or (cust_limit o) (num_of_Z 100))
            (opt_num_or (cust_offset o) (num_of_Z 0))]
    else [].
Proof.
  rewrite <- (trace_fmap RValue).
  exact (list_operation_issued_sql env (ListCustomers o) c).
Qed.

Lemma queryInvoices_issued_sql env o c :
  issued_sql (trace (queryInvoices env o c))
  = if authenticates env c
    then [expected_sql "Invoice" (invoice_conditions o)
            (opt_num_or (inv_limit o) (num_of_Z 100))
            (opt_num_or (inv_offset o) (num_of_Z 0))]
    else [].
Proof.
  rewrite <- (trace_fmap RValue).
  exact (list_operation_issued_sql env (ListInvoices o) c).
Qed.

Lemma queryVendors_issued_sql env o c :
  issued_sql (trace (queryVendors env o c))
  = if authenticates env c
    then [expected_sql "Vendor" (vendor_conditions o)
            (opt_num_or (ven_limit o) (num_of_Z 100))
            (opt_num_or (ven_offset o) (num_of_Z 0))]
    else [].
Proof.
  rewrite <- (trace_fmap RValue).
  exact (list_operation_issued_sql env (ListVendors o) c).
Qed.

(** [offset || 0] changes nothing in [offset + 1] unless the offset is NaN. *)
Lemma num_or_zero_succ (O : number) :
  O <> NaN ->
  num_add (num_or O (num_of_Z 0)) (num_of_Z 1) = num_add O (num_of_Z 1).
Proof.
  intro HO. destruct O as [s|s| |s m e]; try reflexivity.
  exfalso. now apply HO.
Qed.

Lemma invoice_conditions_parts (o : InvoiceOptions) :
  invoice_conditions o
  = (customer_ref_predicate (inv_customerId o)
     ++ status_predicate (inv_status o)
     ++ start_date_predicate (inv_startDate o)
     ++ end_date_predicate (inv_endDate o))%list.
Proof.
  destruct o as [l f cid st sd ed]; simpl.
  destruct cid as [[|a s]|], st as [[| | |]|], sd as [[|a1 s1]|],
    ed as [[|a2 s2]|]; reflexivity.
Qed.

(** C2.  The conditions of [queryInvoices] are the customer predicate, what
    the status contributes and the date predicates, in that order, where
    "open" contributes exactly [Balance > '0'], "paid" exactly
    [Balance = '0'], and "overdue", "all" and no status nothing; this
    list is what the query sent is built from, and
    queryInvoices({customerId: "123", status: "open", limit: 10,
    offset: 0}) sends exactly SELECT * FROM Invoice WHERE CustomerRef =
    '123' AND Balance > '0' STARTPOSITION 1 MAXRESULTS 10 (it sends
    nothing when no token can be obtained). *)
Theorem queryInvoices_status_predicate :
  status_predicate (Some inv_open) = ["Balance > '0'"] /\
  status_predicate (Some inv_paid) = ["Balance = '0'"] /\
  status_predicate (Some inv_overdue) = [] /\
  status_predicate (Some inv_all) = [] /\
  (forall o : InvoiceOptions,
     invoice_conditions o
     = (customer_ref_predicate (inv_customerId o)
        ++ status_predicate (inv_status o)
        ++ start_date_predicate (inv_startDate o)
        ++ end_date_predicate (inv_endDate o))%list) /\
  (forall env o c,
     issued_sql (trace (queryInvoices env o c))
     = if authenticates env c
       then [expected_sql "Invoice" (invoice_conditions o)
               (opt_num_or (inv_limit o) (num_of_Z 100))
               (opt_num_or (inv_offset o) (num_of_Z 0))]
       else []) /\
  (forall env c,
     issued_sql (trace (queryInvoices env example_invoice_options c))
     = if authenticates env c
       then ["SELECT * FROM Invoice WHERE CustomerRef = '123' AND Balance > '0' STARTPOSITION 1 MAXRESULTS 10"]
       else []).
Proof.
  repeat (split; [reflexivity|]).
  split; [exact invoice_conditions_parts|].
  split; [exact queryInvoices_issued_sql|].
  intros env c. rewrite queryInvoices_issued_sql.
  destruct (authenticates env c); [|reflexivity].
  f_equal; vm_compute; reflexivity.
Qed.

(** C3, as amended.  With limit and offset unset, the query of the
    customer, invoice, vendor and bill operations ends with STARTPOSITION 1
    MAXRESULTS 100 and the query of the account operation ends with
    STARTPOSITION 1 MAXRESULTS 1000: the offset defaults to 0 everywhere,
    the limit to 100 except for accounts, where it defaults to 1000. *)
Theorem list_default_pagination :
  forall env (op : ListOperation) c,
    limit_of op = None ->
    offset_of op = None ->
    issued_sql (trace (perform env (list_operation op) c))
    = if authenticates env c
      then ["SELECT * FROM " ++ entity_of op ++ where_clause (conditions_of op)
              ++ " STARTPOSITION 1 MAXRESULTS "
              ++ match op with
                 | ListAccounts _ => "1000"
                 | _ => "100"
                 end]
      else [].
Proof.
  intros env op c Hl Ho. rewrite list_operation_issued_sql.
  unfold effective_limit, effective_offset, expected_sql.
  rewrite Hl, Ho. cbv beta iota delta [opt_num_or].
  replace (Number_toString (num_add (num_of_Z 0) (num_of_Z 1))) with "1"
    by (vm_compute; reflexivity).
  replace (Number_toString (default_limit op))
    with (match op with ListAccounts _ => "1000" | _ => "100" end)
    by (destruct op; vm_compute; reflexivity).
  reflexivity.
Qed.

(** C4, as amended.  With a limit [L] that is neither zero nor NaN and an
    offset [O] that is not NaN, the query of every list operation is
    SELECT * FROM <Entity>, then WHERE and the conditions joined with AND
    when there is a condition, then STARTPOSITION <O+1> MAXRESULTS <L>,
    the two numbers written as JavaScript writes them; for a whole
    offset, <O+1> is the next whole number. *)
Theorem list_pagination :
  forall env (op : ListOperation) c (L O : number),
    limit_of op = Some L ->
    offset_of op = Some O ->
    num_truthy L = true ->
    O <> NaN ->
    issued_sql (trace (perform env (list_operation op) c))
    = (if authenticates env c
       then [expected_sql (entity_of op) (conditions_of op) L O]
       else []) /\
    (forall o : Z,
       O = num_of_Z o -> 0 <= o -> o + 1 < 2 ^ 53 ->
       expected_sql (entity_of op) (conditions_of op) L O
       = "SELECT * FROM " ++ entity_of op ++ where_clause (conditions_of op)
           ++ " STARTPOSITION " ++ Number_toString (num_of_Z (o + 1))
           ++ " MAXRESULTS " ++ Number_toString L).
Proof.
  intros env op c L O Hl Ho HL HO. split.
  - rewrite list_operation_issued_sql.
    unfold effective_limit, effective_offset, expected_sql.
    rewrite Hl, Ho. cbv beta iota delta [opt_num_or].
    rewrite (num_or_zero_succ O HO). unfold num_or. rewrite HL. reflexivity.
  - intros o -> Ho0 Ho1. unfold expected_sql.
    rewrite num_add_int by lia. reflexivity.
Qed.

Lemma customer_conditions_parts (o : CustomerOptions) :
  customer_conditions o
  = (active_predicate (cust_activeOnly o)
     ++ search_predicate (cust_search o))%list.
Proof.
  destruct o as [l f a s]; simpl.
  destruct a as [[|]|], s as [[|ch s]|]; reflexivity.
Qed.

Lemma vendor_conditions_parts (o : VendorOptions) :
  vendor_conditions o = active_predicate (ven_activeOnly o).
Proof.
  destruct o as [l f a]; simpl. destruct a as [[|]|]; reflexivity.
Qed.

(** C5.  The conditions of [queryCustomers] are [Active = true] unless
    activeOnly is false, followed, when the search term [T] is not empty,
    by DisplayName LIKE '%T%' with [T] exactly as given; those of
    [queryVendors] are [Active = true] unless activeOnly is false.  These
    lists are what the queries sent are built from; a term with a single
    quote goes into the query as it is. *)
Theorem customer_vendor_conditions :
  (forall o : CustomerOptions,
     customer_conditions o
     = (active_predicate (cust_activeOnly o)
        ++ search_predicate (cust_search o))%list) /\
  (forall o : VendorOptions,
     vendor_conditions o = active_predicate (ven_activeOnly o)) /\
  (forall T : string,
     T <> "" ->
     search_predicate (Some T) = ["DisplayName LIKE '%" ++ T ++ "%'"]) /\
  (forall env o c,
     issued_sql (trace (queryCustomers env o c))
     = if authenticates env c
       then [expected_sql "Customer"
               (active_predicate (cust_activeOnly o)
                ++ search_predicate (cust_search o))
               (opt_num_or (cust_limit o) (num_of_Z 100))
               (opt_num_or (cust_offset o) (num_of_Z 0))]
       else []) /\
  (forall env o c,
     issued_sql (trace (queryVendors env o c))
     = if authenticates env c
       then [expected_sql "Vendor" (active_predicate (ven_activeOnly o))
               (opt_num_or (ven_limit o) (num_of_Z 100))
               (opt_num_or (ven_offset o) (num_of_Z 0))]
       else []) /\
  (forall env c,
     issued_sql (trace (queryCustomers env quoted_search_options c))
     = if authenticates env c
       then ["SELECT * FROM Customer WHERE Active = true AND DisplayName LIKE '%O'Brien%' STARTPOSITION 1 MAXRESULTS 100"]
       else []).
Proof.
  split; [exact customer_conditions_parts|].
  split; [exact vendor_conditions_parts|].
  split.
  { intros T HT. unfold search_predicate.
    rewrite eqb_empty_truthy. apply str_truthy_iff in HT. rewrite HT.
    reflexivity. }
  split.
  { intros env o c. rewrite queryCustomers_issued_sql,
      customer_conditions_parts. reflexivity. }
  split.
  { intros env o c. rewrite queryVendors_issued_sql,
      vendor_conditions_parts. reflexivity. }
  intros env c. rewrite queryCustomers_issued_sql.
  destruct (authenticates env c); [|reflexivity].
  f_equal; vm_compute; reflexivity.
Qed.

(** ** Invoice creation *)

Lemma nth_error_map_indexed {A B} (f : A -> nat -> B) (l : list A) :
  forall (start i : nat),
    nth_error (map_indexed f l start) i
    = option_map (fun x => f x (start + i)%nat) (nth_error l i).
Proof.
  induction l as [|x l IH]; intros start i.
  - destruct i; reflexivity.
  - destruct i as [|i]; simpl.
    + rewrite Nat.add_0_r. reflexivity.
    + rewrite IH. rewrite Nat.add_succ_r. reflexivity.
Qed.

Lemma invoice_data_line (data : InvoiceInput) (i : nat) (item : LineItem) :
  nth_error (lineItems data) i = Some item ->
  nth_error (Line (invoice_data data)) i = Some (invoice_line item i).
Proof.
  intro H. unfold invoice_data; simpl.
  rewrite nth_error_map_indexed, H. reflexivity.
Qed.

Lemma invoice_data_length (data : InvoiceInput) :
  List.length (Line (invoice_data data)) = List.length (lineItems data).
Proof.
  unfold invoice_data; simpl. generalize 0%nat.
  induction (lineItems data) as [|x l IH]; intro n; simpl; [reflexivity|].
  rewrite IH. reflexivity.
Qed.

(** What [createInvoice] posts. *)
Lemma createInvoice_posted env data c :
  posted_bodies (api_calls (trace (createInvoice env data c)))
  = if authenticates env c then [invoice_data data] else [].
Proof.
  rewrite <- (trace_fmap RValue).
  change (fmap RValue (createInvoice env data) c)
    with (perform env (OpCreateInvoice data) c).
  rewrite perform_api_calls. unfold authenticates. simpl.
  destruct (outcome (getAccessToken env c)); reflexivity.
Qed.

(** C6, as amended.  [createInvoice] posts one sales line per line item, in
    order; the line of an item has DetailType SalesItemLineDetail, the
    item's description, and UnitPrice = amount; when the item's quantity
    is a number other than zero and NaN, Amount = amount x quantity and
    Qty = quantity; when the item has no quantity, Amount = amount x 1,
    which is the amount itself, and Qty = 1.  With amount 150 and
    quantity 2 the Amount is 300. *)
Theorem createInvoice_lines :
  forall env (data : InvoiceInput) c (i : nat) (item : LineItem),
    nth_error (lineItems data) i = Some item ->
    posted_bodies (api_calls (trace (createInvoice env data c)))
    = (if authenticates env c then [invoice_data data] else []) /\
    List.length (Line (invoice_data data)) = List.length (lineItems data) /\
    exists line,
      nth_error (Line (invoice_data data)) i = Some line /\
      DetailType line = "SalesItemLineDetail" /\
      Description line = description item /\
      UnitPrice (Line_SalesItemLineDetail line) = amount item /\
      (forall q, quantity item = Some q -> num_truthy q = true ->
         Amount line = num_mul (amount item) q /\
         Qty (Line_SalesItemLineDetail line) = q) /\
      (quantity item = None ->
         Amount line = num_mul (amount item) (num_of_Z 1) /\
         (valid_binary prec emax (amount item) = true ->
          Amount line = amount item) /\
         Qty (Line_SalesItemLineDetail line) = num_of_Z 1) /\
      num_mul (num_of_Z 150) (num_of_Z 2) = num_of_Z 300.
Proof.
  intros env data c i item Hitem.
  split; [apply createInvoice_posted|].
  split; [apply invoice_data_length|].
  exists (invoice_line item i).
  split; [apply invoice_data_line, Hitem|].
  do 3 (split; [reflexivity|]).
  split.
  { intros q Hq Ht. unfold invoice_line; simpl.
    rewrite Hq. unfold opt_num_or, num_or. rewrite Ht. split; reflexivity. }
  split.
  { intros Hq. unfold invoice_line; simpl. rewrite Hq.
    split; [reflexivity|]. split; [|reflexivity].
    intro Hvalid. apply num_mul_one, Hvalid. }
  vm_compute. reflexivity.
Qed.

(** C10.  A line item whose quantity is an explicit zero (of either sign)
    gives, in the invoice that [createInvoice] posts, a sales line with
    Qty = 1 and Amount = amount x 1, that is the amount itself and not
    zero: the very line of the same item without a quantity. *)
Theorem zero_quantity_billed_as_one :
  forall env (data : InvoiceInput) c (i : nat) (item : LineItem) (s : bool),
    nth_error (lineItems data) i = Some item ->
    quantity item = Some (S754_zero s) ->
    posted_bodies (api_calls (trace (createInvoice env data c)))
    = (if authenticates env c then [invoice_data data] else []) /\
    exists line,
      nth_error (Line (invoice_data data)) i = Some line /\
      Qty (Line_SalesItemLineDetail line) = num_of_Z 1 /\
      Amount line = num_mul (amount item) (num_of_Z 1) /\
      (valid_binary prec emax (amount item) = true ->
       Amount line = amount item) /\
      line = invoice_line (without_quantity item) i.
Proof.
  intros env data c i item s Hitem Hq.
  split; [apply createInvoice_posted|].
  exists (invoice_line item i).
  split; [apply invoice_data_line, Hitem|].
  unfold invoice_line, without_quantity; simpl. rewrite Hq.
  split; [reflexivity|]. split; [reflexivity|]. split; [|reflexivity].
  intro Hvalid. apply num_mul_one, Hvalid.
Qed.

(** ** The Profit and Loss report *)

Lemma member_not_nullish (v : any) (k : string) :
  nullish v = false -> member v k = Ok (opt_member v k).
Proof. destruct v; simpl; intro H; reflexivity || discriminate. Qed.

Lemma ToString_primitive (v : any) :
  is_primitive v = true -> ToString v = Ok (text_of v).
Proof. destruct v; simpl; intro H; reflexivity || discriminate. Qed.

Lemma row_matches_spec (r : any) (type : string) :
  nullish r = false -> row_matches r type = Ok (row_has type r).
Proof.
  intro H. unfold row_matches, row_has.
  rewrite !(member_not_nullish r) by exact H. simpl.
  destruct (strict_eq_str (opt_member r "type") type); reflexivity.
Qed.

(** On rows none of which is [null] or [undefined], [find] does not throw
    and gives the first row with the discriminator. *)
Lemma find_row_spec (rows : list any) (type : string) :
  forallb row_shape rows = true ->
  find_row rows type
  = Ok match first_row type rows with
       | Some r => r
       | None => JUndefined
       end.
Proof.
  unfold first_row. induction rows as [|r rows IH]; simpl; intro H.
  - reflexivity.
  - apply andb_true_iff in H. destruct H as [Hr Hrows].
    unfold row_shape in Hr. apply andb_true_iff in Hr.
    destruct Hr as [Hnull _]. apply negb_true_iff in Hnull.
    rewrite (row_matches_spec r type Hnull). simpl.
    destruct (row_has type r); [reflexivity|]. apply IH, Hrows.
Qed.

Lemma first_row_shape (rows : list any) (type : string) (row : any) :
  forallb row_shape rows = true ->
  first_row type rows = Some row ->
  is_primitive (summary_value row) = true.
Proof.
  intros Hall Hfind. apply find_some in Hfind. destruct Hfind as [Hin _].
  rewrite forallb_forall in Hall. specialize (Hall row Hin).
  unfold row_shape in Hall. apply andb_true_iff in Hall. apply Hall.
Qed.

Lemma num_or_zero (x : number) :
  num_or x zero
  = match x with
    | S754_nan => zero
    | S754_zero _ => zero
    | _ => x
    end.
Proof. destruct x; reflexivity. Qed.

Lemma parseAmount_spec (rows : list any) (type : string) :
  forallb row_shape rows = true ->
  parseAmount (JArr rows) type = Ok (expected_total rows type).
Proof.
  intro Hall. unfold parseAmount, expected_total. simpl.
  rewrite (find_row_spec rows type Hall). simpl.
  destruct (first_row type rows) as [row|] eqn:Hfirst; [|reflexivity].
  destruct (truthy (summary_value row)); [|reflexivity].
  rewrite (ToString_primitive _ (first_row_shape rows type row Hall Hfirst)).
  simpl. rewrite num_or_zero.
  destruct (parseFloat (text_of (summary_value row))); reflexivity.
Qed.

(** The search of [find] for a row, with the rows that stop it. *)
Lemma find_row_cases (rows : list any) (type : string) :
  find_row rows type
  = if null_row_first rows type then Throw TypeError
    else Ok match first_row type rows with
            | Some r => r
            | None => JUndefined
            end.
Proof.
  unfold first_row. induction rows as [|r rows IH]; simpl; [reflexivity|].
  destruct (nullish r) eqn:Hr.
  - destruct r; try discriminate Hr; reflexivity.
  - rewrite (row_matches_spec r type Hr). simpl.
    destruct (row_has type r); [reflexivity|exact IH].
Qed.

Lemma ToString_error :
  forall (v : any) (e : Error), ToString v = Throw e -> e = TypeError.
Proof.
  fix IH 1. intros [| | b | x | s | elems | ms] e; simpl; try discriminate.
  - revert e. induction elems as [|x l IHl]; intros e; [discriminate|].
    destruct (nullish x).
    + simpl. destruct l as [|y l']; [discriminate|].
      match goal with
      | |- context [bindR ?j _] => destruct j as [r|e'] eqn:Hj
      end; simpl; [discriminate|].
      intro H. injection H as <-. exact (IHl _ eq_refl).
    + destruct (ToString x) as [sx|ex] eqn:Hx; simpl.
      * destruct l as [|y l']; [discriminate|].
        match goal with
        | |- context [bindR ?j _] => destruct j as [r|e'] eqn:Hj
        end; simpl; [discriminate|].
        intro H. injection H as <-. exact (IHl _ eq_refl).
      * intro H. injection H as <-. apply (IH x). exact Hx.
  - destruct (has_key "toString" ms); [|discriminate].
    intro H. injection H as <-. reflexivity.
Qed.







(** ** Instances and counterexamples *)

(** With the token "abc", a rotated refresh token "xyz" and a lifetime of
    3600 s: the call returns "abc", the expiry is 3540 s after [t0], the
    stored refresh token becomes "xyz", and a call one second later is
    served from the cache. *)
Lemma getAccessToken_refresh_then_cached_witness :
  token_is_fresh example_client (clock_check (world "abc")) = false /\
  token_endpoint (world "abc") (token_request example_client)
    = Ok (example_response "abc") /\
  outcome (getAccessToken (world "abc") example_client) = Ok "abc" /\
  tokenExpiry (final (getAccessToken (world "abc") example_client))
    = num_of_Z (clock_issue (world "abc") + (3600 - 60) * 1000) /\
  refreshToken (config (final (getAccessToken (world "abc") example_client)))
    = "xyz" /\
  getAccessToken (later_world "abc")
    (final (getAccessToken (world "abc") example_client))
  = (Ok "abc", final (getAccessToken (world "abc") example_client), []).
Proof.
  destruct (getAccessToken_refresh_then_cached (world "abc") example_client
              (example_response "abc") eq_refl eq_refl)
    as (Hout & _ & _ & _ & Hexp & Hrot & Hcached).
  split; [reflexivity|]. split; [reflexivity|].
  split; [exact Hout|].
  split.
  { apply (Hexp 3600); [reflexivity|lia|unfold world, t0; simpl; lia|].
    unfold world, t0; simpl; lia. }
  split; [apply Hrot; [reflexivity|discriminate]|].
  apply Hcached; [discriminate|]. vm_compute. reflexivity.
Defined.

(** C1 as stated fails when the access token of the response is the empty
    string: the token is stored and the expiry lies an hour ahead, yet the
    call made one second later goes to the token endpoint again. *)
Lemma getAccessToken_empty_token_not_cached :
  token_is_fresh example_client (clock_check (world "")) = false /\
  token_endpoint (world "") (token_request example_client)
    = Ok (example_response "") /\
  accessToken (final (getAccessToken (world "") example_client)) = "" /\
  strictly_before (clock_check (later_world ""))
    (tokenExpiry (final (getAccessToken (world "") example_client))) = true /\
  trace (getAccessToken (later_world "")
           (final (getAccessToken (world "") example_client)))
  = [TokenExchange
       {| token_url := tokenURL; basic_user := "client";
          basic_password := "secret"; grant_type := "refresh_token";
          grant_refresh_token := "xyz" |}].
Proof. vm_compute. repeat split. Qed.

Lemma list_default_pagination_witness :
  limit_of (ListAccounts no_account_options) = None /\
  offset_of (ListAccounts no_account_options) = None /\
  issued_sql
    (trace (perform (world "abc")
              (list_operation (ListAccounts no_account_options))
              example_client))
  = ["SELECT * FROM Account WHERE Active = true STARTPOSITION 1 MAXRESULTS 1000"].
Proof.
  split; [reflexivity|]. split; [reflexivity|].
  rewrite (list_default_pagination (world "abc")
             (ListAccounts no_account_options) example_client
             eq_refl eq_refl).
  vm_compute. reflexivity.
Defined.

(** C3 as stated fails for accounts: with limit and offset unset, the
    query of [queryAccounts] asks for 1000 results, and so does not end
    with STARTPOSITION 1 MAXRESULTS 100. *)
Lemma queryAccounts_default_limit_1000 :
  acc_limit no_account_options = None /\
  acc_offset no_account_options = None /\
  issued_sql (trace (queryAccounts (world "abc") no_account_options
                       example_client))
  = ["SELECT * FROM Account WHERE Active = true STARTPOSITION 1 MAXRESULTS 1000"] /\
  ends_with " STARTPOSITION 1 MAXRESULTS 100"
    "SELECT * FROM Account WHERE Active = true STARTPOSITION 1 MAXRESULTS 1000"
  = false /\
  effective_limit (ListAccounts no_account_options) = num_of_Z 1000 /\
  num_of_Z 1000 <> num_of_Z 100.
Proof. vm_compute. repeat split. discriminate. Qed.

Lemma list_pagination_witness :
  limit_of (ListInvoices example_invoice_options) = Some (num_of_Z 10) /\
  offset_of (ListInvoices example_invoice_options) = Some (num_of_Z 0) /\
  num_truthy (num_of_Z 10) = true /\
  num_of_Z 0 <> NaN /\
  issued_sql
    (trace (perform (world "abc")
              (list_operation (ListInvoices example_invoice_options))
              example_client))
  = ["SELECT * FROM Invoice WHERE CustomerRef = '123' AND Balance > '0' STARTPOSITION 1 MAXRESULTS 10"].
Proof.
  assert (H0 : num_of_Z 0 <> NaN) by (vm_compute; discriminate).
  split; [reflexivity|]. split; [reflexivity|]. split; [reflexivity|].
  split; [exact H0|].
  destruct (list_pagination (world "abc")
              (ListInvoices example_invoice_options) example_client
              (num_of_Z 10) (num_of_Z 0) eq_refl eq_refl eq_refl H0)
    as [Hsql _].
  rewrite Hsql. vm_compute. reflexivity.
Defined.

(** C4 as stated fails for a limit of 0: the query asks for 100 results,
    not for 0. *)
Lemma queryCustomers_zero_limit_is_default :
  cust_limit zero_limit_options = Some (num_of_Z 0) /\
  cust_offset zero_limit_options = Some (num_of_Z 0) /\
  issued_sql (trace (queryCustomers (world "abc") zero_limit_options
                       example_client))
  = ["SELECT * FROM Customer WHERE Active = true STARTPOSITION 1 MAXRESULTS 100"] /\
  expected_sql "Customer" (customer_conditions zero_limit_options)
    (num_of_Z 0) (num_of_Z 0)
  = "SELECT * FROM Customer WHERE Active = true STARTPOSITION 1 MAXRESULTS 0".
Proof. vm_compute. repeat split. Qed.

Lemma customer_vendor_conditions_witness :
  "O'Brien" <> "" /\
  search_predicate (Some "O'Brien") = ["DisplayName LIKE '%O'Brien%'"].
Proof.
  destruct customer_vendor_conditions as (_ & _ & Hsearch & _).
  assert (Hne : "O'Brien" <> "") by discriminate.
  split; [exact Hne|]. exact (Hsearch "O'Brien" Hne).
Defined.

Lemma createInvoice_lines_witness :
  nth_error (lineItems (example_invoice (Some (num_of_Z 2)))) 0
    = Some (example_item (Some (num_of_Z 2))) /\
  exists line,
    nth_error (Line (invoice_data (example_invoice (Some (num_of_Z 2))))) 0
      = Some line /\
    Amount line = num_of_Z 300 /\
    Qty (Line_SalesItemLineDetail line) = num_of_Z 2 /\
    UnitPrice (Line_SalesItemLineDetail line) = num_of_Z 150.
Proof.
  split; [reflexivity|].
  destruct (createInvoice_lines (world "abc")
              (example_invoice (Some (num_of_Z 2))) example_client 0%nat
              (example_item (Some (num_of_Z 2))) eq_refl)
    as (_ & _ & line & Hline & _ & _ & Hunit & Hq & _ & H300).
  destruct (Hq (num_of_Z 2) eq_refl eq_refl) as [Hamount Hqty].
  exists line. split; [exact Hline|].
  split; [rewrite Hamount; exact H300|].
  split; [exact Hqty|exact Hunit].
Defined.

(** C6 as stated fails for a quantity of 0: with amount 150 the line has
    Amount 150 and Qty 1, where amount x quantity is 0 and the quantity
    is 0. *)
Lemma createInvoice_zero_quantity_line :
  nth_error (Line (invoice_data (example_invoice (Some (num_of_Z 0))))) 0
  = Some {| Line_Id := "1";
            Amount := num_of_Z 150;
            DetailType := "SalesItemLineDetail";
            Description := "Cleaning";
            Line_SalesItemLineDetail :=
              {| Qty := num_of_Z 1; UnitPrice := num_of_Z 150 |} |} /\
  num_mul (num_of_Z 150) (num_of_Z 0) = num_of_Z 0 /\
  num_of_Z 150 <> num_of_Z 0 /\
  num_of_Z 1 <> num_of_Z 0.
Proof. vm_compute. repeat split; discriminate. Qed.

Lemma zero_quantity_billed_as_one_witness :
  nth_error (lineItems (example_invoice (Some (num_of_Z 0)))) 0
    = Some (example_item (Some (num_of_Z 0))) /\
  quantity (example_item (Some (num_of_Z 0))) = Some (S754_zero false) /\
  exists line,
    nth_error (Line (invoice_data (example_invoice (Some (num_of_Z 0))))) 0
      = Some line /\
    Qty (Line_SalesItemLineDetail line) = num_of_Z 1 /\
    Amount line = num_of_Z 150.
Proof.
  split; [reflexivity|]. split; [reflexivity|].
  destruct (zero_quantity_billed_as_one (world "abc")
              (example_invoice (Some (num_of_Z 0))) example_client 0%nat
              (example_item (Some (num_of_Z 0))) false eq_refl eq_refl)
    as (_ & line & Hline & Hqty & _ & Hamount & _).
  exists line. split; [exact Hline|]. split; [exact Hqty|].
  apply Hamount. reflexivity.
Defined.



(** In a world where every request is refused, [getCustomer] returns
    [null] and [queryCustomers] throws the error of the refusal. *)
Lemma getCustomer_swallows_others_propagate_witness :
  request_fails (failing_env t0) (OpGetCustomer "42") example_client
    (AxiosError "invalid_grant") /\
  outcome (getCustomer (failing_env t0) "42" example_client) = Ok JNull /\
  is_getCustomer (OpQueryCustomers zero_limit_options) = false /\
  request_fails (failing_env t0) (OpQueryCustomers zero_limit_options)
    example_client (AxiosError "invalid_grant") /\
  outcome (perform (failing_env t0) (OpQueryCustomers zero_limit_options)
             example_client)
  = Throw (AxiosError "invalid_grant").
Proof.
  destruct getCustomer_swallows_others_propagate as (_ & Hnull & Hprop).
  assert (H1 : request_fails (failing_env t0) (OpGetCustomer "42")
                 example_client (AxiosError "invalid_grant"))
    by reflexivity.
  assert (H2 : request_fails (failing_env t0)
                 (OpQueryCustomers zero_limit_options) example_client
                 (AxiosError "invalid_grant"))
    by reflexivity.
  split; [exact H1|].
  split; [exact (Hnull _ _ _ _ H1)|].
  split; [reflexivity|].
  split; [exact H2|].
  exact (Hprop (failing_env t0) (OpQueryCustomers zero_limit_options)
           example_client (AxiosError "invalid_grant") eq_refl H2).
Defined.

(** * Further properties of the client *)

Import Session.

(** ** Shape of a run *)

Lemma getAccessToken_trace env c :
  trace (getAccessToken env c)
  = if token_is_fresh c (clock_check env) then []
    else [TokenExchange (token_request c)].
Proof.
  rewrite getAccessToken_cases.
  destruct (token_is_fresh c (clock_check env)); [reflexivity|].
  destruct (token_endpoint env (token_request c)); reflexivity.
Qed.

Lemma api_calls_app (t1 t2 : list Event) :
  api_calls (t1 ++ t2) = (api_calls t1 ++ api_calls t2)%list.
Proof.
  induction t1 as [|[q|q] t IH]; simpl; rewrite ?IH; reflexivity.
Qed.

Lemma token_requests_app (t1 t2 : list Event) :
  token_requests (t1 ++ t2)
  = (token_requests t1 ++ token_requests t2)%list.
Proof.
  induction t1 as [|[q|q] t IH]; simpl; rewrite ?IH; reflexivity.
Qed.

Lemma perform_trace env op c :
  trace (perform env op c)
  = (trace (getAccessToken env c)
     ++ map ApiCall (api_calls (trace (perform env op c))))%list.
Proof.
  rewrite perform_api_calls, perform_cases.
  destruct (api_request_of op) as [[[[m path] params] body]|].
  - rewrite api_request_cases.
    pose proof (getAccessToken_api_baseURL env c) as Hurl.
    destruct (getAccessToken env c) as [[[token|e] c1] t1];
      unfold trace, final, outcome in *; simpl in *.
    + rewrite Hurl. destruct (api_endpoint env _); reflexivity.
    + rewrite app_nil_r. reflexivity.
  - destruct (getAccessToken env c) as [[[token|e] c1] t1];
      unfold trace; simpl; rewrite app_nil_r; reflexivity.
Qed.

Lemma perform_answered env op c body :
  request_answers env op c body ->
  outcome (perform env op c) = on_response op body.
Proof.
  unfold request_answers. rewrite perform_cases.
  destruct (api_request_of op) as [[[[m path] params] b]|]; [|contradiction].
  unfold outcome.
  destruct (api_request env m path params b c) as [[[d|e] c1] t1]; simpl;
    intro H; [congruence|discriminate].
Qed.

Lemma token_requests_api_calls (rs : list ApiRequest) :
  token_requests (map ApiCall rs) = [].
Proof. induction rs as [|r rs IH]; simpl; [reflexivity|exact IH]. Qed.

Lemma token_requests_getAccessToken env c :
  token_requests (trace (getAccessToken env c))
  = if token_is_fresh c (clock_check env) then [] else [token_request c].
Proof.
  rewrite getAccessToken_trace.
  destruct (token_is_fresh c (clock_check env)); reflexivity.
Qed.

Lemma token_requests_perform env op c :
  token_requests (trace (perform env op c))
  = if token_is_fresh c (clock_check env) then [] else [token_request c].
Proof.
  rewrite perform_trace, token_requests_app, token_requests_api_calls,
    app_nil_r.
  apply token_requests_getAccessToken.
Qed.

(** X1.  Whatever the operation and the world, a run consists of at most
    one refresh-token grant, sent exactly when the cached token is not
    fresh, followed by at most one request to the API; no request goes to
    the API when no token could be obtained. *)
Theorem one_grant_then_one_request :
  forall env op c,
    token_requests (trace (perform env op c))
    = (if token_is_fresh c (clock_check env) then [] else [token_request c]) /\
    (List.length (api_calls (trace (perform env op c))) <= 1)%nat /\
    (authenticates env c = false ->
     api_calls (trace (perform env op c)) = []) /\
    trace (perform env op c)
    = (map TokenExchange (token_requests (trace (perform env op c)))
       ++ map ApiCall (api_calls (trace (perform env op c))))%list.
Proof.
  intros env op c.
  split; [apply token_requests_perform|].
  split.
  { rewrite perform_api_calls.
    destruct (api_request_of op) as [[[[m path] params] body]|];
      [destruct (outcome (getAccessToken env c))|]; simpl; lia. }
  split.
  { intro Hauth. rewrite perform_api_calls. unfold authenticates in Hauth.
    destruct (api_request_of op) as [[[[m path] params] body]|];
      [|reflexivity].
    destruct (outcome (getAccessToken env c)); [discriminate|reflexivity]. }
  rewrite token_requests_perform.
  rewrite (perform_trace env op c) at 1. rewrite getAccessToken_trace.
  destruct (token_is_fresh c (clock_check env)); reflexivity.
Qed.

Lemma one_grant_then_one_request_witness :
  authenticates (failing_env t0) example_client = false /\
  api_calls (trace (perform (failing_env t0)
                      (OpQueryCustomers zero_limit_options) example_client))
  = [].
Proof.
  split; [reflexivity|].
  destruct (one_grant_then_one_request (failing_env t0)
              (OpQueryCustomers zero_limit_options) example_client)
    as (_ & _ & Hnone & _).
  apply Hnone. reflexivity.
Defined.

(** X2.  When the token endpoint refuses the grant, the operation sends
    nothing to the API and leaves the client exactly as it was: token,
    expiry and configuration. *)
Theorem refused_grant_changes_nothing :
  forall env op c e,
    token_is_fresh c (clock_check env) = false ->
    token_endpoint env (token_request c) = Throw e ->
    final (perform env op c) = c /\
    trace (perform env op c) = [TokenExchange (token_request c)] /\
    outcome (perform env op c)
    = if is_getCustomer op then Ok (RValue JNull) else Throw e.
Proof.
  intros env op c e Hstale Hrefuse.
  assert (Hget : getAccessToken env c
                 = (Throw e, c, [TokenExchange (token_request c)])).
  { rewrite getAccessToken_cases, Hstale, Hrefuse. reflexivity. }
  split; [rewrite perform_final, Hget; reflexivity|].
  rewrite perform_cases.
  destruct (api_request_of op) as [[[[m path] params] body]|] eqn:Hreq.
  - rewrite api_request_cases, Hget. split; reflexivity.
  - rewrite Hget. destruct op; try discriminate Hreq. split; reflexivity.
Qed.

Lemma refused_grant_changes_nothing_witness :
  token_is_fresh example_client (clock_check (failing_env t0)) = false /\
  token_endpoint (failing_env t0) (token_request example_client)
    = Throw (AxiosError "invalid_grant") /\
  final (perform (failing_env t0) (OpGetCustomer "42") example_client)
    = example_client.
Proof.
  split; [reflexivity|]. split; [reflexivity|].
  apply (refused_grant_changes_nothing (failing_env t0) (OpGetCustomer "42")
           example_client (AxiosError "invalid_grant") eq_refl eq_refl).
Defined.

(** ** Where requests go *)

Lemma string_app_nil_r (a : string) : a ++ "" = a.
Proof. induction a as [|c a IH]; simpl; [reflexivity|]. rewrite IH. reflexivity. Qed.

Lemma rev_string_acc_app (a b acc : string) :
  rev_string_acc (a ++ b) acc = rev_string_acc b (rev_string_acc a acc).
Proof.
  revert acc. induction a as [|c a IH]; intro acc; simpl; [reflexivity|].
  apply IH.
Qed.

Lemma rev_string_acc_twice (a b c : string) :
  rev_string_acc (rev_string_acc a b) c = rev_string_acc b (a ++ c).
Proof.
  revert b c. induction a as [|x a IH]; intros b c; simpl; [reflexivity|].
  rewrite IH. reflexivity.
Qed.

Lemma rev_string_acc_involutive (s : string) :
  rev_string_acc (rev_string_acc s "") "" = s.
Proof. rewrite rev_string_acc_twice. simpl. apply string_app_nil_r. Qed.

Lemma rev_string_acc_acc (s acc : string) :
  rev_string_acc s acc = rev_string_acc s "" ++ acc.
Proof.
  revert acc. induction s as [|c s IH]; intro acc; simpl; [reflexivity|].
  rewrite (IH (String c acc)), (IH (String c "")), string_app_assoc.
  reflexivity.
Qed.

(** Whether a string ends in a slash is decided by its last part. *)
Lemma ends_in_slash_app (a b : string) :
  b <> "" -> ends_in_slash (a ++ b) = ends_in_slash b.
Proof.
  intro Hb. unfold ends_in_slash.
  rewrite rev_string_acc_app, rev_string_acc_acc.
  destruct (rev_string_acc b "") as [|c r] eqn:Hrev; [|reflexivity].
  exfalso. apply Hb.
  rewrite <- (rev_string_acc_involutive b), Hrev. reflexivity.
Qed.

Lemma drop_trailing_slashes_none (s : string) :
  ends_in_slash s = false -> drop_trailing_slashes s = s.
Proof.
  unfold ends_in_slash, drop_trailing_slashes.
  destruct (rev_string_acc s "") as [|c r]; [reflexivity|].
  intros ->. reflexivity.
Qed.

Lemma drop_trailing_slashes_one (s : string) :
  ends_in_slash s = false -> drop_trailing_slashes (s ++ "/") = s.
Proof.
  unfold ends_in_slash, drop_trailing_slashes.
  rewrite rev_string_acc_app. simpl.
  destruct (rev_string_acc s "") as [|c r] eqn:Hrev.
  - intros _. rewrite <- (rev_string_acc_involutive s), Hrev. reflexivity.
  - intros ->. rewrite <- Hrev. apply rev_string_acc_involutive.
Qed.

(** The path of every operation is relative, and starts with its one
    slash. *)
Lemma api_request_path op m path params body :
  api_request_of op = Some (m, path, params, body) ->
  isAbsoluteURL path = false /\
  str_truthy path = true /\
  "/" ++ drop_leading_slashes path = path.
Proof.
  destruct op; simpl; unfold query_request; intro H;
    try discriminate; injection H as <- <- <- <-; repeat split.
Qed.

(** The base URL that the constructor gives to axios, joined with the
    path of an operation. *)
Lemma buildFullPath_company cfg op m path params body :
  api_request_of op = Some (m, path, params, body) ->
  ends_in_slash (companyId cfg) = false ->
  buildFullPath (api_baseURL (new_QuickBooksClient cfg)) path
  = host_of (environment cfg) ++ "/v3/company"
      ++ (if String.eqb (companyId cfg) "" then ""
          else "/" ++ companyId cfg)
      ++ path.
Proof.
  intros Hop Hid.
  destruct (api_request_path op m path params body Hop)
    as (Habs & Hpath & Hslash).
  unfold buildFullPath, combineURLs. rewrite Habs, Hpath.
  unfold new_QuickBooksClient, api_baseURL.
  fold (host_of (environment cfg)).
  assert (Hbase : str_truthy
                    (host_of (environment cfg) ++ "/v3/company/"
                       ++ companyId cfg) = true)
    by (destruct (environment cfg); reflexivity).
  rewrite Hbase. cbn [andb negb].
  destruct (companyId cfg) as [|c id] eqn:Hcid.
  - cbn [String.eqb].
    replace (host_of (environment cfg) ++ "/v3/company/" ++ "")
      with ((host_of (environment cfg) ++ "/v3/company") ++ "/")
      by (rewrite string_app_assoc; reflexivity).
    rewrite drop_trailing_slashes_one
      by (destruct (environment cfg); reflexivity).
    rewrite Hslash, string_app_assoc. reflexivity.
  - cbn [String.eqb].
    rewrite drop_trailing_slashes_none.
    + rewrite Hslash, !string_app_assoc. reflexivity.
    + replace (host_of (environment cfg) ++ "/v3/company/"
                 ++ String c id)
        with ((host_of (environment cfg) ++ "/v3/company/")
                ++ String c id)
        by (rewrite string_app_assoc; reflexivity).
      rewrite ends_in_slash_app by discriminate.
      exact Hid.
Qed.

Lemma perform_frame env op c :
  api_baseURL (final (perform env op c)) = api_baseURL c /\
  clientId (config (final (perform env op c))) = clientId (config c) /\
  clientSecret (config (final (perform env op c)))
    = clientSecret (config c) /\
  companyId (config (final (perform env op c))) = companyId (config c) /\
  environment (config (final (perform env op c))) = environment (config c).
Proof.
  rewrite perform_final.
  split; [apply getAccessToken_api_baseURL|].
  rewrite getAccessToken_cases.
  destruct (token_is_fresh c (clock_check env)); [repeat split|].
  destruct (token_endpoint env (token_request c)) as [resp|e];
    [|repeat split].
  unfold final; simpl.
  destruct (after_refresh_config env c resp) as (H1 & H2 & H3 & H4 & _).
  auto.
Qed.

Lemma after_all_frame steps :
  forall c,
    api_baseURL (after_all steps c) = api_baseURL c /\
    clientId (config (after_all steps c)) = clientId (config c) /\
    clientSecret (config (after_all steps c)) = clientSecret (config c) /\
    companyId (config (after_all steps c)) = companyId (config c) /\
    environment (config (after_all steps c)) = environment (config c).
Proof.
  induction steps as [|[env op] steps IH]; intro c; simpl.
  - repeat split.
  - destruct (IH (final (perform env op c))) as (H1 & H2 & H3 & H4 & H5).
    destruct (perform_frame env op c) as (G1 & G2 & G3 & G4 & G5).
    rewrite H1, H2, H3, H4, H5. auto.
Qed.

(** X3.  A client built by the constructor with a company id that does
    not end in a slash makes every request, after whatever series of
    operations, with the method of the operation and at the URL that axios
    builds from the constructor's base URL and the path of the operation:
    the host of the environment (production or sandbox), /v3/company, the
    company id after a slash when it is not empty, and the path. *)
Theorem requests_go_to_the_configured_company :
  forall cfg steps env op req,
    ends_in_slash (companyId cfg) = false ->
    In req (api_calls
              (trace (perform env op
                        (after_all steps (new_QuickBooksClient cfg))))) ->
    req_url req
    = host_of (environment cfg) ++ "/v3/company"
        ++ (if String.eqb (companyId cfg) "" then ""
            else "/" ++ companyId cfg)
        ++ path_of op /\
    req_method req = method_of op.
Proof.
  intros cfg steps env op req Hid Hin.
  rewrite perform_api_calls in Hin. unfold path_of, method_of.
  destruct (api_request_of op) as [[[[m path] params] body]|] eqn:Hop;
    [|contradiction].
  destruct (outcome (getAccessToken env _)) as [token|e];
    [|contradiction].
  destruct Hin as [<-|[]]. cbn [req_url req_method].
  destruct (after_all_frame steps (new_QuickBooksClient cfg)) as (-> & _).
  split; [|reflexivity].
  exact (buildFullPath_company cfg op m path params body Hop Hid).
Qed.

Lemma requests_go_to_the_configured_company_witness :
  ends_in_slash (companyId example_config) = false /\
  exists req,
    In req (api_calls
              (trace (perform (world "abc") (OpGetCustomer "42")
                        (after_all [(world "abc", OpGetAccessToken)]
                           (new_QuickBooksClient example_config))))) /\
    req_url req
    = "https://sandbox-quickbooks.api.intuit.com/v3/company/9341/customer/42" /\
    req_method req = GET.
Proof.
  split; [reflexivity|].
  eexists. split; [left; reflexivity|].
  exact (requests_go_to_the_configured_company example_config
           [(world "abc", OpGetAccessToken)] (world "abc")
           (OpGetCustomer "42") _ eq_refl (or_introl eq_refl)).
Defined.

(** ** The token over several operations *)

Lemma perform_after_refresh env op c resp :
  token_is_fresh c (clock_check env) = false ->
  token_endpoint env (token_request c) = Ok resp ->
  final (perform env op c) = after_refresh env c resp.
Proof.
  intros Hstale Hresp.
  rewrite perform_final, getAccessToken_cases, Hstale, Hresp. reflexivity.
Qed.

Lemma fresh_token_served env c :
  token_is_fresh c (clock_check env) = true ->
  getAccessToken env c = (Ok (accessToken c), c, []).
Proof. intro H. rewrite getAccessToken_cases, H. reflexivity. Qed.

(** X4.  A token obtained during one operation serves the next one: when
    the first operation had to refresh and the exchange gave a non-empty
    token, then, whether or not the first operation's own request
    succeeded, any operation started strictly before the expiry sends no
    grant, authorizes its request with that token and leaves the client
    as it is. *)
Theorem token_serves_the_next_operation :
  forall env1 env2 op1 op2 c resp,
    token_is_fresh c (clock_check env1) = false ->
    token_endpoint env1 (token_request c) = Ok resp ->
    access_token resp <> "" ->
    strictly_before (clock_check env2)
      (expiry_instant (clock_issue env1) (expires_in resp)) = true ->
    token_requests
      (trace (perform env2 op2 (final (perform env1 op1 c)))) = [] /\
    (forall req,
       In req (api_calls
                 (trace (perform env2 op2 (final (perform env1 op1 c))))) ->
       req_authorization req = "Bearer " ++ access_token resp) /\
    final (perform env2 op2 (final (perform env1 op1 c)))
    = final (perform env1 op1 c).
Proof.
  intros env1 env2 op1 op2 c resp Hstale Hresp Hne Hbefore.
  rewrite (perform_after_refresh env1 op1 c resp Hstale Hresp).
  assert (Hfresh : token_is_fresh (after_refresh env1 c resp)
                     (clock_check env2) = true).
  { unfold token_is_fresh.
    rewrite after_refresh_accessToken, after_refresh_tokenExpiry.
    apply str_truthy_iff in Hne. rewrite Hne. exact Hbefore. }
  pose proof (fresh_token_served env2 _ Hfresh) as Hget.
  split; [rewrite token_requests_perform, Hfresh; reflexivity|].
  split.
  - intros req Hin. rewrite perform_api_calls in Hin.
    destruct (api_request_of op2) as [[[[m path] params] body]|];
      [|contradiction].
    rewrite Hget in Hin. unfold outcome in Hin; simpl in Hin.
    destruct Hin as [<-|[]]. simpl.
    rewrite after_refresh_accessToken. reflexivity.
  - rewrite perform_final, Hget. reflexivity.
Qed.

Lemma token_serves_the_next_operation_witness :
  token_is_fresh example_client (clock_check (world "abc")) = false /\
  api_calls
    (trace (perform (later_world "other") (OpGetCustomer "42")
              (final (perform (world "abc")
                        (OpQueryCustomers zero_limit_options)
                        example_client))))
  = [{| req_method := GET;
        req_url :=
          "https://sandbox-quickbooks.api.intuit.com/v3/company/9341/customer/42";
        req_params := [];
        req_body := None;
        req_authorization := "Bearer abc" |}] /\
  token_requests
    (trace (perform (later_world "other") (OpGetCustomer "42")
              (final (perform (world "abc")
                        (OpQueryCustomers zero_limit_options)
                        example_client)))) = [].
Proof.
  split; [reflexivity|].
  assert (Hne : access_token (example_response "abc") <> "")
    by discriminate.
  destruct (token_serves_the_next_operation (world "abc")
              (later_world "other") (OpQueryCustomers zero_limit_options)
              (OpGetCustomer "42") example_client (example_response "abc")
              eq_refl eq_refl Hne eq_refl) as (Hnone & _ & _).
  split; [vm_compute; reflexivity|exact Hnone].
Defined.

(** X5.  With a non-empty token and a lifetime of a whole number of
    seconds [e >= 60], the token is served from the cache exactly until
    [issue time + (e - 60) * 1000] milliseconds: an operation started
    before that instant sends no grant, one started at or after it sends
    one. *)
Theorem token_cached_exactly_until_expiry :
  forall env env2 op1 op2 c resp seconds,
    token_is_fresh c (clock_check env) = false ->
    token_endpoint env (token_request c) = Ok resp ->
    access_token resp <> "" ->
    expires_in resp = num_of_Z seconds ->
    60 <= seconds ->
    0 <= clock_issue env ->
    clock_issue env + (seconds - 60) * 1000 <= 8640000000000000 ->
    0 <= clock_check env2 < 2 ^ 53 ->
    token_requests (trace (perform env2 op2 (final (perform env op1 c))))
    = if clock_check env2 <? clock_issue env + (seconds - 60) * 1000
      then []
      else [token_request (final (perform env op1 c))].
Proof.
  intros env env2 op1 op2 c resp seconds Hstale Hresp Hne He Hsec Hissue
    Hrange Hnow.
  assert (H53 : 2 ^ 53 = 9007199254740992) by reflexivity.
  rewrite token_requests_perform.
  rewrite (perform_after_refresh env op1 c resp Hstale Hresp).
  unfold token_is_fresh.
  rewrite after_refresh_accessToken, after_refresh_tokenExpiry, He.
  rewrite expiry_instant_int by assumption.
  rewrite num_lt_int by lia.
  apply str_truthy_iff in Hne. rewrite Hne. reflexivity.
Qed.

Lemma token_cached_exactly_until_expiry_witness :
  token_requests
    (trace (perform (example_env (t0 + 3540000) "new" (Ok JNull))
              (OpGetCustomer "42")
              (final (perform (world "abc") OpGetAccessToken
                        example_client))))
  = [{| token_url := tokenURL; basic_user := "client";
        basic_password := "secret"; grant_type := "refresh_token";
        grant_refresh_token := "xyz" |}] /\
  token_requests
    (trace (perform (example_env (t0 + 3539999) "new" (Ok JNull))
              (OpGetCustomer "42")
              (final (perform (world "abc") OpGetAccessToken
                        example_client))))
  = [].
Proof.
  assert (Hne : access_token (example_response "abc") <> "")
    by discriminate.
  assert (H53 : 2 ^ 53 = 9007199254740992) by reflexivity.
  split.
  - rewrite (token_cached_exactly_until_expiry (world "abc")
               (example_env (t0 + 3540000) "new" (Ok JNull))
               OpGetAccessToken (OpGetCustomer "42") example_client
               (example_response "abc") 3600 eq_refl eq_refl Hne eq_refl);
      unfold world, t0; simpl; try lia. reflexivity.
  - rewrite (token_cached_exactly_until_expiry (world "abc")
               (example_env (t0 + 3539999) "new" (Ok JNull))
               OpGetAccessToken (OpGetCustomer "42") example_client
               (example_response "abc") 3600 eq_refl eq_refl Hne eq_refl);
      unfold world, t0; simpl; try lia. reflexivity.
Defined.

Lemma expiry_instant_not_finite (issue : Z) (e : number) :
  match e with
  | S754_nan | S754_infinity _ => True
  | _ => False
  end ->
  expiry_instant issue e = NaN.
Proof.
  unfold expiry_instant, num_add, num_mul, num_sub.
  change (num_of_Z 60) with (S754_finite false 8444249301319680 (-47)).
  change (num_of_Z 1000) with (S754_finite false 8796093022208000 (-43)).
  destruct e as [s|s| |s m ex]; intro H; try contradiction; simpl.
  - destruct (num_of_Z issue) as [s1|s1| |s1 m1 e1]; simpl;
      try reflexivity; destruct s1, s; reflexivity.
  - destruct (num_of_Z issue); reflexivity.
Qed.

(** X6.  When the response carries no usable lifetime ([expires_in] is
    NaN, as when the property is missing, or infinite), the stored expiry
    is the Invalid Date and the token is never served from the cache:
    every later operation, whenever it starts, sends a grant again. *)
Theorem lifetime_not_finite_disables_the_cache :
  forall env env2 op1 op2 c resp,
    token_is_fresh c (clock_check env) = false ->
    token_endpoint env (token_request c) = Ok resp ->
    match expires_in resp with
    | S754_nan | S754_infinity _ => True
    | _ => False
    end ->
    tokenExpiry (final (perform env op1 c)) = NaN /\
    token_requests (trace (perform env2 op2 (final (perform env op1 c))))
    = [token_request (final (perform env op1 c))].
Proof.
  intros env env2 op1 op2 c resp Hstale Hresp Hlife.
  rewrite (perform_after_refresh env op1 c resp Hstale Hresp).
  assert (Hexp : tokenExpiry (after_refresh env c resp) = NaN).
  { rewrite after_refresh_tokenExpiry.
    apply expiry_instant_not_finite, Hlife. }
  split; [exact Hexp|].
  rewrite token_requests_perform. unfold token_is_fresh. rewrite Hexp.
  unfold num_lt, SFltb, SFcompare.
  destruct (num_of_Z (clock_check env2));
    rewrite andb_false_r; reflexivity.
Qed.

Lemma lifetime_not_finite_disables_the_cache_witness :
  token_is_fresh example_client (clock_check (no_lifetime_world t0)) = false /\
  token_requests
    (trace (perform (no_lifetime_world (t0 + 1)) (OpGetCustomer "42")
              (final (perform (no_lifetime_world t0) OpGetAccessToken
                        example_client))))
  = [{| token_url := tokenURL; basic_user := "client";
        basic_password := "secret"; grant_type := "refresh_token";
        grant_refresh_token := "old" |}].
Proof.
  split; [reflexivity|].
  destruct (lifetime_not_finite_disables_the_cache (no_lifetime_world t0)
              (no_lifetime_world (t0 + 1)) OpGetAccessToken
              (OpGetCustomer "42") example_client
              {| access_token := "abc"; refresh_token := None;
                 expires_in := NaN |} eq_refl eq_refl I) as [_ Hgrant].
  rewrite Hgrant. reflexivity.
Defined.

(** X7.  The grant that follows a successful exchange carries the
    client's id and secret as before and, as refresh token, the one the
    exchange returned when it returned a non-empty one, the previous one
    otherwise. *)
Theorem next_grant_uses_the_rotated_token :
  forall env env2 op1 op2 c resp,
    token_is_fresh c (clock_check env) = false ->
    token_endpoint env (token_request c) = Ok resp ->
    token_is_fresh (final (perform env op1 c)) (clock_check env2) = false ->
    token_requests (trace (perform env2 op2 (final (perform env op1 c))))
    = [next_grant c resp].
Proof.
  intros env env2 op1 op2 c resp Hstale Hresp Hstale2.
  rewrite token_requests_perform, Hstale2.
  rewrite (perform_after_refresh env op1 c resp Hstale Hresp).
  unfold token_request, next_grant.
  destruct (after_refresh_config env c resp) as (-> & -> & _ & _ & ->).
  destruct (refresh_token resp) as [r|]; [|reflexivity].
  rewrite eqb_empty_truthy. destruct (str_truthy r); reflexivity.
Qed.

Lemma next_grant_uses_the_rotated_token_witness :
  token_is_fresh example_client (clock_check (world "abc")) = false /\
  token_is_fresh
    (final (perform (world "abc") OpGetAccessToken example_client))
    (clock_check (example_env (t0 + 3600000) "new" (Ok JNull))) = false /\
  token_requests
    (trace (perform (example_env (t0 + 3600000) "new" (Ok JNull))
              (OpGetCustomer "42")
              (final (perform (world "abc") OpGetAccessToken
                        example_client))))
  = [{| token_url := tokenURL; basic_user := "client";
        basic_password := "secret"; grant_type := "refresh_token";
        grant_refresh_token := "xyz" |}].
Proof.
  assert (H2 : token_is_fresh
                 (final (perform (world "abc") OpGetAccessToken
                           example_client))
                 (clock_check (example_env (t0 + 3600000) "new" (Ok JNull)))
               = false) by (vm_compute; reflexivity).
  split; [reflexivity|]. split; [exact H2|].
  rewrite (next_grant_uses_the_rotated_token (world "abc")
             (example_env (t0 + 3600000) "new" (Ok JNull))
             OpGetAccessToken (OpGetCustomer "42") example_client
             (example_response "abc") eq_refl eq_refl H2).
  reflexivity.
Defined.

(** ** A lifetime shorter than the safety margin *)

Lemma num_of_Z_neg (P : positive) :
  Zpos P < 2 ^ 53 -> num_of_Z (Zneg P) = canonical true P.
Proof.
  intro H. unfold num_of_Z, binary_normalize.
  apply (round_integer true P 0); [apply digits_le, H|lia].
Qed.

Lemma same_number_eq (x y : number) : same_number x y = true -> x = y.
Proof.
  destruct x as [a|a| |s m e], y as [b|b| |s' m' e']; simpl; intro H;
    try discriminate H; try reflexivity.
  - apply Bool.eqb_prop in H. congruence.
  - apply Bool.eqb_prop in H. congruence.
  - apply andb_true_iff in H. destruct H as [H He].
    apply andb_true_iff in H. destruct H as [Hs Hm].
    apply Bool.eqb_prop in Hs. apply Pos.eqb_eq in Hm. apply Z.eqb_eq in He.
    congruence.
Qed.

Lemma short_lifetimes_checked :
  forallb
    (fun s =>
       same_number
         (num_mul (num_sub (num_of_Z s) (num_of_Z 60)) (num_of_Z 1000))
         (num_of_Z ((s - 60) * 1000)))
    (whole_numbers_below 60) = true.
Proof. vm_compute. reflexivity. Qed.

Lemma num_add_negative (a k : Z) :
  0 < k -> k <= a -> a < 2 ^ 53 ->
  num_add (num_of_Z a) (num_of_Z (- k)) = num_of_Z (a - k).
Proof.
  intros Hk Hka Ha.
  rewrite <- (num_sub_int a k) by lia.
  destruct a as [|P|P]; try lia. destruct k as [|Q|Q]; try lia.
  change (- Zpos Q) with (Zneg Q).
  rewrite (num_of_Z_pos P), (num_of_Z_pos Q), (num_of_Z_neg Q) by lia.
  reflexivity.
Qed.

Lemma expiry_instant_short (issue seconds : Z) :
  0 <= seconds < 60 ->
  60000 <= issue <= 8640000000000000 ->
  expiry_instant issue (num_of_Z seconds)
  = num_of_Z (issue + (seconds - 60) * 1000).
Proof.
  intros Hsec Hissue.
  assert (H53 : 2 ^ 53 = 9007199254740992) by reflexivity.
  pose proof short_lifetimes_checked as Hall.
  rewrite forallb_forall in Hall.
  assert (Hin : In seconds (whole_numbers_below 60)).
  { unfold whole_numbers_below. apply in_map_iff.
    exists (Z.to_nat seconds). split; [lia|]. apply in_seq. lia. }
  unfold expiry_instant.
  rewrite (same_number_eq _ _ (Hall seconds Hin)).
  replace ((seconds - 60) * 1000) with (- ((60 - seconds) * 1000)) by ring.
  rewrite num_add_negative by lia.
  replace (issue + - ((60 - seconds) * 1000))
    with (issue - (60 - seconds) * 1000) by ring.
  apply TimeClip_int. lia.
Qed.

(** X8.  A token whose lifetime is a whole number of seconds not above
    the 60 seconds of the safety margin is never served from the cache:
    its stored expiry is not after its time of issue, and every
    operation that starts at or after that time sends a grant again. *)
Theorem short_lifetime_is_never_cached :
  forall env env2 op1 op2 c resp seconds,
    token_is_fresh c (clock_check env) = false ->
    token_endpoint env (token_request c) = Ok resp ->
    expires_in resp = num_of_Z seconds ->
    0 <= seconds <= 60 ->
    60000 <= clock_issue env <= 8640000000000000 ->
    clock_issue env <= clock_check env2 < 2 ^ 53 ->
    tokenExpiry (final (perform env op1 c))
    = num_of_Z (clock_issue env - (60 - seconds) * 1000) /\
    token_requests (trace (perform env2 op2 (final (perform env op1 c))))
    = [token_request (final (perform env op1 c))].
Proof.
  intros env env2 op1 op2 c resp seconds Hstale Hresp He Hsec Hissue Hnow.
  assert (H53 : 2 ^ 53 = 9007199254740992) by reflexivity.
  rewrite (perform_after_refresh env op1 c resp Hstale Hresp).
  assert (Hexp : tokenExpiry (after_refresh env c resp)
                 = num_of_Z (clock_issue env - (60 - seconds) * 1000)).
  { rewrite after_refresh_tokenExpiry, He.
    replace (clock_issue env - (60 - seconds) * 1000)
      with (clock_issue env + (seconds - 60) * 1000) by ring.
    destruct (Z.eq_dec seconds 60) as [->|Hne].
    - apply expiry_instant_int; lia.
    - apply expiry_instant_short; lia. }
  split; [exact Hexp|].
  rewrite token_requests_perform. unfold token_is_fresh. rewrite Hexp.
  rewrite num_lt_int by lia.
  replace (clock_check env2 <? clock_issue env - (60 - seconds) * 1000)
    with false by (symmetry; apply Z.ltb_ge; lia).
  rewrite andb_false_r. reflexivity.
Qed.

Lemma short_lifetime_is_never_cached_witness :
  token_requests
    (trace (perform (short_lived_world t0) (OpGetCustomer "42")
              (final (perform (short_lived_world t0) OpGetAccessToken
                        example_client))))
  = [{| token_url := tokenURL; basic_user := "client";
        basic_password := "secret"; grant_type := "refresh_token";
        grant_refresh_token := "old" |}].
Proof.
  assert (H53 : 2 ^ 53 = 9007199254740992) by reflexivity.
  destruct (short_lifetime_is_never_cached (short_lived_world t0)
              (short_lived_world t0) OpGetAccessToken (OpGetCustomer "42")
              example_client
              {| access_token := "abc"; refresh_token := None;
                 expires_in := num_of_Z 30 |} 30 eq_refl eq_refl eq_refl)
    as [_ Hgrant];
    [lia|unfold short_lived_world, t0; simpl; lia
    |unfold short_lived_world, t0; simpl; lia|].
  rewrite Hgrant. reflexivity.
Defined.

(** ** Bills and accounts *)

Lemma bill_conditions_parts (o : BillOptions) :
  bill_conditions o
  = (vendor_ref_predicate (bill_vendorId o)
     ++ bill_status_predicate (bill_status o))%list.
Proof.
  destruct o as [l f v st]; simpl.
  destruct v as [[|a s]|], st as [[| |]|]; reflexivity.
Qed.

(** X9.  The conditions of [queryBills] are VendorRef = '<id>' for a
    non-empty vendor id taken as it is, followed by Balance > '0' for the
    status "unpaid" and Balance = '0' for "paid" ("all" and no status
    add nothing); the query sent is built from them, with limit 100 and
    offset 0 by default. *)
Theorem queryBills_conditions :
  (forall o : BillOptions,
     bill_conditions o
     = (vendor_ref_predicate (bill_vendorId o)
        ++ bill_status_predicate (bill_status o))%list) /\
  (forall env o c,
     issued_sql (trace (queryBills env o c))
     = if authenticates env c
       then [expected_sql "Bill"
               (vendor_ref_predicate (bill_vendorId o)
                ++ bill_status_predicate (bill_status o))
               (opt_num_or (bill_limit o) (num_of_Z 100))
               (opt_num_or (bill_offset o) (num_of_Z 0))]
       else []) /\
  (forall env c,
     issued_sql (trace (queryBills env example_bill_options c))
     = if authenticates env c
       then ["SELECT * FROM Bill WHERE VendorRef = '56' AND Balance > '0' STARTPOSITION 1 MAXRESULTS 100"]
       else []).
Proof.
  assert (Hsql : forall env o c,
            issued_sql (trace (queryBills env o c))
            = if authenticates env c
              then [expected_sql "Bill" (bill_conditions o)
                      (opt_num_or (bill_limit o) (num_of_Z 100))
                      (opt_num_or (bill_offset o) (num_of_Z 0))]
              else []).
  { intros env o c. rewrite <- (trace_fmap RValue).
    exact (list_operation_issued_sql env (ListBills o) c). }
  split; [exact bill_conditions_parts|].
  split.
  { intros env o c. rewrite Hsql, bill_conditions_parts. reflexivity. }
  intros env c. rewrite Hsql.
  destruct (authenticates env c); [|reflexivity].
  f_equal; vm_compute; reflexivity.
Qed.

(** X10.  Every query of [queryAccounts] filters on Active = true: no
    option switches the filter off, and the WHERE clause is never
    absent.  A non-empty account type adds AND AccountType = '<type>'. *)
Theorem queryAccounts_always_filters_active :
  forall env o c,
    issued_sql (trace (queryAccounts env o c))
    = if authenticates env c
      then ["SELECT * FROM Account WHERE Active = true"
              ++ account_type_clause (acc_accountType o)
              ++ " STARTPOSITION "
              ++ Number_toString
                   (num_add (opt_num_or (acc_offset o) (num_of_Z 0))
                      (num_of_Z 1))
              ++ " MAXRESULTS "
              ++ Number_toString (opt_num_or (acc_limit o) (num_of_Z 1000))]
      else [].
Proof.
  intros env o c. rewrite <- (trace_fmap RValue).
  change (fmap RValue (queryAccounts env o) c)
    with (perform env (list_operation (ListAccounts o)) c).
  rewrite list_operation_issued_sql.
  destruct (authenticates env c); [|reflexivity].
  f_equal. unfold expected_sql, effective_limit, effective_offset.
  destruct o as [t l f]; simpl.
  destruct t as [[|a s]|]; reflexivity.
Qed.

(** ** What the operations return *)

Lemma outcome_fmap {A B} (f : A -> B) (m : M A) c :
  outcome (fmap f m c)
  = match outcome (m c) with
    | Ok a => Ok (f a)
    | Throw e => Throw e
    end.
Proof.
  unfold fmap, bind, ret, outcome.
  destruct (m c) as [[[a|e] c1] t1]; reflexivity.
Qed.

Lemma answered_authenticates env op c body :
  request_answers env op c body -> authenticates env c = true.
Proof.
  unfold request_answers, authenticates.
  destruct (api_request_of op) as [[[[m path] params] b]|]; [|contradiction].
  rewrite api_request_cases. unfold outcome.
  destruct (getAccessToken env c) as [[[token|e] c1] t1]; simpl;
    [reflexivity|discriminate].
Qed.

Lemma extract_entities_in (entityType : string) (body : any) :
  extract_entities entityType body
  = match entities_in entityType body with
    | Some v => Ok (RValue v)
    | None => Throw TypeError
    end.
Proof.
  unfold extract_entities, entities_in, any_or.
  destruct (nullish body) eqn:Hbody; simpl.
  - destruct body; try discriminate Hbody; reflexivity.
  - rewrite (member_not_nullish body _ Hbody). simpl.
    destruct (nullish (opt_member body "QueryResponse")) eqn:Hq.
    + destruct (opt_member body "QueryResponse"); try discriminate Hq;
        reflexivity.
    + rewrite (member_not_nullish _ _ Hq). reflexivity.
Qed.

Lemma on_response_list (op : ListOperation) (body : any) :
  on_response (list_operation op) body = extract_entities (entity_of op) body.
Proof. destruct op; reflexivity. Qed.

Lemma lookup_absent (k : string) (ms : list (string * any)) :
  has_key k ms = false -> lookup k ms = JUndefined.
Proof.
  induction ms as [|[k' v] ms IH]; simpl; intro H; [reflexivity|].
  apply orb_false_iff in H. destruct H as [Hk Hms].
  rewrite Hk. apply IH, Hms.
Qed.

(** X11.  When its request is answered with a body, a list operation
    (customers, invoices, accounts, vendors, bills) returns the entities
    found under QueryResponse; when QueryResponse has no such member, as
    when no entity matches, it returns the empty array and not
    [undefined]: what it returns is never falsy.  When the body is
    [null] or has no QueryResponse, it throws a TypeError. *)
Theorem list_operation_returns_entities :
  forall env op c body,
    request_answers env (list_operation op) c body ->
    outcome (perform env (list_operation op) c)
    = match entities_in (entity_of op) body with
      | Some v => Ok (RValue v)
      | None => Throw TypeError
      end /\
    (forall v,
       outcome (perform env (list_operation op) c) = Ok (RValue v) ->
       truthy v = true) /\
    (forall ms,
       opt_member body "QueryResponse" = JObj ms ->
       has_key (entity_of op) ms = false ->
       outcome (perform env (list_operation op) c) = Ok (RValue (JArr []))) /\
    (nullish (opt_member body "QueryResponse") = true ->
     outcome (perform env (list_operation op) c) = Throw TypeError).
Proof.
  intros env op c body Hans.
  assert (Hout : outcome (perform env (list_operation op) c)
                 = match entities_in (entity_of op) body with
                   | Some v => Ok (RValue v)
                   | None => Throw TypeError
                   end).
  { rewrite (perform_answered env _ c body Hans), on_response_list.
    apply extract_entities_in. }
  split; [exact Hout|]. rewrite Hout. clear Hout Hans.
  split; [|split].
  - intros v Hv. unfold entities_in in Hv.
    destruct (nullish body || nullish (opt_member body "QueryResponse"));
      [discriminate|].
    destruct (truthy (opt_member (opt_member body "QueryResponse")
                        (entity_of op))) eqn:Ht;
      injection Hv as <-; [exact Ht|reflexivity].
  - intros ms Hq Habsent. unfold entities_in. rewrite Hq.
    destruct body; try discriminate Hq. simpl.
    rewrite (lookup_absent _ _ Habsent). reflexivity.
  - intro Hq. unfold entities_in. rewrite Hq, orb_true_r. reflexivity.
Qed.

Lemma list_operation_returns_entities_witness :
  request_answers (answering t0 empty_body)
    (list_operation (ListBills example_bill_options)) example_client
    empty_body /\
  outcome (perform (answering t0 empty_body)
             (list_operation (ListBills example_bill_options))
             example_client)
  = Ok (RValue (JArr [])).
Proof.
  assert (Hans : request_answers (answering t0 empty_body)
                   (list_operation (ListBills example_bill_options))
                   example_client empty_body) by reflexivity.
  split; [exact Hans|].
  destruct (list_operation_returns_entities (answering t0 empty_body)
              (ListBills example_bill_options) example_client empty_body
              Hans) as (_ & _ & Hempty & _).
  apply (Hempty []); reflexivity.
Defined.

(** X12.  When its request is answered, [getCustomer] returns the
    Customer member of the body, [undefined] when the body has none; a
    body that is [null] or [undefined] gives [null], like a request that
    failed. *)
Theorem getCustomer_returns_customer_member :
  forall env id c body,
    request_answers env (OpGetCustomer id) c body ->
    outcome (getCustomer env id c)
    = Ok (if nullish body then JNull else opt_member body "Customer").
Proof.
  intros env id c body Hans.
  pose proof (perform_answered env _ c body Hans) as Hout.
  simpl in Hout. rewrite outcome_fmap in Hout.
  destruct (outcome (getCustomer env id c)) as [v|e].
  - destruct (nullish body) eqn:Hbody.
    + destruct body; try discriminate Hbody; simpl in Hout; congruence.
    + rewrite (member_not_nullish body _ Hbody) in Hout. congruence.
  - destruct (member body "Customer"); discriminate Hout.
Qed.

Lemma getCustomer_returns_customer_member_witness :
  request_answers (answering t0 customer_body) (OpGetCustomer "42")
    example_client customer_body /\
  outcome (getCustomer (answering t0 customer_body) "42" example_client)
  = Ok (JObj [("Id", JStr "42"); ("DisplayName", JStr "Ann")]).
Proof.
  assert (Hans : request_answers (answering t0 customer_body)
                   (OpGetCustomer "42") example_client customer_body)
    by reflexivity.
  split; [exact Hans|].
  rewrite (getCustomer_returns_customer_member (answering t0 customer_body)
             "42" example_client customer_body Hans).
  reflexivity.
Defined.

(** X13.  When the API answers the POST of [createInvoice], the
    operation returns the Invoice member of the body ([undefined] when
    there is none).  When the answer has no body, it throws a TypeError,
    although the invoice has been posted. *)
Theorem createInvoice_returns_invoice_member :
  forall env data c body,
    request_answers env (OpCreateInvoice data) c body ->
    posted_bodies (api_calls (trace (createInvoice env data c)))
    = [invoice_data data] /\
    outcome (createInvoice env data c)
    = if nullish body then Throw TypeError
      else Ok (opt_member body "Invoice").
Proof.
  intros env data c body Hans.
  split.
  { rewrite createInvoice_posted.
    rewrite (answered_authenticates env _ c body Hans). reflexivity. }
  pose proof (perform_answered env _ c body Hans) as Hout.
  simpl in Hout. rewrite outcome_fmap in Hout.
  destruct (nullish body) eqn:Hbody.
  - destruct body; try discriminate Hbody; simpl in Hout;
      destruct (outcome (createInvoice env data c)); congruence.
  - rewrite (member_not_nullish body _ Hbody) in Hout. simpl in Hout.
    destruct (outcome (createInvoice env data c)); congruence.
Qed.

Lemma createInvoice_returns_invoice_member_witness :
  request_answers (world "abc") (OpCreateInvoice dated_invoice)
    example_client JNull /\
  posted_bodies
    (api_calls (trace (createInvoice (world "abc") dated_invoice
                         example_client)))
  = [invoice_data dated_invoice] /\
  outcome (createInvoice (world "abc") dated_invoice example_client)
  = Throw TypeError.
Proof.
  assert (Hans : request_answers (world "abc")
                   (OpCreateInvoice dated_invoice) example_client JNull)
    by reflexivity.
  split; [exact Hans|].
  exact (createInvoice_returns_invoice_member (world "abc") dated_invoice
           example_client JNull Hans).
Defined.

(** ** Decimal numerals

    [String(n)] and a template literal turn a number into a string by
    Number::toString.  On a whole number below 10^15 the result is the
    decimal numeral. *)

Lemma of_list_snoc_rev (d : Decimal.uint) (x : DecimalFacts.digits) :
  Decimal.rev (Decimal.app d (DecimalFacts.of_list [x]))
  = DecimalFacts.of_list (x :: DecimalFacts.to_list (Decimal.rev d)).
Proof.
  apply DecimalFacts.to_list_inj.
  rewrite DecimalFacts.rev_spec, DecimalFacts.app_spec,
    !DecimalFacts.to_list_of_list, DecimalFacts.rev_spec.
  rewrite rev_app_distr. reflexivity.
Qed.

Lemma of_uint_snoc (d : Decimal.uint) (r : Z) :
  0 <= r < 10 ->
  N.of_uint (Decimal.app d (DecimalFacts.of_list [digit_of r]))
  = (Z.to_N r + 10 * N.of_uint d)%N.
Proof.
  intro Hr. unfold N.of_uint.
  rewrite !DecimalPos.Unsigned.of_uint_alt, of_list_snoc_rev.
  rewrite <- (DecimalFacts.of_list_to_list (Decimal.rev d)) at 2.
  assert (Hcases : r = 0 \/ r = 1 \/ r = 2 \/ r = 3 \/ r = 4 \/ r = 5
                   \/ r = 6 \/ r = 7 \/ r = 8 \/ r = 9) by lia.
  destruct Hcases as [->|[->|[->|[->|[->|[->|[->|[->|[->| ->]]]]]]]]];
    reflexivity.
Qed.

Lemma to_uint_head (p : positive) :
  exists h t,
    DecimalFacts.to_list (Pos.to_uint p) = h :: t /\ h <> DecimalFacts.d0.
Proof.
  pose proof (DecimalPos.Unsigned.to_of (Pos.to_uint p)) as Hnorm.
  rewrite DecimalPos.Unsigned.of_to in Hnorm. simpl in Hnorm.
  pose proof (DecimalPos.Unsigned.to_uint_nonzero p) as Hnz.
  assert (Hl : DecimalFacts.to_list (Pos.to_uint p)
               = DecimalFacts.lunorm (DecimalFacts.to_list (Pos.to_uint p))).
  { rewrite <- DecimalFacts.unorm_spec, <- Hnorm. reflexivity. }
  unfold DecimalFacts.lunorm in Hl.
  destruct (DecimalFacts.lnzhead (DecimalFacts.to_list (Pos.to_uint p)))
    as [|h t] eqn:Hhead.
  - exfalso. apply Hnz. apply DecimalFacts.to_list_inj. rewrite Hl.
    reflexivity.
  - exists h, t. split; [exact Hl|].
    intros ->. rewrite Hl in Hhead.
    exact (DecimalFacts.lnzhead_neq_d0_head _ _ Hhead).
Qed.

Lemma to_uint_snoc (q : N) (r : Z) :
  (0 < q)%N -> 0 <= r < 10 ->
  N.to_uint (Z.to_N r + 10 * q)
  = Decimal.app (N.to_uint q) (DecimalFacts.of_list [digit_of r]).
Proof.
  intros Hq Hr.
  rewrite <- (DecimalN.Unsigned.of_to q) at 1.
  rewrite <- of_uint_snoc by exact Hr.
  rewrite DecimalN.Unsigned.to_of.
  apply DecimalFacts.to_list_inj.
  rewrite DecimalFacts.unorm_spec, DecimalFacts.app_spec,
    DecimalFacts.to_list_of_list.
  destruct q as [|p]; [lia|].
  destruct (to_uint_head p) as (h & t & Hl & Hh).
  change (N.to_uint (Npos p)) with (Pos.to_uint p). rewrite Hl.
  unfold DecimalFacts.lunorm. simpl app.
  rewrite (DecimalFacts.lnzhead_head_nd0 h _ Hh). reflexivity.
Qed.

Lemma string_of_list_app (l1 l2 : list DecimalFacts.digits) :
  NilEmpty.string_of_uint (DecimalFacts.of_list (l1 ++ l2))
  = NilEmpty.string_of_uint (DecimalFacts.of_list l1)
    ++ NilEmpty.string_of_uint (DecimalFacts.of_list l2).
Proof.
  induction l1 as [|a l IH]; [reflexivity|].
  destruct a; simpl; rewrite IH; reflexivity.
Qed.

Lemma string_of_uint_snoc (d : Decimal.uint) (r : Z) :
  d <> Decimal.Nil -> 0 <= r < 10 ->
  NilZero.string_of_uint
    (Decimal.app d (DecimalFacts.of_list [digit_of r]))
  = NilZero.string_of_uint d ++ String (digit_char r) "".
Proof.
  intros Hd Hr.
  assert (Happ : Decimal.app d (DecimalFacts.of_list [digit_of r])
                 = DecimalFacts.of_list
                     (DecimalFacts.to_list d ++ [digit_of r])).
  { apply DecimalFacts.to_list_inj.
    rewrite DecimalFacts.app_spec, !DecimalFacts.to_list_of_list.
    reflexivity. }
  rewrite Happ.
  assert (Hnil : forall l a,
            NilZero.string_of_uint (DecimalFacts.of_list (a :: l))
            = NilEmpty.string_of_uint (DecimalFacts.of_list (a :: l))).
  { intros l a. destruct a; reflexivity. }
  destruct (DecimalFacts.to_list d) as [|a l] eqn:Hl.
  { exfalso. apply Hd. apply DecimalFacts.to_list_inj. rewrite Hl.
    reflexivity. }
  simpl app. rewrite Hnil.
  change (a :: l ++ [digit_of r]) with ((a :: l) ++ [digit_of r])%list.
  rewrite string_of_list_app.
  rewrite <- Hnil, <- Hl, DecimalFacts.of_list_to_list.
  f_equal.
  assert (Hcases : r = 0 \/ r = 1 \/ r = 2 \/ r = 3 \/ r = 4 \/ r = 5
                   \/ r = 6 \/ r = 7 \/ r = 8 \/ r = 9) by lia.
  destruct Hcases as [->|[->|[->|[->|[->|[->|[->|[->|[->| ->]]]]]]]]];
    reflexivity.
Qed.

(** The numeral of [10 z + r] is the numeral of [z] followed by the
    digit [r]. *)
Lemma digits_step (z r : Z) :
  0 < z -> 0 <= r < 10 ->
  digits_of_Z (10 * z + r) = digits_of_Z z ++ String (digit_char r) "".
Proof.
  intros Hz Hr. unfold digits_of_Z.
  replace (Z.to_N (10 * z + r)) with (Z.to_N r + 10 * Z.to_N z)%N by lia.
  rewrite to_uint_snoc by lia.
  apply string_of_uint_snoc; [|exact Hr].
  destruct (Z.to_N z) as [|p] eqn:Hp; [lia|].
  apply DecimalPos.Unsigned.to_uint_nonnil.
Qed.

Lemma digits_small (r : Z) :
  0 <= r < 10 -> digits_of_Z r = String (digit_char r) "".
Proof.
  intro Hr.
  assert (Hcases : r = 0 \/ r = 1 \/ r = 2 \/ r = 3 \/ r = 4 \/ r = 5
                   \/ r = 6 \/ r = 7 \/ r = 8 \/ r = 9) by lia.
  destruct Hcases as [->|[->|[->|[->|[->|[->|[->|[->|[->| ->]]]]]]]]];
    reflexivity.
Qed.

Lemma string_length_app (a b : string) :
  String.length (a ++ b) = (String.length a + String.length b)%nat.
Proof. induction a as [|c a IH]; simpl; [reflexivity|]. rewrite IH. reflexivity. Qed.

Lemma zeros_snoc (t : nat) : zeros t ++ "0" = zeros (S t).
Proof. induction t as [|t IH]; simpl; [reflexivity|]. rewrite IH. reflexivity. Qed.

Lemma zeros_length (t : nat) : String.length (zeros t) = t.
Proof. induction t as [|t IH]; simpl; [reflexivity|]. rewrite IH. reflexivity. Qed.

(** Multiplying by a power of ten appends zeros. *)
Lemma digits_pow10 (z : Z) (t : nat) :
  0 < z ->
  digits_of_Z (z * 10 ^ Z.of_nat t) = digits_of_Z z ++ zeros t.
Proof.
  intro Hz. induction t as [|t IH].
  - simpl. rewrite Z.mul_1_r, string_app_nil_r. reflexivity.
  - rewrite Nat2Z.inj_succ, Z.pow_succ_r by lia.
    replace (z * (10 * 10 ^ Z.of_nat t))
      with (10 * (z * 10 ^ Z.of_nat t) + 0) by ring.
    assert (Hpos : 0 < 10 ^ Z.of_nat t) by (apply Z.pow_pos_nonneg; lia).
    rewrite digits_step by nia.
    rewrite IH, string_app_assoc.
    change (String (digit_char 0) "") with "0".
    rewrite zeros_snoc. reflexivity.
Qed.

(** The length of a numeral places the number between two powers of
    ten. *)
Lemma digits_length_bounds (z : Z) :
  0 < z ->
  10 ^ (Z.of_nat (String.length (digits_of_Z z)) - 1) <= z
  < 10 ^ Z.of_nat (String.length (digits_of_Z z)).
Proof.
  intro Hz. assert (H0 : 0 <= z) by lia. revert Hz.
  pattern z. apply Z_lt_induction; [|exact H0]. clear z H0.
  intros z IH Hz.
  destruct (Z.ltb_spec z 10) as [Hsmall|Hbig].
  - rewrite digits_small by lia. simpl. lia.
  - pose proof (Z.div_mod z 10 ltac:(lia)) as Hdm.
    pose proof (Z.mod_pos_bound z 10 ltac:(lia)) as Hr.
    assert (Hq : 0 < z / 10) by (apply Z.div_str_pos; lia).
    assert (Hd : digits_of_Z z
                 = digits_of_Z (z / 10) ++ String (digit_char (z mod 10)) "").
    { rewrite Hdm at 1. apply digits_step; lia. }
    rewrite Hd, string_length_app. simpl String.length.
    specialize (IH (z / 10) ltac:(lia) Hq).
    set (l := String.length (digits_of_Z (z / 10))) in *.
    replace (Z.of_nat (l + 1)) with (Z.of_nat l + 1) by lia.
    replace (Z.of_nat l + 1 - 1) with (Z.of_nat l - 1 + 1)  by lia.
    assert (Hl : 1 <= Z.of_nat l).
    { destruct l; [|lia]. simpl in IH. lia. }
    rewrite !Z.pow_add_r by lia.
    change (10 ^ 1) with 10.
    lia.
Qed.

Lemma strip_trailing_zeros_snoc (a : string) (r : Z) :
  1 <= r < 10 ->
  strip_trailing_zeros (a ++ String (digit_char r) "")
  = a ++ String (digit_char r) "".
Proof.
  intro Hr. unfold strip_trailing_zeros.
  rewrite rev_string_acc_app. simpl rev_string_acc at 2.
  assert (Hdrop : forall X,
            drop_leading_zeros (String (digit_char r) X)
            = String (digit_char r) X).
  { intro X.
    assert (Hcases : r = 1 \/ r = 2 \/ r = 3 \/ r = 4 \/ r = 5
                     \/ r = 6 \/ r = 7 \/ r = 8 \/ r = 9) by lia.
    destruct Hcases as [->|[->|[->|[->|[->|[->|[->|[->| ->]]]]]]]];
      reflexivity. }
  rewrite Hdrop. simpl rev_string_acc at 1.
  rewrite rev_string_acc_twice. reflexivity.
Qed.

(** A numeral that does not end in 0 has no trailing zeros to strip. *)
Lemma strip_trailing_zeros_digits (z : Z) :
  0 < z -> z mod 10 <> 0 ->
  strip_trailing_zeros (digits_of_Z z) = digits_of_Z z.
Proof.
  intros Hz Hmod.
  pose proof (Z.mod_pos_bound z 10 ltac:(lia)) as Hr.
  destruct (Z.ltb_spec z 10) as [Hsmall|Hbig].
  - rewrite digits_small by lia.
    apply (strip_trailing_zeros_snoc "" z). lia.
  - pose proof (Z.div_mod z 10 ltac:(lia)) as Hdm.
    assert (Hq : 0 < z / 10) by (apply Z.div_str_pos; lia).
    assert (Hd : digits_of_Z z
                 = digits_of_Z (z / 10) ++ String (digit_char (z mod 10)) "").
    { rewrite Hdm at 1. apply digits_step; lia. }
    rewrite Hd. apply strip_trailing_zeros_snoc. lia.
Qed.

(** Whole numbers below 2^53 compare as their doubles do. *)
Lemma num_compare_int (a b : Z) :
  0 < a < 2 ^ 53 -> 0 < b < 2 ^ 53 ->
  SFcompare (num_of_Z a) (num_of_Z b) = Some (a ?= b).
Proof.
  intros Ha Hb.
  destruct a as [|P|P]; try lia. destruct b as [|Q|Q]; try lia.
  rewrite (num_of_Z_pos P), (num_of_Z_pos Q) by lia.
  unfold canonical, SFcompare.
  pose proof (digits_bounds P) as [HPlo HPhi].
  pose proof (digits_bounds Q) as [HQlo HQhi].
  set (dP := Zpos (digits2_pos P)) in *.
  set (dQ := Zpos (digits2_pos Q)) in *.
  assert (HdP : dP <= 53) by (apply digits_le; lia).
  assert (HdQ : dQ <= 53) by (apply digits_le; lia).
  destruct (Z.compare_spec (dP - 53) (dQ - 53)) as [Heq|Hlt|Hgt].
  - assert (HdPQ : dP = dQ) by lia. rewrite HdPQ.
    change (Pos.compare_cont Eq (shift_pos P (53 - dQ))
              (shift_pos Q (53 - dQ)))
      with (Z.compare (Zpos (shift_pos P (53 - dQ)))
              (Zpos (shift_pos Q (53 - dQ)))).
    rewrite !Zpos_shift_pos by lia.
    assert (Hpow : 0 < 2 ^ (53 - dQ)) by (apply Z.pow_pos_nonneg; lia).
    f_equal.
    destruct (Z.compare_spec (Zpos P) (Zpos Q)) as [He|Hl|Hg].
    + rewrite He. apply Z.compare_refl.
    + apply Z.compare_lt_iff. apply Z.mul_lt_mono_pos_r; assumption.
    + apply Z.compare_gt_iff. apply Z.mul_lt_mono_pos_r; assumption.
  - assert (Hpow : 2 ^ dP <= 2 ^ (dQ - 1))
      by (apply Z.pow_le_mono_r; lia).
    f_equal. symmetry. apply Z.compare_lt_iff. lia.
  - assert (Hpow : 2 ^ dQ <= 2 ^ (dP - 1))
      by (apply Z.pow_le_mono_r; lia).
    f_equal. symmetry. apply Z.compare_gt_iff. lia.
Qed.

Lemma num_eqb_int (a b : Z) :
  0 < a < 2 ^ 53 -> 0 < b < 2 ^ 53 ->
  num_eqb (num_of_Z a) (num_of_Z b) = (a =? b).
Proof.
  intros Ha Hb. unfold num_eqb, SFeqb.
  rewrite num_compare_int by assumption.
  destruct (Z.eqb_spec a b) as [->|Hne].
  - rewrite Z.compare_refl. reflexivity.
  - destruct (a ?= b) eqn:Hc; try reflexivity.
    apply Z.compare_eq in Hc. contradiction.
Qed.

Lemma num_of_decimal_whole (c w : Z) :
  0 < c -> 0 <= w -> num_of_decimal false c w = num_of_Z (c * 10 ^ w).
Proof.
  intros Hc Hw. unfold num_of_decimal.
  destruct c as [|p|p]; try lia.
  assert (Hleb : (0 <=? w) = true) by (apply Z.leb_le; exact Hw).
  rewrite Hleb.
  assert (Hpos : 0 < Zpos p * 10 ^ w).
  { apply Z.mul_pos_pos; [lia|apply Z.pow_pos_nonneg; lia]. }
  destruct (Zpos p * 10 ^ w) as [|q|q] eqn:Hq; try lia.
  reflexivity.
Qed.

Lemma shortest_digits_step fuel k num den n x :
  shortest_digits (S fuel) k num den n x
  = let sc := k - n in
    let '(a, b) :=
      if 0 <=? sc then (num * 10 ^ sc, den) else (num, den * 10 ^ (- sc)) in
    let lo := a / b in
    let hi := lo + 1 in
    let ok_lo := (0 <? lo) && num_eqb (num_of_decimal false lo (n - k)) x in
    let ok_hi := num_eqb (num_of_decimal false hi (n - k)) x in
    match ok_lo, ok_hi with
    | true, true =>
        if (2 * a <? (2 * lo + 1) * b)
           || ((2 * a =? (2 * lo + 1) * b) && Z.even lo)
        then (lo, n - k) else (hi, n - k)
    | true, false => (lo, n - k)
    | false, true => (hi, n - k)
    | false, false => shortest_digits fuel (k + 1) num den n x
    end.
Proof. reflexivity. Qed.

(** The search for the shortest digits of a whole number below 10^15
    stops at the number without its trailing zeros. *)
Lemma shortest_digits_whole (N D s : Z) (t : nat) :
  0 < N < 10 ^ 15 -> 0 < D ->
  N = s * 10 ^ Z.of_nat t -> s mod 10 <> 0 ->
  forall fuel k,
    let L := Z.of_nat (String.length (digits_of_Z N)) in
    1 <= k <= L - Z.of_nat t ->
    (Z.to_nat (L - Z.of_nat t - k) < fuel)%nat ->
    shortest_digits fuel k (N * D) D L (num_of_Z N) = (s, Z.of_nat t).
Proof.
  intros HN HD Hs Hmod fuel. cbv zeta.
  pose proof (digits_length_bounds N ltac:(lia)) as HL.
  set (L := Z.of_nat (String.length (digits_of_Z N))) in *.
  assert (H53 : 2 ^ 53 = 9007199254740992) by reflexivity.
  assert (H15 : 10 ^ 15 = 1000000000000000) by reflexivity.
  assert (Ht : 0 < 10 ^ Z.of_nat t) by (apply Z.pow_pos_nonneg; lia).
  assert (Hspos : 0 < s) by nia.
  induction fuel as [|fuel IH]; intros k Hk Hfuel; [lia|].
  rewrite shortest_digits_step. cbv zeta.
  set (w := L - k).
  assert (Hw : Z.of_nat t <= w) by (unfold w; lia).
  assert (Hw0 : 0 <= w) by lia.
  assert (Hpw : 0 < 10 ^ w) by (apply Z.pow_pos_nonneg; lia).
  assert (Hlo : (let '(a, b) :=
                   if 0 <=? k - L
                   then (N * D * 10 ^ (k - L), D)
                   else (N * D, D * 10 ^ (- (k - L))) in a / b)
                = N / 10 ^ w).
  { destruct (Z.leb_spec 0 (k - L)) as [Hge|Hlt].
    - assert (Hkl : k - L = 0) by (unfold w in Hw0; lia).
      assert (Hwz : w = 0) by (unfold w; lia).
      rewrite Hkl, Hwz. change (10 ^ 0) with 1.
      rewrite Z.mul_1_r, Z.div_1_r. apply Z.div_mul. lia.
    - replace (- (k - L)) with w by (unfold w; lia).
      rewrite (Z.mul_comm D (10 ^ w)).
      apply Z.div_mul_cancel_r; lia. }
  destruct (if 0 <=? k - L
            then (N * D * 10 ^ (k - L), D)
            else (N * D, D * 10 ^ (- (k - L)))) as [a b].
  rewrite Hlo. clear Hlo.
  fold w.
  set (lo := N / 10 ^ w).
  assert (Hlo_le : lo * 10 ^ w <= N).
  { unfold lo. rewrite Z.mul_comm. apply Z.mul_div_le. lia. }
  assert (Hhi_gt : N < (lo + 1) * 10 ^ w).
  { unfold lo. pose proof (Z.mod_pos_bound N (10 ^ w) Hpw).
    pose proof (Z.div_mod N (10 ^ w) ltac:(lia)). nia. }
  assert (Hlo0 : 0 <= lo) by (apply Z.div_pos; lia).
  assert (Hpw_le : 10 ^ w <= N).
  { apply Z.le_trans with (10 ^ (L - 1)); [|lia].
    apply Z.pow_le_mono_r; unfold w; lia. }
  assert (Hhi : num_eqb (num_of_decimal false (lo + 1) w) (num_of_Z N)
                = false).
  { rewrite num_of_decimal_whole by lia.
    rewrite num_eqb_int by nia. apply Z.eqb_neq. lia. }
  rewrite Hhi.
  destruct (Z.eq_dec w (Z.of_nat t)) as [Hwt|Hwt].
  - (* all significant digits are in *)
    assert (Hlos : lo = s).
    { unfold lo. rewrite Hwt, Hs. apply Z.div_mul. lia. }
    rewrite Hlos.
    assert (Hpos : (0 <? s) = true) by (apply Z.ltb_lt; lia).
    rewrite Hpos, num_of_decimal_whole by lia.
    rewrite Hwt, <- Hs, num_eqb_int, Z.eqb_refl by lia.
    reflexivity.
  - assert (Hne : lo * 10 ^ w <> N).
    { intro Heq. apply Hmod.
      assert (Hsplit : 10 ^ w = 10 ^ (w - Z.of_nat t - 1) * 10
                              * 10 ^ Z.of_nat t).
      { replace w with ((w - Z.of_nat t - 1) + 1 + Z.of_nat t) at 1 by lia.
        rewrite !Z.pow_add_r by lia. reflexivity. }
      rewrite Hsplit in Heq. rewrite Hs in Heq.
      assert (Hseq : s = lo * 10 ^ (w - Z.of_nat t - 1) * 10).
      { apply (Z.mul_cancel_r _ _ (10 ^ Z.of_nat t)); [lia|].
        rewrite <- Heq. ring. }
      rewrite Hseq. apply Z.mod_mul. lia. }
    assert (Hlo_false :
              (0 <? lo) && num_eqb (num_of_decimal false lo w) (num_of_Z N)
              = false).
    { destruct (Z.ltb_spec 0 lo) as [Hp|Hz]; [|reflexivity].
      rewrite num_of_decimal_whole by lia.
      rewrite num_eqb_int by nia. simpl. apply Z.eqb_neq. exact Hne. }
    rewrite Hlo_false.
    apply IH; lia.
Qed.

Lemma trailing_zeros_split (N : Z) :
  0 < N ->
  exists (s : Z) (t : nat), N = s * 10 ^ Z.of_nat t /\ s mod 10 <> 0.
Proof.
  intro HN. assert (H0 : 0 <= N) by lia. revert HN.
  pattern N. apply Z_lt_induction; [|exact H0]. clear N H0.
  intros N IH HN.
  destruct (Z.eq_dec (N mod 10) 0) as [Hz|Hnz].
  - pose proof (Z.div_mod N 10 ltac:(lia)) as Hdm.
    assert (Hq : 0 < N / 10) by lia.
    destruct (IH (N / 10) ltac:(lia) Hq) as (s & t & Hs & Hmod).
    exists s, (S t). split; [|exact Hmod].
    rewrite Nat2Z.inj_succ, Z.pow_succ_r by lia.
    rewrite Hdm at 1. rewrite Hz, Hs at 1. ring.
  - exists N, 0%nat. split; [simpl; lia|exact Hnz].
Qed.

(** The string of a whole number below 10^15 is its decimal numeral. *)
Lemma Number_toString_whole (n : Z) :
  0 <= n < 10 ^ 15 -> Number_toString (num_of_Z n) = digits_of_Z n.
Proof.
  intro Hn.
  assert (H53 : 2 ^ 53 = 9007199254740992) by reflexivity.
  assert (H50 : 2 ^ 50 = 1125899906842624) by reflexivity.
  assert (H15 : 10 ^ 15 = 1000000000000000) by reflexivity.
  destruct n as [|P|P]; [reflexivity| |lia].
  destruct (trailing_zeros_split (Zpos P) ltac:(lia)) as (s & t & Hs & Hmod).
  assert (Ht : 0 < 10 ^ Z.of_nat t) by (apply Z.pow_pos_nonneg; lia).
  assert (Hspos : 0 < s) by nia.
  pose proof (digits_length_bounds (Zpos P) ltac:(lia)) as HL.
  pose proof (digits_length_bounds s Hspos) as HLs.
  assert (Hdig : digits_of_Z (Zpos P) = digits_of_Z s ++ zeros t).
  { rewrite Hs. apply digits_pow10. exact Hspos. }
  assert (Hlen : String.length (digits_of_Z (Zpos P))
                 = (String.length (digits_of_Z s) + t)%nat).
  { rewrite Hdig, string_length_app, zeros_length. reflexivity. }
  set (L := Z.of_nat (String.length (digits_of_Z (Zpos P)))) in *.
  set (K := String.length (digits_of_Z s)) in *.
  assert (HK : (1 <= K)%nat).
  { destruct K; [|lia]. simpl in HLs. lia. }
  assert (HL15 : L <= 15).
  { destruct (Z.le_gt_cases L 15) as [|Hgt]; [assumption|].
    assert (10 ^ 15 <= 10 ^ (L - 1)) by (apply Z.pow_le_mono_r; lia).
    lia. }
  rewrite (num_of_Z_pos P) by lia.
  pose proof (digits_le P 50 ltac:(lia)) as Hd.
  unfold Number_toString, canonical, fraction_of.
  set (dP := Zpos (digits2_pos P)) in *.
  assert (Hneg : (0 <=? dP - 53) = false) by (apply Z.leb_gt; lia).
  rewrite Hneg.
  rewrite Zpos_shift_pos by lia.
  replace (- (dP - 53)) with (53 - dP) by lia.
  set (D := 2 ^ (53 - dP)).
  assert (HD : 0 < D) by (apply Z.pow_pos_nonneg; lia).
  assert (Hexp : decimal_exponent (Zpos P * D) D = L).
  { unfold decimal_exponent.
    assert (Hle : (D <=? Zpos P * D) = true) by (apply Z.leb_le; nia).
    rewrite Hle, Z.div_mul by lia. reflexivity. }
  rewrite Hexp.
  assert (Hx : S754_finite false (shift_pos P (53 - dP)) (dP - 53)
               = num_of_Z (Zpos P)).
  { rewrite (num_of_Z_pos P) by lia. reflexivity. }
  rewrite Hx.
  pose proof (shortest_digits_whole (Zpos P) D s t ltac:(lia) HD Hs Hmod
                17%nat 1) as Hloop.
  cbv zeta in Hloop. fold L in Hloop.
  rewrite Hloop by (unfold L; lia).
  rewrite (strip_trailing_zeros_digits s Hspos Hmod).
  unfold format_digits. fold K.
  assert (Hfmt : (Z.of_nat K <=? Z.of_nat K + Z.of_nat t)
                 && (Z.of_nat K + Z.of_nat t <=? 21) = true).
  { apply andb_true_iff. split; apply Z.leb_le; unfold L in HL15; lia. }
  rewrite Hfmt.
  replace (Z.to_nat (Z.of_nat K + Z.of_nat t - Z.of_nat K)) with t by lia.
  rewrite Hdig. reflexivity.
Qed.

Lemma digit_char_digit (r : Z) :
  0 <= r < 10 ->
  is_digit (digit_char r) = true /\ digit_val (digit_char r) = r.
Proof.
  intro Hr.
  assert (Hcases : r = 0 \/ r = 1 \/ r = 2 \/ r = 3 \/ r = 4 \/ r = 5
                   \/ r = 6 \/ r = 7 \/ r = 8 \/ r = 9) by lia.
  destruct Hcases as [->|[->|[->|[->|[->|[->|[->|[->|[->| ->]]]]]]]]];
    split; reflexivity.
Qed.

Lemma take_digits_cons (c : ascii) (s : string) (acc cnt : Z) :
  take_digits (String c s) acc cnt
  = if is_digit c then take_digits s (10 * acc + digit_val c) (cnt + 1)
    else (acc, cnt, String c s).
Proof. reflexivity. Qed.

(** Reading a numeral gives back its number. *)
Lemma take_digits_numeral (z : Z) :
  0 <= z ->
  forall X acc cnt,
    take_digits (digits_of_Z z ++ X) acc cnt
    = take_digits X
        (acc * 10 ^ Z.of_nat (String.length (digits_of_Z z)) + z)
        (cnt + Z.of_nat (String.length (digits_of_Z z))).
Proof.
  intro Hz. assert (H0 : 0 <= z) by exact Hz. revert Hz.
  pattern z. apply Z_lt_induction; [|exact H0]. clear z H0.
  intros z IH Hz X acc cnt.
  destruct (Z.ltb_spec z 10) as [Hsmall|Hbig].
  - rewrite digits_small by lia.
    destruct (digit_char_digit z ltac:(lia)) as [Hd Hv].
    change (String (digit_char z) "" ++ X) with (String (digit_char z) X).
    rewrite take_digits_cons, Hd, Hv.
    change (String.length (String (digit_char z) "")) with 1%nat.
    change (Z.of_nat 1) with 1. change (10 ^ 1) with 10.
    f_equal; lia.
  - pose proof (Z.div_mod z 10 ltac:(lia)) as Hdm.
    pose proof (Z.mod_pos_bound z 10 ltac:(lia)) as Hr.
    assert (Hq : 0 < z / 10) by (apply Z.div_str_pos; lia).
    assert (Hd : digits_of_Z z
                 = digits_of_Z (z / 10) ++ String (digit_char (z mod 10)) "").
    { rewrite Hdm at 1. apply digits_step; lia. }
    rewrite Hd, string_app_assoc, string_length_app.
    rewrite (IH (z / 10)) by lia.
    destruct (digit_char_digit (z mod 10) Hr) as [Hdig Hval].
    change (String (digit_char (z mod 10)) "" ++ X)
      with (String (digit_char (z mod 10)) X).
    rewrite take_digits_cons, Hdig, Hval.
    change (String.length (String (digit_char (z mod 10)) "")) with 1%nat.
    set (l := String.length (digits_of_Z (z / 10))).
    replace (Z.of_nat (l + 1)) with (Z.of_nat l + 1) by lia.
    rewrite Z.pow_add_r by lia. change (10 ^ 1) with 10.
    f_equal; lia.
Qed.

Lemma digits_head (z : Z) :
  0 <= z ->
  exists d rest, 0 <= d < 10 /\ digits_of_Z z = String (digit_char d) rest.
Proof.
  intro Hz. assert (H0 : 0 <= z) by exact Hz. revert Hz.
  pattern z. apply Z_lt_induction; [|exact H0]. clear z H0.
  intros z IH Hz.
  destruct (Z.ltb_spec z 10) as [Hsmall|Hbig].
  - exists z, "". split; [lia|]. apply digits_small. lia.
  - pose proof (Z.div_mod z 10 ltac:(lia)) as Hdm.
    pose proof (Z.mod_pos_bound z 10 ltac:(lia)) as Hr.
    assert (Hq : 0 < z / 10) by (apply Z.div_str_pos; lia).
    destruct (IH (z / 10) ltac:(lia) ltac:(lia)) as (d & rest & Hd & Hhead).
    exists d, (rest ++ String (digit_char (z mod 10)) "").
    split; [exact Hd|].
    rewrite Hdm at 1. rewrite digits_step by lia.
    rewrite Hhead. reflexivity.
Qed.

Lemma parseFloat_digit_head (d : Z) (rest : string) :
  0 <= d < 10 ->
  parseFloat (String (digit_char d) rest)
  = parse_unsigned false (String (digit_char d) rest) /\
  prefix "Infinity" (String (digit_char d) rest) = false.
Proof.
  intro Hd.
  assert (Hcases : d = 0 \/ d = 1 \/ d = 2 \/ d = 3 \/ d = 4 \/ d = 5
                   \/ d = 6 \/ d = 7 \/ d = 8 \/ d = 9) by lia.
  destruct Hcases as [->|[->|[->|[->|[->|[->|[->|[->|[->| ->]]]]]]]]];
    split; reflexivity.
Qed.

Lemma parseFloat_minus (s : string) :
  parseFloat (String "-" s) = parse_unsigned true s.
Proof. reflexivity. Qed.

Lemma parse_unsigned_numeral (neg : bool) (z : Z) :
  0 <= z -> parse_unsigned neg (digits_of_Z z) = num_of_decimal neg z 0.
Proof.
  intro Hz.
  destruct (digits_head z Hz) as (d & rest & Hd & Hhead).
  pose proof (take_digits_numeral z Hz "" 0 0) as Htake.
  rewrite string_app_nil_r in Htake.
  assert (Hlen : (1 <= String.length (digits_of_Z z))%nat).
  { rewrite Hhead. cbn [String.length]. lia. }
  destruct (parseFloat_digit_head d rest Hd) as [_ Hpre].
  rewrite <- Hhead in Hpre.
  unfold parse_unsigned. rewrite Hpre, Htake. cbn [take_digits].
  set (l := Z.of_nat (String.length (digits_of_Z z))) in *.
  replace (0 * 10 ^ l + z) with z by lia.
  assert (Hic : (0 + l =? 0) = false) by (apply Z.eqb_neq; lia).
  rewrite Hic. reflexivity.
Qed.

Lemma parseFloat_numeral (neg : bool) (z : Z) :
  0 <= z ->
  parseFloat ((if neg then "-" else "") ++ digits_of_Z z)
  = num_of_decimal neg z 0.
Proof.
  intro Hz. destruct neg.
  - change ("-" ++ digits_of_Z z) with (String "-" (digits_of_Z z)).
    rewrite parseFloat_minus. apply parse_unsigned_numeral, Hz.
  - change ("" ++ digits_of_Z z) with (digits_of_Z z).
    destruct (digits_head z Hz) as (d & rest & Hd & Hhead).
    destruct (parseFloat_digit_head d rest Hd) as [Hparse _].
    rewrite <- Hhead in Hparse. rewrite Hparse.
    apply parse_unsigned_numeral, Hz.
Qed.

Lemma div_eucl_exact (a b : Z) :
  0 < b -> Z.div_eucl (a * b) b = (a, 0).
Proof.
  intro Hb.
  pose proof (Z.div_mul a b ltac:(lia)) as Hd.
  pose proof (Z.mod_mul a b ltac:(lia)) as Hm.
  unfold Z.div, Z.modulo in Hd, Hm.
  destruct (Z.div_eucl (a * b) b) as [q r]. simpl in Hd, Hm. congruence.
Qed.

(** A whole number written with [k] decimal zeros is read as the whole
    number: the division by 10^k is exact. *)
Lemma num_of_decimal_scaled (sgn : bool) (P : positive) (k : Z) :
  Zpos P < 2 ^ 53 -> 0 < k ->
  num_of_decimal sgn (Zpos P * 10 ^ k) (- k) = canonical sgn P.
Proof.
  intros HP Hk.
  assert (HT : 0 < 10 ^ k) by (apply Z.pow_pos_nonneg; lia).
  destruct (10 ^ k) as [|T|T] eqn:HTk; try lia.
  unfold num_of_decimal.
  change (Zpos P * Zpos T) with (Zpos (P * T)).
  assert (Hneg : (0 <=? - k) = false) by (apply Z.leb_gt; lia).
  rewrite Hneg, Z.opp_involutive, HTk.
  set (d := Zpos (digits2_pos P)).
  set (d1 := Zpos (digits2_pos (P * T))).
  set (d2 := Zpos (digits2_pos T)).
  assert (Hd : d <= 53) by (apply digits_le, HP).
  assert (Hd0 : 1 <= d) by (unfold d; lia).
  assert (Hd12 : d2 <= d1) by (apply digits_mono; nia).
  assert (Hd1 : d1 <= d + d2).
  { apply digits_le.
    pose proof (digits_bounds P) as [_ HPhi].
    pose proof (digits_bounds T) as [_ HThi].
    fold d in HPhi. fold d2 in HThi.
    rewrite Z.pow_add_r by (unfold d2; lia).
    rewrite Pos2Z.inj_mul. nia. }
  set (s := 53 - (d1 - d2)).
  assert (Hs : 53 - d <= s) by (unfold s; lia).
  assert (Hcore : SFdiv_core_binary prec emax (Zpos (P * T)) 0 (Zpos T) 0
                  = (Zpos P * 2 ^ s, - s, loc_Exact)).
  { unfold SFdiv_core_binary. cbn [Zdigits2]. fold d1 d2.
    rewrite !Z.add_0_r, Z.sub_0_r.
    assert (Hfexp : fexp prec emax (d1 - d2) = d1 - d2 - 53).
    { unfold fexp, emin, prec, emax. lia. }
    rewrite Hfexp.
    replace (Z.min (d1 - d2 - 53) 0) with (- s) by (unfold s; lia).
    replace (0 - - s) with s by lia.
    assert (Hm : match s with
                 | 0 => Zpos (P * T)
                 | Zpos _ => Z.shiftl (Zpos (P * T)) s
                 | Zneg _ => 0
                 end = Zpos P * 2 ^ s * Zpos T).
    { destruct s as [|sp|sp] eqn:Hsp; try lia.
      rewrite Z.shiftl_mul_pow2, Pos2Z.inj_mul by lia. ring. }
    rewrite Hm, div_eucl_exact by lia.
    unfold new_location, new_location_even, new_location_odd.
    destruct (Z.even (Zpos T)); reflexivity. }
  rewrite Hcore.
  replace (Zpos P * 2 ^ s)
    with (Zpos (shift_pos (shift_pos P (53 - d)) (s - (53 - d)))).
  2:{ rewrite !Zpos_shift_pos by lia.
      rewrite <- Z.mul_assoc, <- Z.pow_add_r by lia.
      f_equal. f_equal. lia. }
  replace (- s) with (d - 53 - (s - (53 - d))) by lia.
  unfold canonical. fold d.
  apply round_scaled; [|lia|lia].
  rewrite digits_shift_pos by lia. fold d. lia.
Qed.

Lemma take_digits_zeros (k : nat) :
  forall acc cnt,
    take_digits (zeros k) acc cnt
    = (acc * 10 ^ Z.of_nat k, cnt + Z.of_nat k, "").
Proof.
  induction k as [|k IH]; intros acc cnt.
  - change (Z.of_nat 0) with 0. change (10 ^ 0) with 1.
    rewrite Z.mul_1_r, Z.add_0_r. reflexivity.
  - change (zeros (S k)) with (String "0" (zeros k)).
    rewrite take_digits_cons. change (is_digit "0") with true.
    cbv iota. rewrite IH. change (digit_val "0") with 0.
    rewrite Nat2Z.inj_succ, Z.pow_succ_r by lia.
    replace (cnt + 1 + Z.of_nat k) with (cnt + Z.succ (Z.of_nat k)) by lia.
    replace ((10 * acc + 0) * 10 ^ Z.of_nat k)
      with (acc * (10 * 10 ^ Z.of_nat k)) by ring.
    reflexivity.
Qed.

Lemma parse_unsigned_point (neg : bool) (z : Z) (k : nat) :
  0 <= z ->
  parse_unsigned neg (digits_of_Z z ++ "." ++ zeros k)
  = num_of_decimal neg (z * 10 ^ Z.of_nat k) (- Z.of_nat k).
Proof.
  intro Hz.
  destruct (digits_head z Hz) as (d & rest & Hd & Hhead).
  pose proof (take_digits_numeral z Hz ("." ++ zeros k) 0 0) as Htake.
  assert (Hlen : (1 <= String.length (digits_of_Z z))%nat).
  { rewrite Hhead. cbn [String.length]. lia. }
  destruct (parseFloat_digit_head d (rest ++ "." ++ zeros k) Hd)
    as [_ Hpre].
  change (String (digit_char d) (rest ++ "." ++ zeros k))
    with (String (digit_char d) rest ++ "." ++ zeros k) in Hpre.
  rewrite <- Hhead in Hpre.
  unfold parse_unsigned. rewrite Hpre, Htake.
  change ("." ++ zeros k) with (String "." (zeros k)).
  rewrite take_digits_cons. change (is_digit ".") with false. cbv iota beta.
  rewrite take_digits_zeros.
  set (l := Z.of_nat (String.length (digits_of_Z z))) in *.
  replace (0 * 10 ^ l + z) with z by lia.
  assert (Hic : (0 + l =? 0) = false) by (apply Z.eqb_neq; lia).
  rewrite Hic. reflexivity.
Qed.

Lemma parseFloat_numeral_point (neg : bool) (z : Z) (k : nat) :
  0 <= z ->
  parseFloat ((if neg then "-" else "") ++ digits_of_Z z ++ "." ++ zeros k)
  = num_of_decimal neg (z * 10 ^ Z.of_nat k) (- Z.of_nat k).
Proof.
  intro Hz. destruct neg.
  - change ("-" ++ digits_of_Z z ++ "." ++ zeros k)
      with (String "-" (digits_of_Z z ++ "." ++ zeros k)).
    rewrite parseFloat_minus. apply parse_unsigned_point, Hz.
  - change ("" ++ digits_of_Z z ++ "." ++ zeros k)
      with (digits_of_Z z ++ "." ++ zeros k).
    destruct (digits_head z Hz) as (d & rest & Hd & Hhead).
    destruct (parseFloat_digit_head d (rest ++ "." ++ zeros k) Hd)
      as [Hparse _].
    change (String (digit_char d) (rest ++ "." ++ zeros k))
      with (String (digit_char d) rest ++ "." ++ zeros k) in Hparse.
    rewrite <- Hhead in Hparse. rewrite Hparse.
    apply parse_unsigned_point, Hz.
Qed.

Lemma Number_toString_negative (m : positive) (e : Z) :
  Number_toString (S754_finite true m e)
  = "-" ++ Number_toString (S754_finite false m e).
Proof.
  unfold Number_toString.
  destruct (fraction_of m e) as [num den].
  destruct (shortest_digits 17 1 num den (decimal_exponent num den)
              (S754_finite false m e)) as [d e10].
  reflexivity.
Qed.

Lemma Number_toString_numeral (n : Z) :
  - 10 ^ 15 < n < 10 ^ 15 -> Number_toString (num_of_Z n) = numeral_of n.
Proof.
  intro Hn.
  assert (H53 : 2 ^ 53 = 9007199254740992) by reflexivity.
  assert (H15 : 10 ^ 15 = 1000000000000000) by reflexivity.
  unfold numeral_of.
  destruct (Z.ltb_spec n 0) as [Hneg|Hpos].
  - destruct n as [|P|P]; try lia.
    rewrite (num_of_Z_neg P) by lia. unfold canonical.
    rewrite Number_toString_negative.
    change (- Zneg P) with (Zpos P).
    rewrite <- (Number_toString_whole (Zpos P)) by lia.
    rewrite (num_of_Z_pos P) by lia. reflexivity.
  - apply Number_toString_whole. lia.
Qed.

Lemma parseFloat_numeral_of (n : Z) :
  - 2 ^ 53 < n < 2 ^ 53 -> parseFloat (numeral_of n) = num_of_Z n.
Proof.
  intro Hn. unfold numeral_of.
  assert (Hdec : forall neg p,
            num_of_decimal neg (Zpos p) 0
            = binary_round prec emax neg p 0).
  { intros neg p. unfold num_of_decimal. simpl.
    rewrite Pos.mul_1_r. reflexivity. }
  destruct (Z.ltb_spec n 0) as [Hneg|Hpos].
  - destruct n as [|P|P]; try lia.
    change (- Zneg P) with (Zpos P).
    rewrite (parseFloat_numeral true (Zpos P)) by lia.
    rewrite Hdec. reflexivity.
  - change (digits_of_Z n) with ("" ++ digits_of_Z n).
    rewrite (parseFloat_numeral false n) by lia.
    destruct n as [|P|P]; try lia; [reflexivity|].
    rewrite Hdec. reflexivity.
Qed.

(** X14.  For every list operation (customers, invoices, accounts,
    vendors, bills) given a whole-number limit from 1 and a whole-number
    offset from 0, both below 10^15 - 1, the query sent is SELECT * FROM
    <Entity>, the WHERE clause of its conditions, then STARTPOSITION and
    MAXRESULTS followed by the decimal numerals of offset + 1 and of the
    limit. *)
Theorem list_operation_page_in_decimal :
  forall env c op L O,
    limit_of op = Some (num_of_Z L) ->
    offset_of op = Some (num_of_Z O) ->
    1 <= L < 10 ^ 15 - 1 ->
    0 <= O < 10 ^ 15 - 1 ->
    issued_sql (trace (perform env (list_operation op) c))
    = if authenticates env c
      then ["SELECT * FROM " ++ entity_of op
              ++ where_clause (conditions_of op)
              ++ " STARTPOSITION " ++ digits_of_Z (O + 1)
              ++ " MAXRESULTS " ++ digits_of_Z L]
      else [].
Proof.
  intros env c op L O HL HO Hlim Hoff.
  assert (H53 : 2 ^ 53 = 9007199254740992) by reflexivity.
  assert (H15 : 10 ^ 15 = 1000000000000000) by reflexivity.
  rewrite list_operation_issued_sql.
  destruct (authenticates env c); [|reflexivity].
  unfold expected_sql, effective_limit, effective_offset.
  rewrite HL, HO. cbv beta iota delta [opt_num_or].
  assert (Hl : num_or (num_of_Z L) (default_limit op) = num_of_Z L).
  { destruct L as [|P|P]; try lia.
    rewrite (num_of_Z_pos P) by lia. reflexivity. }
  assert (Ho : num_or (num_of_Z O) (num_of_Z 0) = num_of_Z O).
  { destruct O as [|P|P]; try lia; [reflexivity|].
    rewrite (num_of_Z_pos P) by lia. reflexivity. }
  rewrite Hl, Ho, num_add_int by lia.
  rewrite !Number_toString_whole by lia. reflexivity.
Qed.

Lemma list_operation_page_in_decimal_witness :
  issued_sql
    (trace (perform (world "abc")
              (list_operation (ListVendors third_page_of_vendors))
              example_client))
  = ["SELECT * FROM Vendor STARTPOSITION 4001 MAXRESULTS 2000"].
Proof.
  assert (H15 : 10 ^ 15 = 1000000000000000) by reflexivity.
  rewrite (list_operation_page_in_decimal (world "abc") example_client
             (ListVendors third_page_of_vendors) 2000 4000 eq_refl eq_refl)
    by lia.
  reflexivity.
Defined.

(** ** The invoice that is posted *)

(** X15.  The invoice that [createInvoice] posts names the customer
    given, carries a due date and a customer memo exactly when one is
    given and is not the empty string, and numbers its lines 1, 2, 3, ...
    in decimal, in the order of the line items (for every list of fewer
    than 10^15 - 1 items). *)
Theorem createInvoice_payload :
  forall data,
    CustomerRef (invoice_data data) = in_customerId data /\
    DueDate (invoice_data data)
    = match dueDate data with
      | Some d => if String.eqb d "" then None else Some d
      | None => None
      end /\
    CustomerMemo (invoice_data data)
    = match memo data with
      | Some m => if String.eqb m "" then None else Some m
      | None => None
      end /\
    forall i item,
      nth_error (lineItems data) i = Some item ->
      Z.of_nat i < 10 ^ 15 - 1 ->
      exists line,
        nth_error (Line (invoice_data data)) i = Some line /\
        Line_Id line = digits_of_Z (Z.of_nat i + 1) /\
        Description line = description item.
Proof.
  intro data. split; [reflexivity|].
  split.
  { unfold invoice_data, spread_if_truthy; simpl.
    destruct (dueDate data) as [d|]; [|reflexivity]. simpl.
    rewrite eqb_empty_truthy. destruct (str_truthy d); reflexivity. }
  split.
  { unfold invoice_data, spread_if_truthy; simpl.
    destruct (memo data) as [m|]; [|reflexivity]. simpl.
    rewrite eqb_empty_truthy. destruct (str_truthy m); reflexivity. }
  intros i item Hitem Hi.
  exists (invoice_line item i).
  split; [apply invoice_data_line, Hitem|].
  split; [|reflexivity].
  unfold invoice_line. cbn [Line_Id].
  assert (H53 : 2 ^ 53 = 9007199254740992) by reflexivity.
  assert (H15 : 10 ^ 15 = 1000000000000000) by reflexivity.
  rewrite num_add_int by lia.
  apply Number_toString_whole. lia.
Qed.

Lemma createInvoice_payload_witness :
  exists line,
    nth_error (Line (invoice_data dated_invoice)) 1 = Some line /\
    Line_Id line = "2" /\
    DueDate (invoice_data dated_invoice) = Some "2026-01-31" /\
    CustomerMemo (invoice_data dated_invoice) = None.
Proof.
  destruct (createInvoice_payload dated_invoice) as (_ & Hdue & Hmemo & Hline).
  destruct (Hline 1%nat (example_item (Some (num_of_Z 2))) eq_refl)
    as (line & Hnth & Hid & _); [reflexivity|].
  exists line. split; [exact Hnth|]. split; [exact Hid|].
  split; [exact Hdue|exact Hmemo].
Defined.



(** ** Totals that are whole numbers *)

(** X17.  A total that the report gives as a whole number is read
    exactly, be it a JSON number, the string of its decimal numeral, or
    that string followed by a point and any number of zeros (as in
    10000.00), negative or not: the number goes through its string
    and back unchanged (for numbers below 10^15 in magnitude). *)
Theorem whole_totals_read_exactly :
  forall rows type row n k,
    forallb row_shape rows = true ->
    first_row type rows = Some row ->
    - 10 ^ 15 < n < 10 ^ 15 ->
    summary_value row = JNum (num_of_Z n)
    \/ summary_value row = JStr (numeral_of n)
    \/ summary_value row = JStr (numeral_of n ++ "." ++ zeros k) ->
    parseAmount (JArr rows) type = Ok (num_of_Z n).
Proof.
  intros rows type row n k Hshape Hrow Hn Hvalue.
  assert (H53 : 2 ^ 53 = 9007199254740992) by reflexivity.
  assert (H15 : 10 ^ 15 = 1000000000000000) by reflexivity.
  rewrite (parseAmount_spec rows type Hshape).
  unfold expected_total. rewrite Hrow. cbv zeta.
  assert (Hfinite : match num_of_Z n with
                    | S754_nan => zero
                    | S754_zero _ => zero
                    | x => x
                    end = num_of_Z n).
  { destruct n as [|P|P]; [reflexivity| |].
    - rewrite (num_of_Z_pos P) by lia. reflexivity.
    - rewrite (num_of_Z_neg P) by lia. reflexivity. }
  assert (Hne : forall tail, str_truthy (numeral_of n ++ tail) = true).
  { intro tail. unfold numeral_of.
    destruct (Z.ltb_spec n 0) as [Hneg|Hpos]; [reflexivity|].
    destruct (digits_head n Hpos) as (d & rest & _ & ->). reflexivity. }
  destruct Hvalue as [-> | [-> | ->]].
  - simpl truthy. simpl text_of.
    rewrite Number_toString_numeral by lia.
    destruct (num_truthy (num_of_Z n)) eqn:Htruthy.
    + rewrite parseFloat_numeral_of by lia. f_equal. exact Hfinite.
    + destruct n as [|P|P]; [reflexivity| |].
      * rewrite (num_of_Z_pos P) in Htruthy by lia. discriminate Htruthy.
      * rewrite (num_of_Z_neg P) in Htruthy by lia. discriminate Htruthy.
  - simpl text_of. simpl truthy.
    rewrite <- (string_app_nil_r (numeral_of n)) at 1.
    rewrite Hne, parseFloat_numeral_of by lia. f_equal. exact Hfinite.
  - simpl text_of. simpl truthy. rewrite Hne.
    assert (Hread : match parseFloat (numeral_of n ++ "." ++ zeros k) with
                    | S754_nan => zero
                    | S754_zero _ => zero
                    | x => x
                    end = num_of_Z n).
    { assert (Hscaled : forall sgn P,
                Zpos P < 2 ^ 53 ->
                num_of_decimal sgn (Zpos P * 10 ^ Z.of_nat k) (- Z.of_nat k)
                = canonical sgn P).
      { intros sgn P HP. destruct k as [|k'].
        - change (Z.of_nat 0) with 0. change (10 ^ 0) with 1.
          rewrite Z.mul_1_r. change (- 0) with 0.
          unfold num_of_decimal. simpl. rewrite Pos.mul_1_r.
          apply (round_integer sgn P 0); [apply digits_le, HP|lia].
        - apply num_of_decimal_scaled; lia. }
      unfold numeral_of.
      destruct (Z.ltb_spec n 0) as [Hneg|Hpos].
      - destruct n as [|P|P]; try lia.
        change (- Zneg P) with (Zpos P).
        rewrite string_app_assoc.
        rewrite (parseFloat_numeral_point true (Zpos P) k) by lia.
        rewrite Hscaled by lia.
        rewrite (num_of_Z_neg P) by lia. reflexivity.
      - change (digits_of_Z n ++ "." ++ zeros k)
          with ("" ++ digits_of_Z n ++ "." ++ zeros k).
        rewrite (parseFloat_numeral_point false n k) by lia.
        destruct n as [|P|P]; try lia; [reflexivity|].
        rewrite Hscaled by lia.
        rewrite (num_of_Z_pos P) by lia. reflexivity. }
    f_equal. exact Hread.
Qed.

Lemma whole_totals_read_exactly_witness :
  parseAmount (JArr whole_number_report) "Income" = Ok (num_of_Z (-2500)) /\
  parseAmount (JArr whole_number_report) "Expenses" = Ok (num_of_Z 1200).
Proof.
  assert (H15 : 10 ^ 15 = 1000000000000000) by reflexivity.
  split.
  - apply (whole_totals_read_exactly whole_number_report "Income" _ (-2500)
             0%nat eq_refl eq_refl); [lia|].
    left. reflexivity.
  - apply (whole_totals_read_exactly whole_number_report "Expenses" _ 1200
             2%nat eq_refl eq_refl); [lia|].
    right. right. reflexivity.
Defined.

(** ** Reports that cannot be read *)

Lemma parseAmount_cases (rows : any) (type : string) :
  exists x,
    parseAmount rows type
    = if total_fails rows type then Throw TypeError else Ok x.
Proof.
  unfold parseAmount, total_fails.
  destruct rows as [| | b | y | s | elems | ms]; simpl;
    try (exists zero; reflexivity);
    try (exists zero; match goal with
                      | |- context [if ?b then _ else _] =>
                          destruct b; reflexivity
                      end).
  rewrite find_row_cases.
  destruct (null_row_first elems type); simpl; [exists zero; reflexivity|].
  destruct (first_row type elems) as [row|]; [|exists zero; reflexivity].
  destruct (truthy (summary_value row)); simpl; [|exists zero; reflexivity].
  unfold unprintable.
  destruct (ToString (summary_value row)) as [s|e] eqn:Hs; simpl.
  - eexists; reflexivity.
  - exists zero. rewrite (ToString_error _ _ Hs). reflexivity.
Qed.

(** X18.  The parsing step of [getProfitAndLossReport] throws exactly on
    these bodies, and then a TypeError: the body is [null] or
    [undefined]; or, for one of the five discriminators, Rows.Row is a
    truthy value that is not an array, or holds a [null] or [undefined]
    row before any row with the discriminator, or the value to read in
    the row found has no string form.  On every other body it returns a
    report.  When the request was answered with such a body, the
    operation throws the TypeError. *)
Theorem unreadable_report_throws :
  forall report,
    (report_fails report = true ->
     parseProfitAndLoss report = Throw TypeError) /\
    (report_fails report = false ->
     exists r, parseProfitAndLoss report = Ok r) /\
    (forall env startDate endDate c,
       request_answers env (OpGetProfitAndLossReport startDate endDate) c
         report ->
       report_fails report = true ->
       outcome (getProfitAndLossReport env startDate endDate c)
       = Throw TypeError).
Proof.
  intro report.
  assert (Hcases : (parseProfitAndLoss report
                    = if report_fails report then Throw TypeError
                      else parseProfitAndLoss report)
                   /\ (report_fails report = false ->
                       exists r, parseProfitAndLoss report = Ok r)).
  { unfold report_fails, parseProfitAndLoss.
    destruct (nullish report) eqn:Hnull.
    { destruct report; try discriminate Hnull;
        (split; [reflexivity|discriminate]). }
    rewrite (member_not_nullish report _ Hnull). simpl.
    fold (rows_of report).
    destruct (parseAmount_cases (rows_of report) "Income") as [x1 ->].
    destruct (total_fails (rows_of report) "Income"); simpl;
      [split; [reflexivity|discriminate]|].
    destruct (parseAmount_cases (rows_of report) "COGS") as [x2 ->].
    destruct (total_fails (rows_of report) "COGS"); simpl;
      [split; [reflexivity|discriminate]|].
    destruct (parseAmount_cases (rows_of report) "GrossProfit") as [x3 ->].
    destruct (total_fails (rows_of report) "GrossProfit"); simpl;
      [split; [reflexivity|discriminate]|].
    destruct (parseAmount_cases (rows_of report) "Expenses") as [x4 ->].
    destruct (total_fails (rows_of report) "Expenses"); simpl;
      [split; [reflexivity|discriminate]|].
    destruct (parseAmount_cases (rows_of report) "NetIncome") as [x5 ->].
    destruct (total_fails (rows_of report) "NetIncome"); simpl;
      [split; [reflexivity|discriminate]|].
    split; [reflexivity|]. intros _. eexists; reflexivity. }
  destruct Hcases as [Hthrow Hok].
  split; [intro H; rewrite Hthrow, H; reflexivity|].
  split; [exact Hok|].
  intros env startDate endDate c Hans Hfails.
  pose proof (perform_answered env _ c report Hans) as Hout.
  simpl in Hout. rewrite outcome_fmap in Hout.
  rewrite Hthrow, Hfails in Hout. simpl in Hout.
  destruct (outcome (getProfitAndLossReport env startDate endDate c));
    congruence.
Qed.

Lemma unreadable_report_throws_witness :
  report_fails null_row_report = true /\
  request_answers (answering t0 null_row_report)
    (OpGetProfitAndLossReport "2026-01-01" "2026-01-31") example_client
    null_row_report /\
  outcome (getProfitAndLossReport (answering t0 null_row_report)
             "2026-01-01" "2026-01-31" example_client)
  = Throw TypeError.
Proof.
  assert (Hans : request_answers (answering t0 null_row_report)
                   (OpGetProfitAndLossReport "2026-01-01" "2026-01-31")
                   example_client null_row_report) by reflexivity.
  split; [reflexivity|]. split; [exact Hans|].
  destruct (unreadable_report_throws null_row_report) as (_ & _ & Hop).
  exact (Hop (answering t0 null_row_report) "2026-01-01" "2026-01-31"
           example_client Hans eq_refl).
Defined.

(** ** Through the tools *)

Import Tools.

Lemma num_trunc_int (v : Z) :
  0 <= v <= 8640000000000000 -> num_trunc (num_of_Z v) = num_of_Z v.
Proof.
  intro Hv. pose proof (TimeClip_int v Hv) as H.
  assert (H53 : 2 ^ 53 = 9007199254740992) by reflexivity.
  destruct v as [|P|P]; [reflexivity| |lia].
  rewrite (num_of_Z_pos P) in * by lia.
  unfold canonical, TimeClip in *.
  destruct (num_lt _ _); [discriminate H|exact H].
Qed.

Lemma whole_number_accepted (v : Z) :
  0 <= v <= 8640000000000000 ->
  z_number (num_of_Z v) = true /\ z_int (num_of_Z v) = true.
Proof.
  intro Hv.
  assert (H53 : 2 ^ 53 = 9007199254740992) by reflexivity.
  destruct v as [|P|P]; [split; reflexivity| |lia].
  pose proof (num_trunc_int (Zpos P) Hv) as Htrunc.
  pose proof (num_eqb_int (Zpos P) (Zpos P) ltac:(lia) ltac:(lia)) as Heq.
  rewrite Z.eqb_refl in Heq.
  unfold z_int, Number_isInteger.
  destruct (num_of_Z (Zpos P)) as [s0|s0| |s0 m0 e0] eqn:Hx;
    try (rewrite (num_of_Z_pos P) in Hx by lia; discriminate Hx).
  split; [reflexivity|].
  rewrite Htrunc. exact Heq.
Qed.

Lemma limit_schema_whole (L : option Z) :
  1 <= z_default 100 L <= 1000 ->
  limit_schema (option_map num_of_Z L) = Some (num_of_Z (z_default 100 L)) /\
  num_or (num_of_Z (z_default 100 L)) (num_of_Z 100)
  = num_of_Z (z_default 100 L).
Proof.
  intro H.
  assert (H53 : 2 ^ 53 = 9007199254740992) by reflexivity.
  set (z := z_default 100 L) in *.
  destruct (whole_number_accepted z ltac:(lia)) as [Hnum Hint].
  assert (Hschema : limit_schema (Some (num_of_Z z)) = Some (num_of_Z z)).
  { unfold limit_schema, checked, z_default, z_min, z_max.
    rewrite Hnum, Hint, !num_lt_int by lia.
    replace (z <? 1) with false by (symmetry; apply Z.ltb_ge; lia).
    replace (1000 <? z) with false by (symmetry; apply Z.ltb_ge; lia).
    reflexivity. }
  split.
  - destruct L as [l|]; [exact Hschema|reflexivity].
  - unfold num_or. destruct z as [|P|P] eqn:Hz; try lia.
    rewrite (num_of_Z_pos P) by lia. reflexivity.
Qed.

Lemma offset_schema_whole (O : option Z) :
  0 <= z_default 0 O <= 8640000000000000 ->
  offset_schema (option_map num_of_Z O) = Some (num_of_Z (z_default 0 O)) /\
  num_or (num_of_Z (z_default 0 O)) (num_of_Z 0)
  = num_of_Z (z_default 0 O).
Proof.
  intro H.
  assert (H53 : 2 ^ 53 = 9007199254740992) by reflexivity.
  set (z := z_default 0 O) in *.
  destruct (whole_number_accepted z ltac:(lia)) as [Hnum Hint].
  assert (Hschema : offset_schema (Some (num_of_Z z)) = Some (num_of_Z z)).
  { unfold offset_schema, checked, z_default, z_min.
    rewrite Hnum, Hint, !num_lt_int by lia.
    replace (z <? 0) with false by (symmetry; apply Z.ltb_ge; lia).
    reflexivity. }
  split.
  - destruct O as [o|]; [exact Hschema|reflexivity].
  - unfold num_or. destruct z as [|P|P] eqn:Hz; try lia; [reflexivity|].
    rewrite (num_of_Z_pos P) by lia. reflexivity.
Qed.

Lemma active_predicate_default (a : option bool) :
  active_predicate (Some (z_default true a)) = active_predicate a.
Proof. destruct a as [[|]|]; reflexivity. Qed.

Lemma status_predicate_default (s : option InvoiceStatus) :
  status_predicate (Some (z_default inv_all s)) = status_predicate s.
Proof. destruct s as [[| | |]|]; reflexivity. Qed.

Lemma bill_status_predicate_default (s : option BillStatus) :
  bill_status_predicate (Some (z_default bill_all s))
  = bill_status_predicate s.
Proof. destruct s as [[| |]|]; reflexivity. Qed.

(** X19.  Through the four paginated tools (customers, invoices,
    vendors, bills), an input whose limit is a whole number from 1 to
    1000 (100 when left out) and whose offset is a whole number from 0
    (0 when left out) below 10^15 - 1 passes the schema, and the query
    that the handler has the client send asks for exactly that page, in
    decimal: STARTPOSITION offset + 1 MAXRESULTS limit.  The conditions
    are those of the input, with active_only defaulting to true and
    status to "all". *)
Theorem paged_tools_ask_for_the_page_given :
  forall env c input (L O : option Z),
    input_limit input = option_map num_of_Z L ->
    input_offset input = option_map num_of_Z O ->
    1 <= z_default 100 L <= 1000 ->
    0 <= z_default 0 O < 10 ^ 15 - 1 ->
    exists op,
      tool_operation input = Some op /\
      issued_sql (trace (perform env (list_operation op) c))
      = if authenticates env c
        then ["SELECT * FROM " ++ tool_entity input
                ++ where_clause (tool_conditions input)
                ++ " STARTPOSITION " ++ digits_of_Z (z_default 0 O + 1)
                ++ " MAXRESULTS " ++ digits_of_Z (z_default 100 L)]
        else [].
Proof.
  intros env c input L O HL HO Hlim Hoff.
  assert (H53 : 2 ^ 53 = 9007199254740992) by reflexivity.
  assert (H15 : 10 ^ 15 = 1000000000000000) by reflexivity.
  destruct (limit_schema_whole L Hlim) as [Hls Hlor].
  destruct (offset_schema_whole O ltac:(lia)) as [Hos Hoor].
  assert (Hsql : forall op,
            effective_limit op = num_of_Z (z_default 100 L) ->
            effective_offset op = num_of_Z (z_default 0 O) ->
            entity_of op = tool_entity input ->
            conditions_of op = tool_conditions input ->
            issued_sql (trace (perform env (list_operation op) c))
            = if authenticates env c
              then ["SELECT * FROM " ++ tool_entity input
                      ++ where_clause (tool_conditions input)
                      ++ " STARTPOSITION " ++ digits_of_Z (z_default 0 O + 1)
                      ++ " MAXRESULTS " ++ digits_of_Z (z_default 100 L)]
              else []).
  { intros op El Eo Ee Ec. rewrite list_operation_issued_sql.
    destruct (authenticates env c); [|reflexivity].
    unfold expected_sql. rewrite El, Eo, Ee, Ec.
    rewrite num_add_int by lia.
    rewrite !Number_toString_whole by lia. reflexivity. }
  destruct input as [i|i|i|i]; simpl in HL, HO; simpl tool_operation.
  - unfold ListCustomersInputSchema. rewrite HL, HO, Hls, Hos.
    cbn [option_map]. eexists. split; [reflexivity|]. apply Hsql.
    + exact Hlor.
    + exact Hoor.
    + reflexivity.
    + cbn [conditions_of tool_conditions]. rewrite customer_conditions_parts.
      cbn [listCustomers_options cust_activeOnly cust_search lc_active_only
           lc_search].
      rewrite active_predicate_default. reflexivity.
  - unfold ListInvoicesInputSchema. rewrite HL, HO, Hls, Hos.
    cbn [option_map]. eexists. split; [reflexivity|]. apply Hsql.
    + exact Hlor.
    + exact Hoor.
    + reflexivity.
    + cbn [conditions_of tool_conditions]. rewrite invoice_conditions_parts.
      cbn [listInvoices_options inv_customerId inv_status inv_startDate
           inv_endDate li_customer_id li_status li_start_date li_end_date].
      rewrite status_predicate_default. reflexivity.
  - unfold ListVendorsInputSchema. rewrite HL, HO, Hls, Hos.
    cbn [option_map]. eexists. split; [reflexivity|]. apply Hsql.
    + exact Hlor.
    + exact Hoor.
    + reflexivity.
    + cbn [conditions_of tool_conditions]. rewrite vendor_conditions_parts.
      cbn [listVendors_options ven_activeOnly lv_active_only].
      rewrite active_predicate_default. reflexivity.
  - unfold ListBillsInputSchema. rewrite HL, HO, Hls, Hos.
    cbn [option_map]. eexists. split; [reflexivity|]. apply Hsql.
    + exact Hlor.
    + exact Hoor.
    + reflexivity.
    + cbn [conditions_of tool_conditions]. rewrite bill_conditions_parts.
      cbn [listBills_options bill_vendorId bill_status lb_vendor_id
           lb_status].
      rewrite bill_status_predicate_default. reflexivity.
Qed.

Lemma paged_tools_ask_for_the_page_given_witness :
  exists op,
    tool_operation open_invoices_page_3 = Some op /\
    issued_sql (trace (perform (world "abc") (list_operation op)
                         example_client))
    = ["SELECT * FROM Invoice WHERE CustomerRef = '123' AND Balance > '0' STARTPOSITION 51 MAXRESULTS 25"].
Proof.
  destruct (paged_tools_ask_for_the_page_given (world "abc") example_client
              open_invoices_page_3 (Some 25) (Some 50) eq_refl eq_refl)
    as (op & Hop & Hsql); [simpl; lia|simpl; lia|].
  exists op. split; [exact Hop|exact Hsql].
Defined.

Lemma num_lt_negative (a b : Z) :
  - 2 ^ 53 < a < 0 -> 0 <= b < 2 ^ 53 ->
  num_lt (num_of_Z a) (num_of_Z b) = true.
Proof.
  intros Ha Hb. destruct a as [|P|P]; try lia.
  rewrite (num_of_Z_neg P) by lia.
  destruct b as [|Q|Q]; [reflexivity| |lia].
  rewrite (num_of_Z_pos Q) by lia. reflexivity.
Qed.

Lemma limit_schema_out_of_range (z : Z) :
  - 2 ^ 53 < z < 2 ^ 53 -> z < 1 \/ 1000 < z ->
  limit_schema (Some (num_of_Z z)) = None.
Proof.
  intros Hz Hout.
  assert (H53 : 2 ^ 53 = 9007199254740992) by reflexivity.
  unfold limit_schema, checked, z_default, z_min, z_max.
  destruct Hout as [Hlow|Hhigh].
  - assert (Hlt : num_lt (num_of_Z z) (num_of_Z 1) = true).
    { destruct (Z.ltb_spec z 0).
      - apply num_lt_negative; lia.
      - rewrite num_lt_int by lia. apply Z.ltb_lt. lia. }
    rewrite Hlt. simpl. rewrite !andb_false_r. reflexivity.
  - assert (Hlt : num_lt (num_of_Z 1000) (num_of_Z z) = true).
    { rewrite num_lt_int by lia. apply Z.ltb_lt. lia. }
    rewrite Hlt. simpl. rewrite !andb_false_r. reflexivity.
Qed.

Lemma offset_schema_negative (z : Z) :
  - 2 ^ 53 < z < 0 -> offset_schema (Some (num_of_Z z)) = None.
Proof.
  intro Hz.
  assert (H53 : 2 ^ 53 = 9007199254740992) by reflexivity.
  unfold offset_schema, checked, z_default, z_min.
  rewrite num_lt_negative by lia. simpl. rewrite !andb_false_r.
  reflexivity.
Qed.

(** X20.  The schemas of the four paginated tools refuse a whole-number
    limit below 1 or above 1000 and a negative whole-number offset: the
    handler is not given such parameters, and the client's own
    replacement of a limit of 0 by 100 is never put to use by a tool. *)
Theorem paged_tools_refuse_a_page_out_of_range :
  forall input z,
    - 2 ^ 53 < z < 2 ^ 53 ->
    (input_limit input = Some (num_of_Z z) /\ (z < 1 \/ 1000 < z)) \/
    (input_offset input = Some (num_of_Z z) /\ z < 0) ->
    tool_operation input = None.
Proof.
  intros input z Hz Hcase.
  assert (Hnone : limit_schema (input_limit input) = None
                  \/ offset_schema (input_offset input) = None).
  { destruct Hcase as [[-> Hout]|[-> Hneg]].
    - left. apply limit_schema_out_of_range; assumption.
    - right. apply offset_schema_negative. lia. }
  destruct input as [i|i|i|i]; simpl in Hnone; simpl;
    unfold ListCustomersInputSchema, ListInvoicesInputSchema,
      ListVendorsInputSchema, ListBillsInputSchema;
    destruct Hnone as [->| ->]; try reflexivity;
    match goal with
    | |- context [limit_schema ?l] => destruct (limit_schema l); reflexivity
    end.
Qed.

Lemma paged_tools_refuse_a_page_out_of_range_witness :
  tool_operation (customers_with_limit (num_of_Z 0)) = None /\
  tool_operation (customers_with_limit (num_of_Z 1001)) = None.
Proof.
  assert (H53 : 2 ^ 53 = 9007199254740992) by reflexivity.
  split.
  - apply (paged_tools_refuse_a_page_out_of_range
             (customers_with_limit (num_of_Z 0)) 0); [lia|].
    left. split; [reflexivity|lia].
  - apply (paged_tools_refuse_a_page_out_of_range
             (customers_with_limit (num_of_Z 1001)) 1001); [lia|].
    left. split; [reflexivity|lia].
Defined.

(** X21.  The accounts tool accepts the six account types of its schema
    ("all" when none is given) and nothing else.  Its handler gives the
    client neither limit nor offset: the query always asks for the first
    1000 active accounts, of the type given unless that is "all". *)
Theorem accounts_tool_query :
  forall env c i,
    let t := z_default "all" (gai_account_type i) in
    match GetAccountsInputSchema i with
    | Some params =>
        In t account_types /\
        issued_sql (trace (queryAccounts env (listAccounts_options params) c))
        = if authenticates env c
          then ["SELECT * FROM Account WHERE Active = true"
                  ++ (if String.eqb t "all" then ""
                      else " AND AccountType = '" ++ t ++ "'")
                  ++ " STARTPOSITION 1 MAXRESULTS 1000"]
          else []
    | None => ~ In t account_types
    end.
Proof.
  intros env c i t. unfold GetAccountsInputSchema. fold t.
  destruct (existsb (String.eqb t) account_types) eqn:Hin.
  - apply existsb_exists in Hin. destruct Hin as (x & Hx & Heq).
    apply String.eqb_eq in Heq. subst x.
    split; [exact Hx|].
    rewrite <- (trace_fmap RValue).
    change (fmap RValue (queryAccounts env ?o) c)
      with (perform env (list_operation (ListAccounts o)) c).
    rewrite list_operation_issued_sql.
    destruct (authenticates env c); [|reflexivity].
    f_equal.
    simpl in Hx.
    destruct Hx as [<-|[<-|[<-|[<-|[<-|[<-|[]]]]]]];
      vm_compute; reflexivity.
  - intro Hx.
    assert (Hex : existsb (String.eqb t) account_types = true).
    { apply existsb_exists. exists t. split; [exact Hx|].
      apply String.eqb_refl. }
    congruence.
Qed.

Lemma z_array_nth {A B} (item : A -> option B) (l : list A) :
  forall l' i x,
    z_array item l = Some l' ->
    nth_error l i = Some x ->
    exists y, item x = Some y /\ nth_error l' i = Some y.
Proof.
  induction l as [|a l IH]; intros l' i x Hl Hx.
  - destruct i; discriminate Hx.
  - simpl in Hl. destruct (item a) as [b|] eqn:Ha; [|discriminate Hl].
    destruct (z_array item l) as [bs|] eqn:Hbs; [|discriminate Hl].
    injection Hl as <-.
    destruct i as [|i]; simpl in Hx |- *.
    + injection Hx as <-. exists b. split; [exact Ha|reflexivity].
    + apply (IH bs i x eq_refl Hx).
Qed.

Lemma z_array_length {A B} (item : A -> option B) (l : list A) :
  forall l', z_array item l = Some l' -> List.length l' = List.length l.
Proof.
  induction l as [|a l IH]; intros l' Hl; simpl in Hl.
  - injection Hl as <-. reflexivity.
  - destruct (item a) as [b|]; [|discriminate Hl].
    destruct (z_array item l) as [bs|]; [|discriminate Hl].
    injection Hl as <-. simpl. rewrite (IH bs eq_refl). reflexivity.
Qed.

(** X22.  Through the invoice tool, for every input the schema accepts:
    the invoice posted has as many lines as the input has line items,
    and at least one; the line of an item has the item's description and
    amount as unit price, and bills the item's quantity, except that a
    quantity left out or of 0 is billed as 1: Qty is that quantity and
    Amount is amount x that quantity. *)
Theorem createInvoice_tool_lines :
  forall env c input params,
    CreateInvoiceInputSchema input = Some params ->
    let posted := invoice_data (createInvoice_data params) in
    posted_bodies
      (api_calls (trace (createInvoice env (createInvoice_data params) c)))
    = (if authenticates env c then [posted] else []) /\
    List.length (Line posted) = List.length (cii_line_items input) /\
    (1 <= List.length (Line posted))%nat /\
    forall i item,
      nth_error (cii_line_items input) i = Some item ->
      exists line,
        nth_error (Line posted) i = Some line /\
        Description line = item_description item /\
        UnitPrice (Line_SalesItemLineDetail line) = item_amount item /\
        Qty (Line_SalesItemLineDetail line)
        = billed_quantity (item_quantity item) /\
        Amount line
        = num_mul (item_amount item) (billed_quantity (item_quantity item)).
Proof.
  intros env c input params Hschema posted.
  unfold CreateInvoiceInputSchema in Hschema.
  destruct (z_array line_item_schema (cii_line_items input)) as [items|]
    eqn:Hitems; [|discriminate Hschema].
  destruct (1 <=? List.length items)%nat eqn:Hmin; [|discriminate Hschema].
  injection Hschema as <-.
  assert (Hlen : List.length (Line posted)
                 = List.length (cii_line_items input)).
  { unfold posted. rewrite invoice_data_length. simpl.
    rewrite length_map. apply (z_array_length _ _ _ Hitems). }
  split; [apply createInvoice_posted|].
  split; [exact Hlen|].
  split.
  { rewrite Hlen, <- (z_array_length _ _ _ Hitems).
    apply Nat.leb_le, Hmin. }
  intros i item Hitem.
  destruct (z_array_nth _ _ _ i item Hitems Hitem) as (p & Hp & Hnth).
  unfold line_item_schema in Hp.
  destruct (z_number (item_amount item)
            && z_number (z_default (num_of_Z 1) (item_quantity item)))
    eqn:Hok; [|discriminate Hp].
  injection Hp as <-.
  apply andb_true_iff in Hok. destruct Hok as [_ Hq].
  eexists. split.
  { unfold posted. apply invoice_data_line. simpl.
    rewrite nth_error_map, Hnth. reflexivity. }
  assert (Hbilled : num_or (z_default (num_of_Z 1) (item_quantity item))
                      (num_of_Z 1)
                    = billed_quantity (item_quantity item)).
  { destruct (item_quantity item) as [q|]; [|reflexivity].
    simpl in Hq |- *. destruct q; try reflexivity. discriminate Hq. }
  unfold invoice_line; cbn [Description QB.Line_SalesItemLineDetail UnitPrice
                            Qty Amount QB.description QB.amount QB.quantity
                            lip_description lip_amount lip_quantity
                            opt_num_or].
  change (binary_round prec emax false 1 0) with (num_of_Z 1).
  rewrite Hbilled. repeat split.
Qed.

Lemma createInvoice_tool_lines_witness :
  exists params line,
    CreateInvoiceInputSchema two_items = Some params /\
    nth_error (Line (invoice_data (createInvoice_data params))) 1
    = Some line /\
    Qty (Line_SalesItemLineDetail line) = num_of_Z 1 /\
    Amount line = num_of_Z 40.
Proof.
  eexists.
  destruct (createInvoice_tool_lines (world "abc") example_client two_items
              _ eq_refl) as (_ & _ & _ & Hline).
  destruct (Hline 1%nat _ eq_refl) as (line & Hnth & _ & _ & Hqty & Hamt).
  exists line. split; [reflexivity|]. split; [exact Hnth|].
  split; [exact Hqty|]. rewrite Hamt. vm_compute. reflexivity.
Defined.

Lemma accounts_tool_query_witness :
  issued_sql
    (trace (queryAccounts (world "abc")
              (listAccounts_options
                 {| ga_account_type := "Bank";
                    ga_response_format := markdown |})
              example_client))
  = ["SELECT * FROM Account WHERE Active = true AND AccountType = 'Bank' STARTPOSITION 1 MAXRESULTS 1000"].
Proof.
  exact (proj2 (accounts_tool_query (world "abc") example_client
                  {| gai_account_type := Some "Bank";
                     gai_response_format := None |})).
Defined.
